(** * LiteMCP: a shallow embedding of the server and of its builders

    The development follows [packages/litemcp/src/server.ts]: the class
    [MCPServer] with its four capability registries, the sampling slot,
    the log level, the JSON-RPC entry point [handleJsonRpcRequest], the
    method table [processJsonRpcMethod], the per-method routines and
    [matchesTemplate]; then the HTTP side, [handleRequest] with the CORS
    preflight, the GET endpoints and the event stream; then the builders
    of [tool.ts], [resource.ts], [sampling.ts] and [prompt.ts], whose
    results are what an application registers.

    JavaScript values are an inductive type; the pieces of the language
    runtime that the server calls but does not define ([JSON.parse],
    [RegExp], string conversion of non-strings, the prototype chain, the
    errors raised by the engine and by the schema library) are the fields
    of the class [Runtime].  General results hold for every runtime; an
    executable reference runtime is given to run the server on concrete
    request bodies, and its pattern matcher is proved to agree with the
    meaning of patterns.

    A method of the server is a function of the server object that
    returns how it completes, the server object afterwards and the log
    of the handlers it awaited.  Handlers are functions of their
    argument; a handler that never settles is outside the model. *)

From Stdlib Require Import String Ascii List ZArith Bool Lia DecimalString.
Import ListNotations.

Local Open Scope list_scope.
Local Open Scope string_scope.
Local Set Warnings "-register-all".

(* ================================================================== *)
(** ** JavaScript values *)
(* ================================================================== *)

(** A Number is kept as the decimal literal it was read from (the
    mathematical value [m * 10^e]), or as one of the three non-finite
    doubles.  The two facts about binary64 rounding the server depends
    on (does the literal round to zero, does it overflow) are decided
    exactly below. *)
Inductive number : Type :=
| Decimal (m e : Z)
| NaN
| Infinity (negative : bool).

(** Round-to-nearest-even sends [x] to [0] exactly when
    [|x| <= 2^-1075]. *)
Definition number_is_zero (n : number) : bool :=
  match n with
  | Decimal m e =>
      if (m =? 0)%Z then true
      else if (0 <=? e)%Z then false
      else (Z.abs m * 2 ^ 1075 <=? 10 ^ (- e))%Z
  | _ => false
  end.

(** Round-to-nearest-even sends [x] to an infinity exactly when
    [|x| >= 2^1024 - 2^970]. *)
Definition number_is_finite (n : number) : bool :=
  match n with
  | Decimal m e =>
      let bound := (2 ^ 1024 - 2 ^ 970)%Z in
      if (0 <=? e)%Z then (Z.abs m * 10 ^ e <? bound)%Z
      else (Z.abs m <? bound * 10 ^ (- e))%Z
  | _ => false
  end.

Definition number_is_nan (n : number) : bool :=
  match n with NaN => true | _ => false end.

(** [VNative] stands for a built-in function object reached through the
    prototype chain (for instance [Object.prototype.toString]); [name]
    is the [name] property of the function. *)
Inductive value : Type :=
| VUndefined
| VNull
| VBool (b : bool)
| VNum (n : number)
| VStr (s : string)
| VArr (items : list value)
| VObj (props : list (string * value))
| VNative (name : string).

(** What a [throw] carries: an instance of [Error] with its [message],
    or any other value. *)
Inductive thrown : Type :=
| ErrorObj (message : string)
| NonError (v : value).

(** Outcome of evaluating an expression or of awaiting a promise. *)
Inductive completion (A : Type) : Type :=
| Normal (a : A)
| Throw (t : thrown).
Arguments Normal {A} a.
Arguments Throw {A} t.

(** [ToBoolean]: the test behind [!x], [x || y] and [if (x)]. *)
Definition truthy (v : value) : bool :=
  match v with
  | VUndefined | VNull => false
  | VBool b => b
  | VNum n => negb (number_is_zero n) && negb (number_is_nan n)
  | VStr s => match s with EmptyString => false | String _ _ => true end
  | VArr _ | VObj _ | VNative _ => true
  end.

Definition is_nullish (v : value) : bool :=
  match v with VUndefined | VNull => true | _ => false end.

(** [Array.isArray]. *)
Definition Array_isArray (v : value) : bool :=
  match v with VArr _ => true | _ => false end.

(** Own data properties of a plain object, first binding of a key. *)
Fixpoint own_prop (props : list (string * value)) (k : string) : option value :=
  match props with
  | [] => None
  | (k', v) :: rest => if k' =? k then Some v else own_prop rest k
  end.

(** The two syntactic forms in which [server.ts] reads a property of a
    value that may be [undefined] or [null]. *)
Inductive access : Type :=
| Destructuring
| MemberRead.

(* ================================================================== *)
(** ** The language runtime *)
(* ================================================================== *)

Class Runtime : Type := {
  (** [JSON.parse(text)]. *)
  JSON_parse : string -> completion value;
  (** [new RegExp(source)]: a [SyntaxError], or the predicate
      [s => regex.test(s)] on strings. *)
  RegExp_compile : string -> completion (string -> bool);
  (** [ToString] of a value that is not a string (template literals,
      the argument of [RegExp.prototype.test]). *)
  ToString_other : value -> completion string;
  (** [v[k]] when [k] is not an own data property of a plain object:
      array elements, string characters, [length], prototype chain. *)
  prop_other : value -> string -> value;
  (** The [TypeError] raised when property [k] is read from [undefined]
      or [null]. *)
  TypeError_nullish : access -> string -> value -> thrown;
  (** What [schema.parse] of the schema library throws on a value that
      does not conform. *)
  ZodError : value -> thrown
}.

(* ================================================================== *)
(** ** [Map<string, V>] with insertion order *)
(* ================================================================== *)

Definition Map (V : Type) : Type := list (string * V).

Fixpoint Map_get {V : Type} (k : string) (m : Map V) : option V :=
  match m with
  | [] => None
  | (k', v) :: rest => if k' =? k then Some v else Map_get k rest
  end.

(** [Map.prototype.set]: an existing key keeps its position and gets the
    new value, a new key goes last. *)
Fixpoint Map_set {V : Type} (k : string) (v : V) (m : Map V) : Map V :=
  match m with
  | [] => [(k, v)]
  | (k', v') :: rest =>
      if k' =? k then (k', v) :: rest else (k', v') :: Map_set k v rest
  end.

Definition Map_keys {V : Type} (m : Map V) : list string := map fst m.
Definition Map_values {V : Type} (m : Map V) : list V := map snd m.
Definition Map_entries {V : Type} (m : Map V) : list (string * V) := m.

(** [map.get(key)] for a key of any type: keys are strings and
    [SameValueZero] never identifies a string with a non-string. *)
Definition Map_get_value {V : Type} (key : value) (m : Map V) : option V :=
  match key with
  | VStr k => Map_get k m
  | _ => None
  end.

(** The representation invariant of a [Map]: no key occurs twice. *)
Definition Map_wf {V : Type} (m : Map V) : Prop := NoDup (Map_keys m).

(* ================================================================== *)
(** ** Descriptors and handlers ([types.ts]) *)
(* ================================================================== *)

Record MCPTool : Type := {
  tool_name : string;
  tool_description : string;
  tool_inputSchema : value
}.

Record MCPResource : Type := {
  res_uri : string;
  res_name : string;
  res_description : option string;
  res_mimeType : option string
}.

Record MCPResourceTemplate : Type := {
  tmpl_uriTemplate : string;
  tmpl_name : string;
  tmpl_description : option string;
  tmpl_mimeType : option string
}.

Record MCPPromptArgument : Type := {
  arg_name : string;
  arg_description : option string;
  arg_required : option bool
}.

Record MCPPrompt : Type := {
  prompt_name : string;
  prompt_description : option string;
  prompt_arguments : option (list MCPPromptArgument)
}.

Record MCPServerInfo : Type := {
  info_name : string;
  info_version : string
}.

(** [MCPCapabilities]: every category is optional; [tools], [resources]
    and [prompts] carry optional boolean flags. *)
Record MCPCapabilities : Type := {
  cap_tools : option (option bool);
  cap_resources : option (option bool * option bool);
  cap_prompts : option (option bool);
  cap_sampling : option unit;
  cap_logging : option unit
}.

(** A handler is an asynchronous function; awaiting its promise either
    yields a value or rethrows what the promise was rejected with.  The
    four handler interfaces of [types.ts] differ only in their static
    argument and result types. *)
Definition handler : Type := value -> completion value.
Definition MCPToolHandler : Type := handler.
Definition MCPResourceHandler : Type := handler.
Definition MCPPromptHandler : Type := handler.
Definition MCPSamplingHandler : Type := handler.

(** The descriptors as the objects that listings hand out. *)
Definition opt_prop {A : Type} (k : string) (f : A -> value) (o : option A)
  : list (string * value) :=
  match o with
  | Some a => [(k, f a)]
  | None => []
  end.

Definition MCPTool_object (t : MCPTool) : value :=
  VObj [("name", VStr (tool_name t));
        ("description", VStr (tool_description t));
        ("inputSchema", tool_inputSchema t)].

Definition MCPResource_object (r : MCPResource) : value :=
  VObj ([("uri", VStr (res_uri r)); ("name", VStr (res_name r))]
        ++ opt_prop "description" VStr (res_description r)
        ++ opt_prop "mimeType" VStr (res_mimeType r)).

Definition MCPResourceTemplate_object (t : MCPResourceTemplate) : value :=
  VObj ([("uriTemplate", VStr (tmpl_uriTemplate t)); ("name", VStr (tmpl_name t))]
        ++ opt_prop "description" VStr (tmpl_description t)
        ++ opt_prop "mimeType" VStr (tmpl_mimeType t)).

Definition MCPPromptArgument_object (a : MCPPromptArgument) : value :=
  VObj ([("name", VStr (arg_name a))]
        ++ opt_prop "description" VStr (arg_description a)
        ++ opt_prop "required" VBool (arg_required a)).

Definition MCPPrompt_object (p : MCPPrompt) : value :=
  VObj ([("name", VStr (prompt_name p))]
        ++ opt_prop "description" VStr (prompt_description p)
        ++ opt_prop "arguments"
             (fun l => VArr (map MCPPromptArgument_object l))
             (prompt_arguments p)).

Definition MCPServerInfo_object (i : MCPServerInfo) : value :=
  VObj [("name", VStr (info_name i)); ("version", VStr (info_version i))].

Definition MCPCapabilities_object (c : MCPCapabilities) : value :=
  VObj (opt_prop "tools"
          (fun lc => VObj (opt_prop "listChanged" VBool lc)) (cap_tools c)
        ++ opt_prop "resources"
          (fun r => VObj (opt_prop "subscribe" VBool (fst r)
                          ++ opt_prop "listChanged" VBool (snd r)))
          (cap_resources c)
        ++ opt_prop "prompts"
          (fun lc => VObj (opt_prop "listChanged" VBool lc)) (cap_prompts c)
        ++ opt_prop "sampling" (fun _ => VObj []) (cap_sampling c)
        ++ opt_prop "logging" (fun _ => VObj []) (cap_logging c)).

(** [JsonRpcRequest], the output type of the envelope schema.  An absent
    [id] or [params] is [VUndefined]. *)
Record JsonRpcRequest : Type := {
  req_jsonrpc : string;
  req_id : value;
  req_method : string;
  req_params : value
}.

(** The argument of [new Response(body, init)]: [null], or the text
    [JSON.stringify(v)], kept as the value it serialises. *)
Inductive BodyInit : Type :=
| NullBody
| JSON_stringify (v : value).

Record Response : Type := {
  resp_body : BodyInit;
  resp_status : Z;
  resp_headers : list (string * string)
}.

(* ================================================================== *)
(** ** The server object *)
(* ================================================================== *)

Record MCPServer : Type := {
  tools : Map MCPTool;
  toolHandlers : Map MCPToolHandler;
  resources : Map MCPResource;
  resourceHandlers : Map MCPResourceHandler;
  resourceTemplates : Map MCPResourceTemplate;
  prompts : Map MCPPrompt;
  promptHandlers : Map MCPPromptHandler;
  samplingHandler : option MCPSamplingHandler;
  serverInfo : MCPServerInfo;
  capabilities : MCPCapabilities;
  logLevel : value
}.

(** [capabilities = { tools: {} }], the default of the constructor. *)
Definition default_capabilities : MCPCapabilities :=
  {| cap_tools := Some None; cap_resources := None; cap_prompts := None;
     cap_sampling := None; cap_logging := None |}.

Definition new_MCPServer (info : MCPServerInfo) (caps : option MCPCapabilities)
  : MCPServer :=
  {| tools := []; toolHandlers := [];
     resources := []; resourceHandlers := [];
     resourceTemplates := [];
     prompts := []; promptHandlers := [];
     samplingHandler := None;
     serverInfo := info;
     capabilities := match caps with Some c => c | None => default_capabilities end;
     logLevel := VStr "info" |}.

Definition addTool (tool : MCPTool) (h : MCPToolHandler) (this : MCPServer)
  : MCPServer :=
  {| tools := Map_set (tool_name tool) tool (tools this);
     toolHandlers := Map_set (tool_name tool) h (toolHandlers this);
     resources := resources this;
     resourceHandlers := resourceHandlers this;
     resourceTemplates := resourceTemplates this;
     prompts := prompts this;
     promptHandlers := promptHandlers this;
     samplingHandler := samplingHandler this;
     serverInfo := serverInfo this;
     capabilities := capabilities this;
     logLevel := logLevel this |}.

Definition addResource (resource : MCPResource) (h : MCPResourceHandler)
  (this : MCPServer) : MCPServer :=
  {| tools := tools this;
     toolHandlers := toolHandlers this;
     resources := Map_set (res_uri resource) resource (resources this);
     resourceHandlers := Map_set (res_uri resource) h (resourceHandlers this);
     resourceTemplates := resourceTemplates this;
     prompts := prompts this;
     promptHandlers := promptHandlers this;
     samplingHandler := samplingHandler this;
     serverInfo := serverInfo this;
     capabilities := capabilities this;
     logLevel := logLevel this |}.

Definition addResourceTemplate (template : MCPResourceTemplate)
  (h : MCPResourceHandler) (this : MCPServer) : MCPServer :=
  {| tools := tools this;
     toolHandlers := toolHandlers this;
     resources := resources this;
     resourceHandlers :=
       Map_set (tmpl_uriTemplate template) h (resourceHandlers this);
     resourceTemplates :=
       Map_set (tmpl_uriTemplate template) template (resourceTemplates this);
     prompts := prompts this;
     promptHandlers := promptHandlers this;
     samplingHandler := samplingHandler this;
     serverInfo := serverInfo this;
     capabilities := capabilities this;
     logLevel := logLevel this |}.

Definition addPrompt (prompt : MCPPrompt) (h : MCPPromptHandler)
  (this : MCPServer) : MCPServer :=
  {| tools := tools this;
     toolHandlers := toolHandlers this;
     resources := resources this;
     resourceHandlers := resourceHandlers this;
     resourceTemplates := resourceTemplates this;
     prompts := Map_set (prompt_name prompt) prompt (prompts this);
     promptHandlers := Map_set (prompt_name prompt) h (promptHandlers this);
     samplingHandler := samplingHandler this;
     serverInfo := serverInfo this;
     capabilities := capabilities this;
     logLevel := logLevel this |}.

Definition setSamplingHandler (h : MCPSamplingHandler) (this : MCPServer)
  : MCPServer :=
  {| tools := tools this;
     toolHandlers := toolHandlers this;
     resources := resources this;
     resourceHandlers := resourceHandlers this;
     resourceTemplates := resourceTemplates this;
     prompts := prompts this;
     promptHandlers := promptHandlers this;
     samplingHandler := Some h;
     serverInfo := serverInfo this;
     capabilities := capabilities this;
     logLevel := logLevel this |}.

Definition setLogLevel (level : value) (this : MCPServer) : MCPServer :=
  {| tools := tools this;
     toolHandlers := toolHandlers this;
     resources := resources this;
     resourceHandlers := resourceHandlers this;
     resourceTemplates := resourceTemplates this;
     prompts := prompts this;
     promptHandlers := promptHandlers this;
     samplingHandler := samplingHandler this;
     serverInfo := serverInfo this;
     capabilities := capabilities this;
     logLevel := level |}.

(** Registration calls made by the application, as data. *)
Inductive registration : Type :=
| RegTool (tool : MCPTool) (h : MCPToolHandler)
| RegResource (resource : MCPResource) (h : MCPResourceHandler)
| RegResourceTemplate (template : MCPResourceTemplate) (h : MCPResourceHandler)
| RegPrompt (prompt : MCPPrompt) (h : MCPPromptHandler)
| RegSampling (h : MCPSamplingHandler)
| RegLogLevel (level : value).

Definition register (this : MCPServer) (r : registration) : MCPServer :=
  match r with
  | RegTool t h => addTool t h this
  | RegResource r h => addResource r h this
  | RegResourceTemplate t h => addResourceTemplate t h this
  | RegPrompt p h => addPrompt p h this
  | RegSampling h => setSamplingHandler h this
  | RegLogLevel l => setLogLevel l this
  end.

Definition register_all (this : MCPServer) (rs : list registration)
  : MCPServer :=
  fold_left register rs this.

(** Every value of map [m] is stored under its own key [key v]. *)
Definition keyed_by {V : Type} (key : V -> string) (m : Map V) : Prop :=
  forall k v, In (k, v) m -> key v = k.

(** Every map of the server satisfies the [Map] invariant, and every
    descriptor is stored under its own identifier. *)
Record server_wf (s : MCPServer) : Prop := {
  wf_tools : Map_wf (tools s);
  wf_toolHandlers : Map_wf (toolHandlers s);
  wf_resources : Map_wf (resources s);
  wf_resourceHandlers : Map_wf (resourceHandlers s);
  wf_resourceTemplates : Map_wf (resourceTemplates s);
  wf_prompts : Map_wf (prompts s);
  wf_promptHandlers : Map_wf (promptHandlers s);
  keyed_tools : keyed_by tool_name (tools s);
  keyed_resources : keyed_by res_uri (resources s);
  keyed_resourceTemplates : keyed_by tmpl_uriTemplate (resourceTemplates s);
  keyed_prompts : keyed_by prompt_name (prompts s)
}.

(* ================================================================== *)
(** ** Effects: exceptions, the server object, handler invocations *)
(* ================================================================== *)

(** An entry of the invocation log: handler [h] was called with [arg]. *)
Inductive call : Type :=
| Invoked (h : handler) (arg : value).

(** A method of the server: it runs against the server object, may
    change it, may invoke registered handlers, and completes normally or
    by a throw. *)
Definition M (A : Type) : Type :=
  MCPServer -> completion A * MCPServer * list call.

Definition ret {A : Type} (a : A) : M A :=
  fun s => (Normal a, s, []).

Definition throw {A : Type} (t : thrown) : M A :=
  fun s => (Throw t, s, []).

Definition bind {A B : Type} (m : M A) (f : A -> M B) : M B :=
  fun s =>
    match m s with
    | (Normal a, s1, c1) =>
        match f a s1 with
        | (r, s2, c2) => (r, s2, (c1 ++ c2)%list)
        end
    | (Throw t, s1, c1) => (Throw t, s1, c1)
    end.

Declare Scope js_scope.
Delimit Scope js_scope with js.
Notation "x <- m ;; k" := (bind m (fun x => k))
  (at level 61, m at next level, right associativity) : js_scope.
Notation "m ;;; k" := (bind m (fun _ => k))
  (at level 61, right associativity) : js_scope.

(** A runtime operation that only completes or throws. *)
Definition lift {A : Type} (c : completion A) : M A :=
  fun s => (c, s, []).

(** [this]. *)
Definition this_server : M MCPServer :=
  fun s => (Normal s, s, []).

(** [this.setLogLevel(level)] from inside a method. *)
Definition this_setLogLevel (level : value) : M unit :=
  fun s => (Normal tt, setLogLevel level s, []).

(** [await handler(arg)]. *)
Definition await_call (h : handler) (arg : value) : M value :=
  fun s => (h arg, s, [Invoked h arg]).

(** [throw new Error(message)]. *)
Definition throw_Error {A : Type} (message : string) : M A :=
  throw (ErrorObj message).

Definition completion_bind {A B : Type} (c : completion A)
  (f : A -> completion B) : completion B :=
  match c with
  | Normal a => f a
  | Throw t => Throw t
  end.

(* ================================================================== *)
(** ** Strings *)
(* ================================================================== *)

(** A character is a code unit below 256.  [WhiteSpace] and
    [LineTerminator] in that range: TAB, LF, VT, FF, CR, SP, NBSP. *)
Definition is_trim_space (c : ascii) : bool :=
  let n := nat_of_ascii c in
  ((9 <=? n) && (n <=? 13) || (n =? 32) || (n =? 160))%nat.

Fixpoint trimStart (s : string) : string :=
  match s with
  | EmptyString => EmptyString
  | String c rest => if is_trim_space c then trimStart rest else s
  end.

Fixpoint trimEnd (s : string) : string :=
  match s with
  | EmptyString => EmptyString
  | String c rest =>
      match trimEnd rest with
      | EmptyString => if is_trim_space c then EmptyString else String c EmptyString
      | t => String c t
      end
  end.

(** [String.prototype.trim]. *)
Definition trim (s : string) : string := trimEnd (trimStart s).

(** Rest of the input after [[^}]*\}], if that matches at its start. *)
Fixpoint skip_to_close (s : string) : option string :=
  match s with
  | EmptyString => None
  | String c rest => if (c =? "}")%char then Some rest else skip_to_close rest
  end.

(** Rest of the input after a match of [\{[^}]+\}] at its start. *)
Definition match_placeholder (s : string) : option string :=
  match s with
  | String "{" (String c rest) =>
      if (c =? "}")%char then None else skip_to_close rest
  | _ => None
  end.

(** The global replacement: leftmost match first, scanning resumes
    after each match.  Every step consumes a character, so [fuel] equal
    to the length of the input is enough. *)
Fixpoint replace_from (fuel : nat) (s : string) : string :=
  match fuel with
  | O => s
  | S fuel' =>
      match match_placeholder s with
      | Some rest => "([^/]+)" ++ replace_from fuel' rest
      | None =>
          match s with
          | EmptyString => EmptyString
          | String c rest => String c (replace_from fuel' rest)
          end
      end
  end.

(** [template.replace(/\{[^}]+\}/g, '([^/]+)')]. *)
Definition replace_placeholders (template : string) : string :=
  replace_from (String.length template) template.

(* ================================================================== *)
(** ** The dispatcher *)
(* ================================================================== *)

Section Dispatcher.
Context {RT : Runtime}.
Local Open Scope js_scope.

(** [ToString(v)]. *)
Definition ToString (v : value) : completion string :=
  match v with
  | VStr s => Normal s
  | _ => ToString_other v
  end.

(** [v[k]] for a value that is neither [undefined] nor [null]. *)
Definition get_prop (v : value) (k : string) : value :=
  match v with
  | VObj props =>
      match own_prop props k with
      | Some x => x
      | None => prop_other v k
      end
  | _ => prop_other v k
  end.

(** [v?.[k]]. *)
Definition optional_get (v : value) (k : string) : value :=
  if is_nullish v then VUndefined else get_prop v k.

(** Reading property [k] of [v] throws when [v] is [undefined] or
    [null]; [how] tells a destructuring pattern from [v.k]. *)
Definition object_coercible (how : access) (k : string) (v : value) : M unit :=
  if is_nullish v then throw (TypeError_nullish how k v) else ret tt.

(** *** The envelope schema *)

Definition schema : Type := value -> bool.

Definition z_literal (lit : string) : schema :=
  fun v => match v with VStr s => s =? lit | _ => false end.

Definition z_string : schema :=
  fun v => match v with VStr _ => true | _ => false end.

(** Version 4 of the schema library: a number that is neither [NaN]
    nor infinite. *)
Definition z_number : schema :=
  fun v => match v with VNum n => number_is_finite n | _ => false end.

Definition z_null : schema :=
  fun v => match v with VNull => true | _ => false end.

Definition z_any : schema := fun _ => true.

Definition z_union (options : list schema) : schema :=
  fun v => existsb (fun sch => sch v) options.

Definition z_optional (sch : schema) : schema :=
  fun v => match v with VUndefined => true | _ => sch v end.

(** A plain object (not [null], not an array) each of whose listed
    properties conforms; other properties are dropped from the output. *)
Definition z_object (shape : list (string * schema)) : schema :=
  fun v =>
    match v with
    | VObj _ => forallb (fun ks => snd ks (get_prop v (fst ks))) shape
    | _ => false
    end.

Definition JsonRpcRequestSchema : schema :=
  z_object
    [("jsonrpc", z_literal "2.0");
     ("id", z_optional (z_union [z_string; z_number; z_null]));
     ("method", z_string);
     ("params", z_optional z_any)].

(** [JsonRpcRequestSchema.parse(input)]. *)
Definition JsonRpcRequestSchema_parse (input : value) : completion JsonRpcRequest :=
  if JsonRpcRequestSchema input then
    match get_prop input "method" with
    | VStr m =>
        Normal {| req_jsonrpc := "2.0";
                  req_id := get_prop input "id";
                  req_method := m;
                  req_params := get_prop input "params" |}
    | _ => Throw (ZodError input)
    end
  else Throw (ZodError input).

(** *** Template matching *)

Definition matchesTemplate (uri : value) (template : string) : completion bool :=
  let regexPattern := replace_placeholders template in
  completion_bind (RegExp_compile ("^" ++ regexPattern ++ "$")) (fun regex =>
  completion_bind (ToString uri) (fun s =>
  Normal (regex s))).

(** The [for ... of this.resourceHandlers.entries()] loop of
    [handleResourceRead]: the handler of the first entry whose key
    matches, [None] when the loop runs to its end. *)
Fixpoint first_matching (uri : value) (entries : list (string * MCPResourceHandler))
  : completion (option MCPResourceHandler) :=
  match entries with
  | [] => Normal None
  | (template, templateHandler) :: rest =>
      match matchesTemplate uri template with
      | Throw t => Throw t
      | Normal true => Normal (Some templateHandler)
      | Normal false => first_matching uri rest
      end
  end.

(** *** The routines of the method table *)

Definition handleInitialize (params : value) : M value :=
  this <- this_server ;;
  ret (VObj [("protocolVersion", VStr "2024-11-05");
             ("capabilities", MCPCapabilities_object (capabilities this));
             ("serverInfo", MCPServerInfo_object (serverInfo this))]).

Definition handleToolCall (params : value) : M value :=
  object_coercible Destructuring "name" params ;;;
  let name := get_prop params "name" in
  let args := get_prop params "arguments" in
  this <- this_server ;;
  match Map_get_value name (toolHandlers this) with
  | None =>
      shown <- lift (ToString name) ;;
      throw_Error ("Unknown tool: " ++ shown)
  | Some h => await_call h (if truthy args then args else VObj [])
  end.

Definition handleResourcesList : M value :=
  this <- this_server ;;
  ret (VObj [("resources",
              VArr (map MCPResource_object (Map_values (resources this))))]).

Definition handleResourceTemplatesList : M value :=
  this <- this_server ;;
  ret (VObj [("resourceTemplates",
              VArr (map MCPResourceTemplate_object
                        (Map_values (resourceTemplates this))))]).

Definition handleResourceRead (params : value) : M value :=
  object_coercible Destructuring "uri" params ;;;
  let uri := get_prop params "uri" in
  if negb (truthy uri) then throw_Error "URI is required for resource read"
  else
    this <- this_server ;;
    found <- match Map_get_value uri (resourceHandlers this) with
             | Some h => ret (Some h)
             | None =>
                 lift (first_matching uri (Map_entries (resourceHandlers this)))
             end ;;
    match found with
    | None =>
        shown <- lift (ToString uri) ;;
        throw_Error ("Resource not found: " ++ shown)
    | Some h =>
        content <- await_call h uri ;;
        ret (VObj [("contents", VArr [content])])
    end.

Definition handlePromptsList : M value :=
  this <- this_server ;;
  ret (VObj [("prompts",
              VArr (map MCPPrompt_object (Map_values (prompts this))))]).

(** [arg.required] is a boolean or absent. *)
Definition flagged_required (arg : MCPPromptArgument) : bool :=
  match arg_required arg with
  | Some b => b
  | None => false
  end.

(** The loop over [prompt.arguments] in [handlePromptGet]. *)
Fixpoint check_required (args : value) (arguments : list MCPPromptArgument)
  : completion unit :=
  match arguments with
  | [] => Normal tt
  | arg :: rest =>
      if flagged_required arg && negb (truthy (optional_get args (arg_name arg)))
      then Throw (ErrorObj ("Required argument missing: " ++ arg_name arg))
      else check_required args rest
  end.

Definition handlePromptGet (params : value) : M value :=
  object_coercible Destructuring "name" params ;;;
  let name := get_prop params "name" in
  let args := get_prop params "arguments" in
  this <- this_server ;;
  match Map_get_value name (prompts this) with
  | None =>
      shown <- lift (ToString name) ;;
      throw_Error ("Unknown prompt: " ++ shown)
  | Some prompt =>
      match Map_get_value name (promptHandlers this) with
      | None =>
          shown <- lift (ToString name) ;;
          throw_Error ("No handler for prompt: " ++ shown)
      | Some h =>
          match prompt_arguments prompt with
          | Some arguments => lift (check_required args arguments)
          | None => ret tt
          end ;;;
          await_call h (if truthy args then args else VObj [])
      end
  end.

Definition array_length (v : value) : nat :=
  match v with
  | VArr items => List.length items
  | _ => 0
  end.

Definition handleSampling (params : value) : M value :=
  this <- this_server ;;
  match samplingHandler this with
  | None => throw_Error "Sampling handler not configured"
  | Some h =>
      object_coercible MemberRead "messages" params ;;;
      let messages := get_prop params "messages" in
      if negb (truthy messages)
         || negb (Array_isArray messages)
         || (array_length messages =? 0)%nat
      then throw_Error "Messages array is required and cannot be empty"
      else await_call h params
  end.

Definition handleSetLogLevel (params : value) : M value :=
  object_coercible Destructuring "level" params ;;;
  let level := get_prop params "level" in
  if negb (truthy level) then throw_Error "Log level is required"
  else
    this_setLogLevel level ;;;
    ret (VObj []).

Definition processJsonRpcMethod (request : JsonRpcRequest) : M value :=
  let method := req_method request in
  if method =? "initialize" then handleInitialize (req_params request)
  else if method =? "notifications/initialized" then ret VNull
  else if method =? "tools/list" then
    this <- this_server ;;
    ret (VObj [("tools", VArr (map MCPTool_object (Map_values (tools this))))])
  else if method =? "tools/call" then handleToolCall (req_params request)
  else if method =? "resources/list" then handleResourcesList
  else if method =? "resources/templates/list" then handleResourceTemplatesList
  else if method =? "resources/read" then handleResourceRead (req_params request)
  else if method =? "prompts/list" then handlePromptsList
  else if method =? "prompts/get" then handlePromptGet (req_params request)
  else if method =? "sampling/createMessage" then handleSampling (req_params request)
  else if method =? "logging/setLevel" then handleSetLogLevel (req_params request)
  else throw_Error ("Unknown method: " ++ method).

(** *** The JSON-RPC entry point *)

Definition json_headers : list (string * string) :=
  [("Content-Type", "application/json");
   ("Access-Control-Allow-Origin", "*")].

Definition error_code : Z := (-32603)%Z.

Definition error_message (error : thrown) : string :=
  match error with
  | ErrorObj message => message
  | NonError _ => "Internal error"
  end.

Definition createErrorResponse (error : thrown) (id : value) : Response :=
  let errorResponse :=
    VObj [("jsonrpc", VStr "2.0");
          ("id", id);
          ("error", VObj [("code", VNum (Decimal error_code 0));
                          ("message", VStr (error_message error))])] in
  {| resp_body := JSON_stringify errorResponse;
     resp_status := 500;
     resp_headers := json_headers |}.

(** [a ?? b]. *)
Definition nullish_coalesce (a b : value) : value :=
  if is_nullish a then b else a.

(** [x === null]. *)
Definition is_null (v : value) : bool :=
  match v with VNull => true | _ => false end.

(** The envelope decoding steps of the [try] block: the body text must
    not trim to the empty string, must parse, and must conform. *)
Definition decode (body : string) : completion JsonRpcRequest :=
  if negb (truthy (VStr (trim body))) then Throw (ErrorObj "Empty request body")
  else completion_bind (JSON_parse body) JsonRpcRequestSchema_parse.

(** The [try] block of [handleJsonRpcRequest]; [body] is the text read
    from the request. *)
Definition handleJsonRpcRequest_try (body : string) : M Response :=
  jsonRpcRequest <- lift (decode body) ;;
  result <- processJsonRpcMethod jsonRpcRequest ;;
  if is_null result then
    ret {| resp_body := NullBody; resp_status := 204; resp_headers := [] |}
  else
    let response :=
      VObj [("jsonrpc", VStr "2.0");
            ("id", nullish_coalesce (req_id jsonRpcRequest) VNull);
            ("result", result)] in
    ret {| resp_body := JSON_stringify response;
           resp_status := 200;
           resp_headers := json_headers |}.

(** [handleJsonRpcRequest]: the [try] block and its [catch]. *)
Definition handleJsonRpcRequest (body : string) (this : MCPServer)
  : Response * MCPServer * list call :=
  match handleJsonRpcRequest_try body this with
  | (Normal response, this', calls) => (response, this', calls)
  | (Throw error, this', calls) => (createErrorResponse error VNull, this', calls)
  end.

End Dispatcher.

(* ================================================================== *)
(** ** A reference runtime *)
(* ================================================================== *)

(** An executable instance of [Runtime], used to run the server on
    concrete request bodies.  Where a text, a pattern or a conversion is
    outside what it implements it says so by throwing an [Error] whose
    message starts with [reference runtime:], never by a made-up
    result.  A property read has no way to throw: what the reads leave
    out is said at [prop_other].  The messages of the syntax errors of
    [JSON.parse] are abbreviated; the messages of the syntax errors of
    patterns and of type errors are those of the V8 engine. *)
Module Ref.

Definition unsupported {A : Type} (what : string) : completion A :=
  Throw (ErrorObj ("reference runtime: " ++ what)).

Definition SyntaxError {A : Type} (message : string) : completion A :=
  Throw (ErrorObj message).

Definition code (c : ascii) : nat := nat_of_ascii c.

Definition is_digit (c : ascii) : bool :=
  ((48 <=? code c) && (code c <=? 57))%nat.

Definition digit_value (c : ascii) : Z := Z.of_nat (code c - 48).

(** *** JSON text *)

(** JSON white space: TAB, LF, CR, SP. *)
Definition is_json_space (c : ascii) : bool :=
  ((code c =? 9) || (code c =? 10) || (code c =? 13) || (code c =? 32))%nat.

Fixpoint skip_space (s : string) : string :=
  match s with
  | String c rest => if is_json_space c then skip_space rest else s
  | EmptyString => s
  end.

Definition hex_value (c : ascii) : option nat :=
  let n := code c in
  if ((48 <=? n) && (n <=? 57))%nat then Some (n - 48)%nat
  else if ((65 <=? n) && (n <=? 70))%nat then Some (n - 55)%nat
  else if ((97 <=? n) && (n <=? 102))%nat then Some (n - 87)%nat
  else None.

(** The code unit of [\uXXXX]. *)
Definition hex4 (a b c d : ascii) : option nat :=
  match hex_value a, hex_value b, hex_value c, hex_value d with
  | Some x, Some y, Some z, Some w => Some (((x * 16 + y) * 16 + z) * 16 + w)%nat
  | _, _, _, _ => None
  end.

(** The double quote character. *)
Definition dquote : ascii := ascii_of_nat 34.

Definition simple_escape (e : ascii) : option ascii :=
  if (e =? dquote)%char then Some e
  else if (e =? "\")%char then Some e
  else if (e =? "/")%char then Some e
  else if (e =? "b")%char then Some (ascii_of_nat 8)
  else if (e =? "f")%char then Some (ascii_of_nat 12)
  else if (e =? "n")%char then Some (ascii_of_nat 10)
  else if (e =? "r")%char then Some (ascii_of_nat 13)
  else if (e =? "t")%char then Some (ascii_of_nat 9)
  else None.

(** Outcome of a parsing step: a result with the rest of the input, a
    syntax error of a JSON text, a syntax error of a pattern with the
    reason that the engine gives for it, or a construct the reference
    runtime does not cover. *)
Inductive parsed (A : Type) : Type :=
| Parsed (a : A) (rest : string)
| Malformed
| Rejected (reason : string)
| NotCovered (what : string).
Arguments Parsed {A} a rest.
Arguments Malformed {A}.
Arguments Rejected {A} reason.
Arguments NotCovered {A} what.

(** The characters of a JSON string after its opening quote. *)
Fixpoint string_chars (s : string) : parsed string :=
  match s with
  | EmptyString => Malformed
  | String c rest =>
      if (c =? dquote)%char then Parsed EmptyString rest
      else if (c =? "\")%char then
        match rest with
        | String "u" (String h1 (String h2 (String h3 (String h4 rest')))) =>
            match hex4 h1 h2 h3 h4 with
            | None => Malformed
            | Some n =>
                if (n <? 256)%nat then
                  match string_chars rest' with
                  | Parsed t r => Parsed (String (ascii_of_nat n) t) r
                  | other => other
                  end
                else NotCovered "code unit above 255 in a JSON string"
            end
        | String e rest' =>
            match simple_escape e with
            | None => Malformed
            | Some x =>
                match string_chars rest' with
                | Parsed t r => Parsed (String x t) r
                | other => other
                end
            end
        | EmptyString => Malformed
        end
      else if (code c <? 32)%nat then Malformed
      else
        match string_chars rest with
        | Parsed t r => Parsed (String c t) r
        | other => other
        end
  end.

(** A run of decimal digits: its value continuing [acc], how many digits
    were read, the rest. *)
Fixpoint digits (acc : Z) (count : nat) (s : string) : Z * nat * string :=
  match s with
  | String c rest =>
      if is_digit c then digits (acc * 10 + digit_value c)%Z (S count) rest
      else (acc, count, s)
  | EmptyString => (acc, count, s)
  end.

(** A JSON number: an optional minus sign; an integer part that is
    either the single digit 0 or starts with a digit from 1 to 9; an
    optional fraction (a dot and at least one digit); an optional
    exponent (e or E, an optional sign, at least one digit). *)
Definition json_number (s : string) : parsed number :=
  let '(negative, s1) :=
    match s with
    | String "-" r => (true, r)
    | _ => (false, s)
    end in
  let integer_part :=
    match s1 with
    | String "0" r => Some (0%Z, r)
    | String c _ =>
        if is_digit c then let '(v, _, r) := digits 0 0 s1 in Some (v, r)
        else None
    | EmptyString => None
    end in
  match integer_part with
  | None => Malformed
  | Some (int, s2) =>
      let fraction :=
        match s2 with
        | String "." r =>
            let '(v, n, r') := digits int 0 r in
            if (n =? 0)%nat then None else Some (v, n, r')
        | _ => Some (int, 0%nat, s2)
        end in
      match fraction with
      | None => Malformed
      | Some (mantissa, scale, s3) =>
          let exponent :=
            match s3 with
            | String c r =>
                if (c =? "e")%char || (c =? "E")%char then
                  let '(minus, r1) :=
                    match r with
                    | String "-" r' => (true, r')
                    | String "+" r' => (false, r')
                    | _ => (false, r)
                    end in
                  let '(v, n, r2) := digits 0 0 r1 in
                  if (n =? 0)%nat then None
                  else Some ((if minus then - v else v)%Z, r2)
                else Some (0%Z, s3)
            | EmptyString => Some (0%Z, s3)
            end in
          match exponent with
          | None => Malformed
          | Some (e, s4) =>
              Parsed (Decimal (if negative then - mantissa else mantissa)%Z
                              (e - Z.of_nat scale)%Z) s4
          end
      end
  end.

(** [s] starts with [word]: the rest after it. *)
Fixpoint after_word (word s : string) : option string :=
  match word, s with
  | EmptyString, _ => Some s
  | String w word', String c rest =>
      if (w =? c)%char then after_word word' rest else None
  | String _ _, EmptyString => None
  end.

(** Setting a property while an object literal is read: a repeated key
    keeps its place and takes the later value. *)
Definition define_prop (k : string) (v : value) (props : list (string * value))
  : list (string * value) :=
  Map_set k v props.

(** JSON values, by recursive descent.  [value_at] reads one value
    after optional white space; [elements_at] reads the rest of an array
    after a value has been expected, [members_at] the rest of an object
    after a key has been expected; [acc] holds what was read so far. *)
Fixpoint value_at (fuel : nat) (s : string) : parsed value :=
  match fuel with
  | O => NotCovered "nesting deeper than the input is long"
  | S fuel' =>
      match skip_space s with
      | EmptyString => Malformed
      | String c rest =>
          if (c =? "{")%char then
            match skip_space rest with
            | String "}" r => Parsed (VObj []) r
            | _ => members_at fuel' [] rest
            end
          else if (c =? "[")%char then
            match skip_space rest with
            | String "]" r => Parsed (VArr []) r
            | _ => elements_at fuel' [] rest
            end
          else if (c =? dquote)%char then
            match string_chars rest with
            | Parsed t r => Parsed (VStr t) r
            | Malformed => Malformed
            | Rejected reason => Rejected reason
            | NotCovered w => NotCovered w
            end
          else if (c =? "-")%char || is_digit c then
            match json_number (String c rest) with
            | Parsed n r => Parsed (VNum n) r
            | Malformed => Malformed
            | Rejected reason => Rejected reason
            | NotCovered w => NotCovered w
            end
          else
            match after_word "true" (String c rest),
                  after_word "false" (String c rest),
                  after_word "null" (String c rest) with
            | Some r, _, _ => Parsed (VBool true) r
            | _, Some r, _ => Parsed (VBool false) r
            | _, _, Some r => Parsed VNull r
            | None, None, None => Malformed
            end
      end
  end

with elements_at (fuel : nat) (acc : list value) (s : string) : parsed value :=
  match fuel with
  | O => NotCovered "nesting deeper than the input is long"
  | S fuel' =>
      match value_at fuel' s with
      | Parsed v r =>
          match skip_space r with
          | String "," r' => elements_at fuel' (acc ++ [v]) r'
          | String "]" r' => Parsed (VArr (acc ++ [v])) r'
          | _ => Malformed
          end
      | other => other
      end
  end

with members_at (fuel : nat) (acc : list (string * value)) (s : string)
  : parsed value :=
  match fuel with
  | O => NotCovered "nesting deeper than the input is long"
  | S fuel' =>
      match skip_space s with
      | String c rest =>
          if (c =? dquote)%char then
            match string_chars rest with
            | Parsed k r =>
                match skip_space r with
                | String ":" r1 =>
                    match value_at fuel' r1 with
                    | Parsed v r2 =>
                        match skip_space r2 with
                        | String "," r3 => members_at fuel' (define_prop k v acc) r3
                        | String "}" r3 => Parsed (VObj (define_prop k v acc)) r3
                        | _ => Malformed
                        end
                    | other => other
                    end
                | _ => Malformed
                end
            | Malformed => Malformed
            | Rejected reason => Rejected reason
            | NotCovered w => NotCovered w
            end
          else Malformed
      | EmptyString => Malformed
      end
  end.

(** [JSON.parse(text)]: one value, with nothing but white space after
    it.  Two units of fuel per character cover every recursive call. *)
Definition JSON_parse (text : string) : completion value :=
  match value_at (2 * String.length text + 2) text with
  | Parsed v rest =>
      match skip_space rest with
      | EmptyString => Normal v
      | String _ _ => SyntaxError "Unexpected non-whitespace character after JSON"
      end
  | Malformed | Rejected _ => SyntaxError "Unexpected token in JSON"
  | NotCovered what => unsupported what
  end.

(** *** Regular expressions *)

(** The regular fragment of the pattern language (no flags): literal
    characters, [.], character classes, escapes for classes and control
    characters, groups, alternation, the quantifiers, [^] and [$].
    Look-around, back-references, named groups, pattern modifiers, word
    boundaries and the [\c], [\x], [\u] escapes are not covered. *)
Inductive regex : Type :=
| Void
| Eps
| Sym (p : ascii -> bool)
| Cat (a b : regex)
| Alt (a b : regex)
| Star (a : regex)
| Bol
| Eol.

(** Does [r] match the empty string here, given whether the position is
    the start and whether it is the end of the input? *)
Fixpoint nullable (at_start at_end : bool) (r : regex) : bool :=
  match r with
  | Void => false
  | Eps => true
  | Sym _ => false
  | Cat a b => nullable at_start at_end a && nullable at_start at_end b
  | Alt a b => nullable at_start at_end a || nullable at_start at_end b
  | Star _ => true
  | Bol => at_start
  | Eol => at_end
  end.

Definition cat (a b : regex) : regex :=
  match a, b with
  | Void, _ => Void
  | _, Void => Void
  | Eps, _ => b
  | _, _ => Cat a b
  end.

Definition alt (a b : regex) : regex :=
  match a, b with
  | Void, _ => b
  | _, Void => a
  | _, _ => Alt a b
  end.

(** What remains to be matched after reading [c]. *)
Fixpoint derive (at_start : bool) (c : ascii) (r : regex) : regex :=
  match r with
  | Void | Eps | Bol | Eol => Void
  | Sym p => if p c then Eps else Void
  | Cat a b =>
      alt (cat (derive at_start c a) b)
          (if nullable at_start false a then derive at_start c b else Void)
  | Alt a b => alt (derive at_start c a) (derive at_start c b)
  | Star a => cat (derive at_start c a) (Star a)
  end.

(** [r] matches the whole of [s]. *)
Fixpoint matches (at_start : bool) (r : regex) (s : string) : bool :=
  match s with
  | EmptyString => nullable at_start true r
  | String c rest => matches false (derive at_start c r) rest
  end.

(** [regex.test(s)]: some substring of [s] matches. *)
Definition test (r : regex) (s : string) : bool :=
  let anything := Star (Sym (fun _ => true)) in
  matches true (Cat anything (Cat r anything)) s.

Definition in_range (lo hi : nat) (c : ascii) : bool :=
  ((lo <=? code c) && (code c <=? hi))%nat.

Definition is_char (x : ascii) (c : ascii) : bool := (x =? c)%char.

(** [.]: anything but a line terminator. *)
Definition dot (c : ascii) : bool :=
  negb ((code c =? 10) || (code c =? 13))%nat.

Definition word_char (c : ascii) : bool :=
  in_range 48 57 c || in_range 65 90 c || in_range 97 122 c || (code c =? 95)%nat.

(** What an escape sequence denotes. *)
Inductive escape : Type :=
| EscSet (p : ascii -> bool)
| EscChar (c : ascii)
| EscNotCovered.

(** [\e], outside and inside a character class alike, for the escapes
    that mean the same in both. *)
Definition escape_of (e : ascii) : escape :=
  if (e =? "d")%char then EscSet is_digit
  else if (e =? "D")%char then EscSet (fun c => negb (is_digit c))
  else if (e =? "w")%char then EscSet word_char
  else if (e =? "W")%char then EscSet (fun c => negb (word_char c))
  else if (e =? "s")%char then EscSet is_trim_space
  else if (e =? "S")%char then EscSet (fun c => negb (is_trim_space c))
  else if (e =? "t")%char then EscChar (ascii_of_nat 9)
  else if (e =? "n")%char then EscChar (ascii_of_nat 10)
  else if (e =? "v")%char then EscChar (ascii_of_nat 11)
  else if (e =? "f")%char then EscChar (ascii_of_nat 12)
  else if (e =? "r")%char then EscChar (ascii_of_nat 13)
  else if word_char e then EscNotCovered
  else EscChar e.

(** A valid braced quantifier at the start of [s]: lower bound, upper
    bound if any, rest. *)
Definition braced (s : string) : option (nat * option nat * string) :=
  match s with
  | String "{" r =>
      let '(lo, n, r1) := digits 0 0 r in
      if (n =? 0)%nat then None
      else
        match r1 with
        | String "}" r2 => Some (Z.to_nat lo, Some (Z.to_nat lo), r2)
        | String "," r2 =>
            let '(hi, n', r3) := digits 0 0 r2 in
            match r3 with
            | String "}" r4 =>
                Some (Z.to_nat lo,
                      if (n' =? 0)%nat then None else Some (Z.to_nat hi), r4)
            | _ => None
            end
        | _ => None
        end
  | _ => None
  end.

Fixpoint power (r : regex) (n : nat) : regex :=
  match n with
  | O => Eps
  | S n' => Cat r (power r n')
  end.

(** [r{lo,hi}] and [r{lo,}]. *)
Definition repeat (r : regex) (lo : nat) (hi : option nat) : regex :=
  match hi with
  | None => Cat (power r lo) (Star r)
  | Some h => Cat (power r lo) (power (Alt Eps r) (h - lo))
  end.

(** The reasons that the engine gives for refusing a pattern. *)
Definition nothing_to_repeat : string := "Nothing to repeat".
Definition quantifier_out_of_order : string :=
  "numbers out of order in {} quantifier".
Definition unterminated_class : string := "Unterminated character class".
Definition class_out_of_order : string := "Range out of order in character class".
Definition escape_at_end : string := "\ at end of pattern".
Definition unterminated_group : string := "Unterminated group".
Definition invalid_group : string := "Invalid group".
Definition unmatched_paren : string := "Unmatched ')'".

(** The quantifier, if any, that follows an atom; a lazy mark [?] after
    it changes the order of attempts, not what can be matched. *)
Definition quantified (atom : regex) (s : string) : parsed regex :=
  let lazy_mark (r : string) :=
    match r with
    | String "?" r' => r'
    | _ => r
    end in
  match s with
  | String "*" r => Parsed (Star atom) (lazy_mark r)
  | String "+" r => Parsed (Cat atom (Star atom)) (lazy_mark r)
  | String "?" r => Parsed (Alt Eps atom) (lazy_mark r)
  | _ =>
      match braced s with
      | Some (lo, hi, r) =>
          match hi with
          | Some h =>
              if (h <? lo)%nat then Rejected quantifier_out_of_order
              else Parsed (repeat atom lo hi) (lazy_mark r)
          | None => Parsed (repeat atom lo hi) (lazy_mark r)
          end
      | None => Parsed atom s
      end
  end.

(** An assertion cannot be quantified: what follows it starts the next
    term, and a quantifier there has nothing to repeat. *)
Definition unquantified (r : regex) (s : string) : parsed regex :=
  match quantified r s with
  | Parsed _ rest => if (String.length rest =? String.length s)%nat
                     then Parsed r s else Rejected nothing_to_repeat
  | Rejected _ => Rejected nothing_to_repeat
  | other => other
  end.

Definition union (p q : ascii -> bool) (c : ascii) : bool := p c || q c.

(** One member of a character class at the start of [s]. *)
Definition class_atom (s : string) : parsed escape :=
  match s with
  | EmptyString => Rejected unterminated_class
  | String "\" EmptyString => Rejected escape_at_end
  | String "\" (String e r) =>
      if (e =? "b")%char then Parsed (EscChar (ascii_of_nat 8)) r
      else
        match escape_of e with
        | EscNotCovered => NotCovered "escape in a character class"
        | known => Parsed known r
        end
  | String c r => Parsed (EscChar c) r
  end.

Definition escape_set (e : escape) : ascii -> bool :=
  match e with
  | EscSet p => p
  | EscChar c => is_char c
  | EscNotCovered => fun _ => false
  end.

(** The members of a class up to its closing bracket; [acc] is the set
    read so far. *)
Fixpoint class_items (fuel : nat) (acc : ascii -> bool) (s : string)
  : parsed (ascii -> bool) :=
  match fuel with
  | O => Rejected unterminated_class
  | S fuel' =>
      match s with
      | EmptyString => Rejected unterminated_class
      | String "]" r => Parsed acc r
      | _ =>
          match class_atom s with
          | Parsed first r =>
              match r with
              | String "-" (String "]" _) | String "-" EmptyString =>
                  class_items fuel' (union acc (escape_set first)) r
              | String "-" r1 =>
                  match class_atom r1 with
                  | Parsed last r2 =>
                      match first, last with
                      | EscChar lo, EscChar hi =>
                          if (code hi <? code lo)%nat
                          then Rejected class_out_of_order
                          else class_items fuel'
                                 (union acc (in_range (code lo) (code hi))) r2
                      | _, _ =>
                          class_items fuel'
                            (union acc
                               (union (escape_set first)
                                  (union (is_char "-") (escape_set last)))) r2
                      end
                  | Malformed => Malformed
                  | Rejected reason => Rejected reason
                  | NotCovered w => NotCovered w
                  end
              | _ => class_items fuel' (union acc (escape_set first)) r
              end
          | Malformed => Malformed
          | Rejected reason => Rejected reason
          | NotCovered w => NotCovered w
          end
      end
  end.

(** A character class after its opening bracket. *)
Definition class (s : string) : parsed regex :=
  let '(negated, body) :=
    match s with
    | String "^" r => (true, r)
    | _ => (false, s)
    end in
  match class_items (S (String.length body)) (fun _ => false) body with
  | Parsed p r => Parsed (Sym (if negated then fun c => negb (p c) else p)) r
  | Malformed => Malformed
  | Rejected reason => Rejected reason
  | NotCovered w => NotCovered w
  end.

Definition and_then (p : parsed regex) (k : regex -> string -> parsed regex)
  : parsed regex :=
  match p with
  | Parsed r rest => k r rest
  | other => other
  end.

(** The pattern grammar: a disjunction is a list of alternatives
    separated by [|], an alternative a sequence of terms, a term an
    assertion or a quantified atom. *)
Fixpoint disjunction (fuel : nat) (s : string) : parsed regex :=
  match fuel with
  | O => NotCovered "pattern nesting"
  | S fuel' =>
      and_then (alternative fuel' Eps s) (fun a rest =>
        match rest with
        | String "|" r =>
            and_then (disjunction fuel' r) (fun b rest' => Parsed (Alt a b) rest')
        | _ => Parsed a rest
        end)
  end

with alternative (fuel : nat) (acc : regex) (s : string) : parsed regex :=
  match fuel with
  | O => NotCovered "pattern nesting"
  | S fuel' =>
      match s with
      | EmptyString => Parsed acc s
      | String c _ =>
          if (c =? "|")%char || (c =? ")")%char then Parsed acc s
          else and_then (term fuel' s) (fun t rest =>
                 alternative fuel' (Cat acc t) rest)
      end
  end

with term (fuel : nat) (s : string) : parsed regex :=
  match fuel with
  | O => NotCovered "pattern nesting"
  | S fuel' =>
      match s with
      | EmptyString => NotCovered "empty term"
      | String c r =>
          if (c =? "^")%char then unquantified Bol r
          else if (c =? "$")%char then unquantified Eol r
          else if (c =? "(")%char then
            let group (inner : string) :=
              and_then (disjunction fuel' inner) (fun d rest =>
                match rest with
                | String ")" rest' => quantified d rest'
                | _ => Rejected unterminated_group
                end) in
            match r with
            | String "?" (String ":" r') => group r'
            | String "?" (String k _) =>
                if (k =? "=")%char || (k =? "!")%char || (k =? "<")%char
                then NotCovered "look-around or named group"
                else if (k =? "i")%char || (k =? "m")%char || (k =? "s")%char
                        || (k =? "-")%char
                then NotCovered "pattern modifiers"
                else Rejected invalid_group
            | String "?" EmptyString => Rejected invalid_group
            | _ => group r
            end
          else if (c =? "[")%char then and_then (class r) quantified
          else if (c =? "\")%char then
            match r with
            | EmptyString => Rejected escape_at_end
            | String e r' =>
                match escape_of e with
                | EscNotCovered => NotCovered "escape"
                | known => quantified (Sym (escape_set known)) r'
                end
            end
          else if (c =? ".")%char then quantified (Sym dot) r
          else if (c =? "*")%char || (c =? "+")%char || (c =? "?")%char
          then Rejected nothing_to_repeat
          else if (c =? "{")%char then
            match braced s with
            | Some _ => Rejected nothing_to_repeat
            | None => quantified (Sym (is_char c)) r
            end
          else quantified (Sym (is_char c)) r
      end
  end.

(** The message of the [SyntaxError] for a pattern that the engine
    refuses: the source as it was given, the flags, the reason. *)
Definition invalid_pattern (source flags reason : string) : string :=
  "Invalid regular expression: /" ++ source ++ "/" ++ flags ++ ": " ++ reason.

(** [new RegExp(source)].  The parser stops at a closing parenthesis
    that no group is open for. *)
Definition RegExp_compile (source : string) : completion (string -> bool) :=
  match disjunction (3 * String.length source + 3) source with
  | Parsed r EmptyString => Normal (test r)
  | Parsed _ (String _ _) =>
      SyntaxError (invalid_pattern source EmptyString unmatched_paren)
  | Rejected reason => SyntaxError (invalid_pattern source EmptyString reason)
  | Malformed => unsupported "a pattern refused without a reason"
  | NotCovered what => unsupported what
  end.

(** *** Conversions, property reads, engine errors *)

Definition Z_digits (z : Z) : string := NilZero.string_of_int (Z.to_int z).

Definition Number_toString (n : number) : completion string :=
  match n with
  | Decimal m e =>
      if (e =? 0)%Z && (Z.abs m <? 2 ^ 53)%Z then Normal (Z_digits m)
      else unsupported "Number to string beyond plain integer literals"
  | NaN => Normal "NaN"
  | Infinity negative => Normal (if negative then "-Infinity" else "Infinity")
  end.

(** [ToString]; an array is joined with commas, [undefined] and [null]
    elements giving the empty string. *)
Fixpoint ToString (v : value) : completion string :=
  match v with
  | VUndefined => Normal "undefined"
  | VNull => Normal "null"
  | VBool b => Normal (if b then "true" else "false")
  | VNum n => Number_toString n
  | VStr s => Normal s
  | VArr items =>
      (fix join (first : bool) (l : list value) : completion string :=
         match l with
         | [] => Normal EmptyString
         | x :: rest =>
             completion_bind
               (if is_nullish x then Normal EmptyString else ToString x)
               (fun sx =>
                  completion_bind (join false rest) (fun sr =>
                    Normal ((if first then EmptyString else ",")
                            ++ sx ++ sr)%string))
         end) true items
  | VObj props =>
      match own_prop props "toString", own_prop props "valueOf" with
      | None, None => Normal "[object Object]"
      | _, _ => unsupported "object with its own toString or valueOf"
      end
  | VNative name => Normal ("function " ++ name ++ "() { [native code] }")%string
  end.

(** The function objects that the built-in prototypes hold under string
    keys (ECMAScript 2024 with its annex for web browsers): each key
    with the [name] of the function found there. *)
Definition methods (names : list string) : list (string * string) :=
  map (fun k => (k, k)) names.

Definition Object_prototype : list (string * string) :=
  ("constructor", "Object")
  :: methods ["__defineGetter__"; "__defineSetter__"; "hasOwnProperty";
              "__lookupGetter__"; "__lookupSetter__"; "isPrototypeOf";
              "propertyIsEnumerable"; "toString"; "valueOf"; "toLocaleString"].

Definition Array_prototype : list (string * string) :=
  ("constructor", "Array")
  :: methods ["at"; "concat"; "copyWithin"; "fill"; "find"; "findIndex";
              "findLast"; "findLastIndex"; "lastIndexOf"; "pop"; "push";
              "reverse"; "shift"; "unshift"; "slice"; "sort"; "splice";
              "includes"; "indexOf"; "join"; "keys"; "entries"; "values";
              "forEach"; "filter"; "flat"; "flatMap"; "map"; "every"; "some";
              "reduce"; "reduceRight"; "toLocaleString"; "toString";
              "toReversed"; "toSorted"; "toSpliced"; "with"].

Definition String_prototype : list (string * string) :=
  ("constructor", "String") :: ("trimLeft", "trimStart") :: ("trimRight", "trimEnd")
  :: methods ["anchor"; "at"; "big"; "blink"; "bold"; "charAt"; "charCodeAt";
              "codePointAt"; "concat"; "endsWith"; "fontcolor"; "fontsize";
              "fixed"; "includes"; "indexOf"; "isWellFormed"; "italics";
              "lastIndexOf"; "link"; "localeCompare"; "match"; "matchAll";
              "normalize"; "padEnd"; "padStart"; "repeat"; "replace";
              "replaceAll"; "search"; "slice"; "small"; "split"; "strike";
              "sub"; "substr"; "substring"; "sup"; "startsWith"; "toString";
              "toWellFormed"; "trim"; "trimStart"; "trimEnd";
              "toLocaleLowerCase"; "toLocaleUpperCase"; "toLowerCase";
              "toUpperCase"; "valueOf"].

Definition Number_prototype : list (string * string) :=
  ("constructor", "Number")
  :: methods ["toExponential"; "toFixed"; "toPrecision"; "toString";
              "valueOf"; "toLocaleString"].

Definition Boolean_prototype : list (string * string) :=
  ("constructor", "Boolean") :: methods ["toString"; "valueOf"].

Definition Function_prototype : list (string * string) :=
  ("constructor", "Function") :: methods ["apply"; "bind"; "call"; "toString"].

(** The prototype chain of a value up to [Object.prototype]; the first
    binding of a key is the one that a read finds. *)
Definition prototype_chain (v : value) : list (string * string) :=
  (match v with
   | VArr _ => Array_prototype
   | VStr _ => String_prototype
   | VNum _ => Number_prototype
   | VBool _ => Boolean_prototype
   | VNative _ => Function_prototype
   | _ => []
   end ++ Object_prototype)%list.

(** [v.__proto__], the prototype itself.  [Object.prototype] reads like
    an empty object, [Array.prototype] like an empty array and
    [Function.prototype] is a function without a name.  The prototypes
    of strings, numbers and booleans are wrapper objects, which [value]
    does not have: they are shown as an empty object, which is truthy
    and without enumerable properties as they are, but is converted to
    a string differently. *)
Definition prototype_object (v : value) : value :=
  match v with
  | VArr _ => VArr []
  | VNative _ => VNative EmptyString
  | _ => VObj []
  end.

Definition inherited (v : value) (k : string) : value :=
  if k =? "__proto__" then prototype_object v
  else
    match Map_get k (prototype_chain v) with
    | Some name => VNative name
    | None => VUndefined
    end.

(** An array index in canonical form: decimal digits without a leading
    zero, or the single digit 0. *)
Definition array_index (k : string) : option nat :=
  match k with
  | EmptyString => None
  | String c rest =>
      let '(v, _, r) := digits 0 0 k in
      match r with
      | EmptyString =>
          if (c =? "0")%char && negb (String.length rest =? 0)%nat then None
          else Some (Z.to_nat v)
      | String _ _ => None
      end
  end.

(** Elements and [length] of arrays and strings and the [name] of a
    function object, then the prototype chain.  The values that the
    server reads properties of come from [JSON.parse] and are never
    function objects: of the own properties of a function object only
    its [name] is given, and the accessors [arguments] and [caller] of
    [Function.prototype], which throw, are left out. *)
Definition prop_other (v : value) (k : string) : value :=
  match v with
  | VArr items =>
      if k =? "length" then VNum (Decimal (Z.of_nat (List.length items)) 0)
      else
        match array_index k with
        | Some i => nth i items (inherited v k)
        | None => inherited v k
        end
  | VStr s =>
      if k =? "length" then VNum (Decimal (Z.of_nat (String.length s)) 0)
      else
        match array_index k with
        | Some i =>
            match String.get i s with
            | Some c => VStr (String c EmptyString)
            | None => inherited v k
            end
        | None => inherited v k
        end
  | VNative name => if k =? "name" then VStr name else inherited v k
  | _ => inherited v k
  end.

(** The messages of the V8 engine. *)
Definition TypeError_nullish (how : access) (k : string) (v : value) : thrown :=
  let shown := match v with VNull => "null" | _ => "undefined" end in
  match how with
  | Destructuring =>
      ErrorObj ("Cannot destructure property '" ++ k
                ++ "' of 'params' as it is " ++ shown ++ ".")
  | MemberRead =>
      ErrorObj ("Cannot read properties of " ++ shown
                ++ " (reading '" ++ k ++ "')")
  end.

(** The schema library throws an instance of [Error] whose message is
    the serialised list of issues. *)
Definition ZodError (input : value) : thrown :=
  ErrorObj "reference runtime: the issue list of the schema library is not reproduced".

#[global] Instance runtime : Runtime :=
  Build_Runtime JSON_parse RegExp_compile ToString prop_other
                TypeError_nullish ZodError.

End Ref.

(** Request bodies are written with apostrophes in place of double
    quotes; [json_text] puts the double quotes back. *)
Fixpoint json_text (s : string) : string :=
  match s with
  | EmptyString => EmptyString
  | String c rest =>
      String (if (c =? "'")%char then Ref.dquote else c) (json_text rest)
  end.

(* ================================================================== *)
(** ** What a message leaves behind *)
(* ================================================================== *)

(** The three components of the result of a method. *)
Definition outcome_of {A : Type} (out : A * MCPServer * list call) : A :=
  fst (fst out).
Definition server_after {A : Type} (out : A * MCPServer * list call) : MCPServer :=
  snd (fst out).
Definition calls_of {A : Type} (out : A * MCPServer * list call) : list call :=
  snd out.

(** The error envelope on the wire: the fixed code [-32603], a [null]
    id, status 500. *)
Definition error_envelope (message : string) : Response :=
  {| resp_body :=
       JSON_stringify
         (VObj [("jsonrpc", VStr "2.0");
                ("id", VNull);
                ("error", VObj [("code", VNum (Decimal (-32603) 0));
                                ("message", VStr message)])]);
     resp_status := 500;
     resp_headers := [("Content-Type", "application/json");
                      ("Access-Control-Allow-Origin", "*")] |}.

(** The success envelope on the wire. *)
Definition success_envelope (id result : value) : Response :=
  {| resp_body :=
       JSON_stringify
         (VObj [("jsonrpc", VStr "2.0"); ("id", id); ("result", result)]);
     resp_status := 200;
     resp_headers := [("Content-Type", "application/json");
                      ("Access-Control-Allow-Origin", "*")] |}.

(** The reply without a body. *)
Definition no_content : Response :=
  {| resp_body := NullBody; resp_status := 204; resp_headers := [] |}.

(** Everything of the server but the log level is the same in [s] and
    [s']. *)
Record same_registries (s s' : MCPServer) : Prop := {
  same_tools : tools s' = tools s;
  same_toolHandlers : toolHandlers s' = toolHandlers s;
  same_resources : resources s' = resources s;
  same_resourceHandlers : resourceHandlers s' = resourceHandlers s;
  same_resourceTemplates : resourceTemplates s' = resourceTemplates s;
  same_prompts : prompts s' = prompts s;
  same_promptHandlers : promptHandlers s' = promptHandlers s;
  same_samplingHandler : samplingHandler s' = samplingHandler s;
  same_serverInfo : serverInfo s' = serverInfo s;
  same_capabilities : capabilities s' = capabilities s
}.

(** A method that never changes the server object. *)
Definition preserves {A : Type} (m : M A) : Prop :=
  forall s, server_after (m s) = s.

(** A method that changes at most the log level. *)
Definition frames {A : Type} (m : M A) : Prop :=
  forall s, same_registries s (server_after (m s)).

(** A method that awaits no handler. *)
Definition no_call {A : Type} (m : M A) : Prop :=
  forall s, calls_of (m s) = [].

(** A method that awaits at most one handler, and throws what that
    handler throws. *)
Definition at_most_one_call {A : Type} (m : M A) : Prop :=
  forall s,
    calls_of (m s) = []
    \/ exists h arg,
         calls_of (m s) = [Invoked h arg]
         /\ forall t, h arg = Throw t -> outcome_of (m s) = Throw t.

(** The wrapping of the content in a one-element [contents] array. *)
Definition contents_of (c : completion value) : completion value :=
  match c with
  | Normal content => Normal (VObj [("contents", VArr [content])])
  | Throw t => Throw t
  end.

(** The method names of the table in [processJsonRpcMethod]. *)
Definition method_table : list string :=
  ["initialize"; "notifications/initialized"; "tools/list"; "tools/call";
   "resources/list"; "resources/templates/list"; "resources/read";
   "prompts/list"; "prompts/get"; "sampling/createMessage";
   "logging/setLevel"].

Definition known_method (method : string) : bool :=
  existsb (String.eqb method) method_table.

(* ================================================================== *)
(** ** Failing messages *)
(* ================================================================== *)

Section Failures.
Context {RT : Runtime}.

(** [arg] is flagged required and [args?.[arg.name]] is falsy. *)
Definition is_missing (args : value) (arg : MCPPromptArgument) : Prop :=
  arg_required arg = Some true
  /\ truthy (optional_get args (arg_name arg)) = false.

(** [failure s body t]: on server [s] the message [body] fails, and [t]
    is what is thrown inside the [try] block.  One constructor for each
    way of failing: the envelope does not decode; the method is not in
    the table; the action or the prompt is not registered; the URI or a
    required prompt argument is missing; no sampling handler is
    configured; a handler that was invoked threw; or the routine of the
    method threw for any other reason. *)
Inductive failure (s : MCPServer) (body : string) : thrown -> Prop :=
| Malformed_envelope t :
    decode body = Throw t ->
    failure s body t
| Unknown_method request :
    decode body = Normal request ->
    known_method (req_method request) = false ->
    failure s body (ErrorObj ("Unknown method: " ++ req_method request))
| Unknown_action request name :
    decode body = Normal request ->
    req_method request = "tools/call" ->
    is_nullish (req_params request) = false ->
    get_prop (req_params request) "name" = VStr name ->
    Map_get name (toolHandlers s) = None ->
    failure s body (ErrorObj ("Unknown tool: " ++ name))
| Unknown_prompt request name :
    decode body = Normal request ->
    req_method request = "prompts/get" ->
    is_nullish (req_params request) = false ->
    get_prop (req_params request) "name" = VStr name ->
    Map_get name (prompts s) = None ->
    failure s body (ErrorObj ("Unknown prompt: " ++ name))
| Missing_URI request :
    decode body = Normal request ->
    req_method request = "resources/read" ->
    is_nullish (req_params request) = false ->
    truthy (get_prop (req_params request) "uri") = false ->
    failure s body (ErrorObj "URI is required for resource read")
| Missing_argument request name prompt h arguments t :
    decode body = Normal request ->
    req_method request = "prompts/get" ->
    is_nullish (req_params request) = false ->
    get_prop (req_params request) "name" = VStr name ->
    Map_get name (prompts s) = Some prompt ->
    Map_get name (promptHandlers s) = Some h ->
    prompt_arguments prompt = Some arguments ->
    check_required (get_prop (req_params request) "arguments") arguments = Throw t ->
    failure s body t
| Sampling_unconfigured request :
    decode body = Normal request ->
    req_method request = "sampling/createMessage" ->
    samplingHandler s = None ->
    failure s body (ErrorObj "Sampling handler not configured")
| Handler_threw request h arg t :
    decode body = Normal request ->
    In (Invoked h arg) (calls_of (processJsonRpcMethod request s)) ->
    h arg = Throw t ->
    failure s body t
| Routine_threw request t :
    decode body = Normal request ->
    outcome_of (processJsonRpcMethod request s) = Throw t ->
    failure s body t.

End Failures.

(* ================================================================== *)
(** ** The shape of an envelope *)
(* ================================================================== *)

Section Shapes.
Context {RT : Runtime}.

(** What [JsonRpcRequestSchema] accepts, said directly: a plain object
    whose [jsonrpc] is the string [2.0], whose [id] is absent, [null], a
    string or a finite number, and whose [method] is a string. *)
Definition identifier_ok (id : value) : Prop :=
  id = VUndefined \/ id = VNull \/ (exists s, id = VStr s)
  \/ (exists n, id = VNum n /\ number_is_finite n = true).

Definition required_shape (v : value) : Prop :=
  (exists props, v = VObj props)
  /\ get_prop v "jsonrpc" = VStr "2.0"
  /\ identifier_ok (get_prop v "id")
  /\ (exists m, get_prop v "method" = VStr m).

(** The required shape in the words of the specification: the protocol
    version tag is a fixed literal, the identifier is a string, a number,
    null or absent, the method name is a non-empty string, params are
    unconstrained. *)
Definition spec_identifier_ok (id : value) : Prop :=
  id = VUndefined \/ id = VNull \/ (exists s, id = VStr s)
  \/ (exists n, id = VNum n).

Definition spec_required_shape (v : value) : Prop :=
  (exists props, v = VObj props)
  /\ get_prop v "jsonrpc" = VStr "2.0"
  /\ spec_identifier_ok (get_prop v "id")
  /\ (exists m, get_prop v "method" = VStr m /\ m <> EmptyString).

(** Empty, or nothing but white space and line terminators. *)
Fixpoint whitespace_only (s : string) : bool :=
  match s with
  | EmptyString => true
  | String c rest => is_trim_space c && whitespace_only rest
  end.

(** When decoding fails, for a given required [shape]: the body is
    empty or whitespace-only, or does not parse, or parses to a value
    that does not have the shape. *)
Definition decoding_fails (shape : value -> Prop) (body : string) : Prop :=
  whitespace_only body = true
  \/ (exists t, JSON_parse body = Throw t)
  \/ (exists v, JSON_parse body = Normal v /\ ~ shape v).

End Shapes.

(* ================================================================== *)
(** ** Placeholders, in the words of the specification *)
(* ================================================================== *)

(** Does character [c] occur in [s]? *)
Fixpoint occurs (c : ascii) (s : string) : bool :=
  match s with
  | EmptyString => false
  | String x rest => (x =? c)%char || occurs c rest
  end.

(** The pattern that the specification puts in place of a placeholder:
    non-greedy, one or more characters other than a slash. *)
Definition spec_placeholder_pattern : string := "([^/]+?)".

(** The replacement of every placeholder in the words of the
    specification; it differs from [replace_from] in the pattern only. *)
Fixpoint spec_replace_from (fuel : nat) (s : string) : string :=
  match fuel with
  | O => s
  | S fuel' =>
      match match_placeholder s with
      | Some rest => spec_placeholder_pattern ++ spec_replace_from fuel' rest
      | None =>
          match s with
          | EmptyString => EmptyString
          | String c rest => String c (spec_replace_from fuel' rest)
          end
      end
  end.

Definition spec_replace_placeholders (template : string) : string :=
  spec_replace_from (String.length template) template.

(* ================================================================== *)
(** ** What patterns and templates mean *)
(* ================================================================== *)

Definition is_empty (s : string) : bool :=
  match s with
  | EmptyString => true
  | String _ _ => false
  end.

(** [matching r first s last]: the regular expression [r] matches
    exactly the piece [s] of the input, where [first] tells whether the
    piece starts at the start of the input and [last] whether it ends at
    its end (the two facts that [^] and [$] ask for). *)
Inductive matching : Ref.regex -> bool -> string -> bool -> Prop :=
| matching_eps first last :
    matching Ref.Eps first EmptyString last
| matching_sym p c first last :
    p c = true ->
    matching (Ref.Sym p) first (String c EmptyString) last
| matching_cat a b first last s1 s2 :
    matching a first s1 (last && is_empty s2) ->
    matching b (first && is_empty s1) s2 last ->
    matching (Ref.Cat a b) first (s1 ++ s2) last
| matching_alt_left a b first last s :
    matching a first s last ->
    matching (Ref.Alt a b) first s last
| matching_alt_right a b first last s :
    matching b first s last ->
    matching (Ref.Alt a b) first s last
| matching_star_done a first last :
    matching (Ref.Star a) first EmptyString last
| matching_star_more a first last c s1 s2 :
    matching a first (String c s1) (last && is_empty s2) ->
    matching (Ref.Star a) false s2 last ->
    matching (Ref.Star a) first (String c s1 ++ s2) last
| matching_bol last :
    matching Ref.Bol true EmptyString last
| matching_eol first :
    matching Ref.Eol first EmptyString true.

(** A template, piece by piece: a literal character or a placeholder
    with its name. *)
Inductive piece : Type :=
| Literal (c : ascii)
| Placeholder (name : string).

(** The template string. *)
Fixpoint template_text (pieces : list piece) : string :=
  match pieces with
  | [] => EmptyString
  | Literal c :: rest => String c (template_text rest)
  | Placeholder name :: rest =>
      String "{" (name ++ String "}" (template_text rest))
  end.

(** The characters with a meaning of their own in a pattern. *)
Definition pattern_syntax : string := "^$\.*+?()[]{}|".

(** A template whose literal characters mean themselves in a pattern
    and whose placeholder names are not empty and hold no closing
    brace. *)
Definition plain_piece (p : piece) : Prop :=
  match p with
  | Literal c => occurs c pattern_syntax = false
  | Placeholder name => name <> EmptyString /\ occurs "}" name = false
  end.

(** [fills pieces uri]: the URI is the template with each placeholder
    filled by one or more characters other than a slash. *)
Inductive fills : list piece -> string -> Prop :=
| fills_end : fills [] EmptyString
| fills_literal c rest s :
    fills rest s ->
    fills (Literal c :: rest) (String c s)
| fills_placeholder name rest c segment s :
    occurs "/" (String c segment) = false ->
    fills rest s ->
    fills (Placeholder name :: rest) (String c segment ++ s).

(** The pattern that [replace_placeholders] makes of a template. *)
Fixpoint pattern_text (pieces : list piece) : string :=
  match pieces with
  | [] => EmptyString
  | Literal c :: rest => String c (pattern_text rest)
  | Placeholder _ :: rest => "([^/]+)" ++ pattern_text rest
  end.

(** The class [[^/]] as the reference parser reads it. *)
Definition not_slash (c : ascii) : bool :=
  negb (Ref.union (fun _ => false) (Ref.is_char "/") c).

(** The group [([^/]+)] as the reference parser reads it. *)
Definition segment_group : Ref.regex :=
  Ref.Cat Ref.Eps
    (Ref.Cat (Ref.Sym not_slash) (Ref.Star (Ref.Sym not_slash))).

(** The terms of a pattern, appended to what was read before. *)
Fixpoint pieces_regex (acc : Ref.regex) (pieces : list piece) : Ref.regex :=
  match pieces with
  | [] => acc
  | Literal c :: rest =>
      pieces_regex (Ref.Cat acc (Ref.Sym (Ref.is_char c))) rest
  | Placeholder _ :: rest => pieces_regex (Ref.Cat acc segment_group) rest
  end.

(** The anchored pattern of a template as the reference parser reads
    it. *)
Definition anchored_regex (pieces : list piece) : Ref.regex :=
  Ref.Cat (pieces_regex (Ref.Cat Ref.Eps Ref.Bol) pieces) Ref.Eol.

(** Does [s] start with a character that opens a quantifier? *)
Definition quantifier_ahead (s : string) : bool :=
  match s with
  | String c _ => (c =? "*")%char || (c =? "+")%char || (c =? "?")%char
                  || (c =? "{")%char
  | EmptyString => false
  end.

(* ================================================================== *)
(** ** Sample registrations *)
(* ================================================================== *)

(** Descriptors, handlers and servers on which the results below are
    instantiated.  A sample handler answers with its own tag and the
    argument it was called with. *)
Module Sample.

Definition info : MCPServerInfo :=
  {| info_name := "test-server"; info_version := "1.0.0" |}.

Definition server : MCPServer := new_MCPServer info None.

Definition tagged (tag : string) : handler :=
  fun arg => Normal (VObj [("handledBy", VStr tag); ("input", arg)]).

Definition tool (description : string) : MCPTool :=
  {| tool_name := "echo";
     tool_description := description;
     tool_inputSchema :=
       VObj [("type", VStr "object");
             ("properties", VObj [("message", VObj [("type", VStr "string")])]);
             ("required", VArr [VStr "message"])] |}.

Definition resource (uri name : string) : MCPResource :=
  {| res_uri := uri; res_name := name;
     res_description := None; res_mimeType := None |}.

Definition template (uriTemplate name : string) : MCPResourceTemplate :=
  {| tmpl_uriTemplate := uriTemplate; tmpl_name := name;
     tmpl_description := None; tmpl_mimeType := None |}.

Definition prompt (arguments : list MCPPromptArgument) : MCPPrompt :=
  {| prompt_name := "code-review";
     prompt_description := Some "Review code for issues";
     prompt_arguments := Some arguments |}.

Definition required_argument (name : string) : MCPPromptArgument :=
  {| arg_name := name; arg_description := None; arg_required := Some true |}.

End Sample.

(* ================================================================== *)
(** ** The servers of the test suite *)
(* ================================================================== *)

(** The fixtures of [__tests__/server.test.ts]; a mock made with
    [mockResolvedValue(v)] is the handler that always yields [v]. *)
Module Fixture.

Definition capabilities : MCPCapabilities :=
  {| cap_tools := Some None; cap_resources := Some (None, None);
     cap_prompts := Some None; cap_sampling := Some tt; cap_logging := None |}.

Definition server : MCPServer :=
  new_MCPServer Sample.info (Some capabilities).

Definition resolves (v : value) : handler := fun _ => Normal v.

Definition test_tool : MCPTool :=
  {| tool_name := "test-tool"; tool_description := "Test tool";
     tool_inputSchema := VObj [("type", VStr "object"); ("properties", VObj [])] |}.

Definition test_resource : MCPResource :=
  {| res_uri := "test://resource"; res_name := "Test Resource";
     res_description := Some "A test resource";
     res_mimeType := Some "text/plain" |}.

Definition test_template : MCPResourceTemplate :=
  {| tmpl_uriTemplate := "test://{id}"; tmpl_name := "Test Template";
     tmpl_description := Some "A test template";
     tmpl_mimeType := Some "application/json" |}.

Definition success : value := VObj [("result", VStr "success")].

Definition content : value :=
  VObj [("uri", VStr "test://resource"); ("mimeType", VStr "text/plain");
        ("text", VStr "test content")].

(** The handler of the end-to-end example of the specification: it
    answers [Echo: ] followed by [args.message]. *)
Definition echo : handler :=
  fun args =>
    match args with
    | VObj props =>
        match own_prop props "message" with
        | Some (VStr message) =>
            Normal (VObj [("content",
                           VArr [VObj [("type", VStr "text");
                                       ("text", VStr ("Echo: " ++ message))]])])
        | _ => Throw (ErrorObj "message is required")
        end
    | _ => Throw (ErrorObj "message is required")
    end.

(** The entry point on the reference runtime. *)
Definition run (body : string) (s : MCPServer)
  : Response * MCPServer * list call :=
  handleJsonRpcRequest (RT := Ref.runtime) body s.

End Fixture.

(* ================================================================== *)
(** ** The HTTP side ([handleRequest]) *)
(* ================================================================== *)

(** What [new URL(request.url)] gives.  [request.url] is the
    serialisation of the URL the request was made for, so parsing it
    cannot fail; of the parsed URL only what the server reads is kept:
    the path and the list of query parameters. *)
Record URL : Type := {
  url_pathname : string;
  url_searchParams : list (string * string)
}.

(** A [Request]: its method, its URL and the text that
    [await request.text()] yields. *)
Record Request : Type := {
  request_method : string;
  request_url : URL;
  request_text : string
}.

(** [url.searchParams.has(name)]. *)
Definition searchParams_has (name : string) (url : URL) : bool :=
  existsb (fun p => fst p =? name) (url_searchParams url).

(** A [ReadableStream] by what its source does: the chunks that [start]
    enqueues, and whether anything ever closes the stream. *)
Record ReadableStream : Type := {
  stream_chunks : list string;
  stream_closed : bool
}.

(** The first argument of [new Response(body, init)] on the HTTP side:
    what the JSON-RPC side passes, a plain text, or a stream. *)
Inductive HttpBody : Type :=
| Body (b : BodyInit)
| TextBody (text : string)
| StreamBody (stream : ReadableStream).

Record HttpResponse : Type := {
  http_body : HttpBody;
  http_status : Z;
  http_headers : list (string * string)
}.

(** A response of the JSON-RPC side, as [handleRequest] hands it on. *)
Definition of_Response (r : Response) : HttpResponse :=
  {| http_body := Body (resp_body r);
     http_status := resp_status r;
     http_headers := resp_headers r |}.

Definition LF : string := String (ascii_of_nat 10) EmptyString.

Definition createCorsResponse : HttpResponse :=
  {| http_body := Body NullBody;
     http_status := 204;
     http_headers :=
       [("Access-Control-Allow-Origin", "*");
        ("Access-Control-Allow-Methods", "GET, POST, OPTIONS");
        ("Access-Control-Allow-Headers", "Content-Type")] |}.

(** The stream enqueues one event when it starts; its [cancel] does
    nothing and nothing calls [controller.close()]. *)
Definition createSSEResponse : HttpResponse :=
  let stream :=
    {| stream_chunks := [json_text "data: {'type':'connected'}" ++ LF ++ LF];
       stream_closed := false |} in
  {| http_body := StreamBody stream;
     http_status := 200;
     http_headers :=
       [("Content-Type", "text/event-stream");
        ("Cache-Control", "no-cache");
        ("Connection", "keep-alive");
        ("Access-Control-Allow-Origin", "*")] |}.

(** [JSON.stringify] throws a [TypeError] on a [BigInt] and on an object
    that contains itself.  The schema of a tool descriptor is typed
    [any] and may hold either; [value] has no constructor for them, so
    a listing stands for the objects it was built from, and whether
    serialising it throws is left to the runtime.  This matters where
    the call is outside any [try], in [handleGetRequest]; on the
    JSON-RPC side the call is inside the [try] and what it serialises is
    taken to be serialisable. *)
Class Serializer : Type := {
  (** What [JSON.stringify(v)] throws, when it throws. *)
  JSON_stringify_throws : value -> option thrown
}.

(** The runtime in which descriptors hold nothing but what [value]
    shows: every serialisation completes. *)
Definition plain_values : Serializer :=
  {| JSON_stringify_throws := fun _ => None |}.

Section Transport.
Context {RT : Runtime} {SZ : Serializer}.
Local Open Scope js_scope.

(** [JSON.stringify(v)] where no [try] encloses the call. *)
Definition stringify (v : value) : completion BodyInit :=
  match JSON_stringify_throws v with
  | Some error => Throw error
  | None => Normal (JSON_stringify v)
  end.

(** [handleGetRequest] serialises the tool listing outside any [try]:
    what the serialisation throws, [handleGetRequest] throws. *)
Definition handleGetRequest (request : Request) : M HttpResponse :=
  let url := request_url request in
  if url_pathname url =? "/tools/list" then
    this <- this_server ;;
    body <- lift (stringify
                    (VObj [("tools",
                            VArr (map MCPTool_object (Map_values (tools this))))])) ;;
    ret {| http_body := Body body;
           http_status := 200;
           http_headers := [("Content-Type", "application/json");
                            ("Access-Control-Allow-Origin", "*")] |}
  else if searchParams_has "sessionId" url then ret createSSEResponse
  else ret {| http_body := TextBody "Not found";
              http_status := 404;
              http_headers := [] |}.

(** [handleRequest], an [async] method: the promise it returns settles
    with a response, or rejects with what [handleGetRequest] threw. *)
Definition handleRequest (request : Request) : M HttpResponse :=
  if request_method request =? "OPTIONS" then ret createCorsResponse
  else if request_method request =? "GET" then handleGetRequest request
  else if request_method request =? "POST" then
    fun this =>
      match handleJsonRpcRequest (request_text request) this with
      | (response, this', calls) => (Normal (of_Response response), this', calls)
      end
  else ret {| http_body := TextBody "Method not allowed";
              http_status := 405;
              http_headers := [] |}.

End Transport.

(* ================================================================== *)
(** ** Building tools and resources ([tool.ts], [resource.ts]) *)
(* ================================================================== *)

(** The builders return an object with two properties, the descriptor
    and the handler; it is kept as a pair. *)



Definition createResource (resource : MCPResource) (handler : MCPResourceHandler)
  : MCPResource * MCPResourceHandler :=
  (resource, handler).

Definition createResourceTemplate (template : MCPResourceTemplate)
  (handler : MCPResourceHandler) : MCPResourceTemplate * MCPResourceHandler :=
  (template, handler).

(** The [options] of the resource builders; [{}] is their default. *)
Record ResourceOptions : Type := {
  option_description : option string;
  option_mimeType : option string
}.

Definition no_resource_options : ResourceOptions :=
  {| option_description := None; option_mimeType := None |}.

(** [a || b] for an optional string [a]: absent and empty are falsy. *)
Definition string_or (a : option string) (b : string) : string :=
  match a with
  | Some s => if truthy (VStr s) then s else b
  | None => b
  end.

Definition createTextResource (uri name text : string) (options : ResourceOptions)
  : MCPResource * MCPResourceHandler :=
  let mimeType := string_or (option_mimeType options) "text/plain" in
  let resource :=
    {| res_uri := uri;
       res_name := name;
       res_description := option_description options;
       res_mimeType := Some mimeType |} in
  let handler : MCPResourceHandler :=
    fun _ => Normal (VObj [("uri", VStr uri);
                           ("mimeType", VStr mimeType);
                           ("text", VStr text)]) in
  (resource, handler).

(** [data] is the base64 text of the bytes. *)
Definition createBinaryResource (uri name data : string) (options : ResourceOptions)
  : MCPResource * MCPResourceHandler :=
  let mimeType := string_or (option_mimeType options) "application/octet-stream" in
  let resource :=
    {| res_uri := uri;
       res_name := name;
       res_description := option_description options;
       res_mimeType := Some mimeType |} in
  let handler : MCPResourceHandler :=
    fun _ => Normal (VObj [("uri", VStr uri);
                           ("mimeType", VStr mimeType);
                           ("blob", VStr data)]) in
  (resource, handler).

(** [s.split(sep)] for a separator of one character: never empty. *)
Fixpoint String_split (sep : ascii) (s : string) : list string :=
  match s with
  | EmptyString => [EmptyString]
  | String c rest =>
      if (c =? sep)%char then EmptyString :: String_split sep rest
      else
        match String_split sep rest with
        | segment :: segments => String c segment :: segments
        | [] => [String c EmptyString]
        end
  end.

(** [array.pop()]: the last element, [undefined] on an empty array. *)
Fixpoint Array_pop {A : Type} (l : list A) : option A :=
  match l with
  | [] => None
  | [x] => Some x
  | _ :: rest => Array_pop rest
  end.

(** Lower case of a code unit below 256: the letters A to Z, and the
    accented capitals from 192 to 222 except the multiplication sign. *)
Definition lower (c : ascii) : ascii :=
  let n := nat_of_ascii c in
  if ((65 <=? n) && (n <=? 90)
      || (192 <=? n) && (n <=? 222) && negb (n =? 215))%nat
  then ascii_of_nat (n + 32)
  else c.

(** [String.prototype.toLowerCase]. *)
Fixpoint toLowerCase (s : string) : string :=
  match s with
  | EmptyString => EmptyString
  | String c rest => String (lower c) (toLowerCase rest)
  end.

(** The table of [detectMimeType], an object literal. *)
Definition mimeTypes : list (string * value) :=
  [("html", VStr "text/html");
   ("css", VStr "text/css");
   ("js", VStr "application/javascript");
   ("json", VStr "application/json");
   ("xml", VStr "application/xml");
   ("png", VStr "image/png");
   ("jpg", VStr "image/jpeg");
   ("jpeg", VStr "image/jpeg");
   ("pdf", VStr "application/pdf");
   ("txt", VStr "text/plain")].

(** The descriptor that [createFileResource] builds.  The source types
    it as an [MCPResource], but its [mimeType] is whatever
    [options.mimeType || detectMimeType(filePath)] evaluates to, and
    that is not a string for every path. *)
Record FileDescriptor : Type := {
  descriptor_uri : string;
  descriptor_name : string;
  descriptor_description : option string;
  descriptor_mimeType : value
}.

(** [try { body } catch (error) { handler }]. *)
Definition try_catch {A : Type} (body : completion A)
  (handler : thrown -> completion A) : completion A :=
  match body with
  | Normal a => Normal a
  | Throw error => handler error
  end.

Section Files.
Context {RT : Runtime}.

(** The table is read with [mimeTypes[key]], a property read like any
    other: a key that the table does not hold is looked up further along
    the prototype chain, so the result need not be a string. *)
Definition detectMimeType (filePath : string) : value :=
  let extension := option_map toLowerCase (Array_pop (String_split "." filePath)) in
  let found := get_prop (VObj mimeTypes) (string_or extension EmptyString) in
  if truthy found then found else VStr "application/octet-stream".

(** [options.mimeType || detectMimeType(filePath)]. *)
Definition file_mimeType (filePath : string) (options : ResourceOptions) : value :=
  match option_mimeType options with
  | Some m => if truthy (VStr m) then VStr m else detectMimeType filePath
  | None => detectMimeType filePath
  end.

(** Reading is a placeholder in the source: the handler throws inside a
    [try] whose [catch] throws the error that the caller sees. *)
Definition file_handler (filePath : string) : MCPResourceHandler :=
  fun _ =>
    try_catch
      (Throw (ErrorObj "File reading not implemented in this environment"))
      (fun error => Throw (ErrorObj ("Failed to read file: " ++ filePath))).

(** [createFileResource] returns a descriptor and the handler for every
    path and every options. *)
Definition createFileResource (uri name filePath : string) (options : ResourceOptions)
  : FileDescriptor * MCPResourceHandler :=
  ({| descriptor_uri := uri;
      descriptor_name := name;
      descriptor_description := option_description options;
      descriptor_mimeType := file_mimeType filePath options |},
   file_handler filePath).

End Files.

(** The descriptor as an [MCPResource] of [types.ts], which it is when
    its [mimeType] is a string. *)
Definition as_MCPResource (descriptor : FileDescriptor) : option MCPResource :=
  match descriptor_mimeType descriptor with
  | VStr mimeType =>
      Some {| res_uri := descriptor_uri descriptor;
              res_name := descriptor_name descriptor;
              res_description := descriptor_description descriptor;
              res_mimeType := Some mimeType |}
  | _ => None
  end.

(* ================================================================== *)
(** ** Building sampling requests ([sampling.ts]) *)
(* ================================================================== *)

Definition createSamplingHandler (handler : MCPSamplingHandler) : MCPSamplingHandler :=
  handler.

(** The [options] of the request builders in one record; [{}] is their
    default.  [focusAreas] is read by the code review builder only and
    [style] by the summarisation builder only. *)
Record SamplingOptions : Type := {
  option_focusAreas : option (list string);
  option_style : option string;
  option_systemPrompt : option string;
  option_temperature : option number;
  option_maxTokens : option number;
  option_modelPreferences : option value;
  option_includeContext : option string
}.

Definition no_sampling_options : SamplingOptions :=
  {| option_focusAreas := None; option_style := None;
     option_systemPrompt := None; option_temperature := None;
     option_maxTokens := None; option_modelPreferences := None;
     option_includeContext := None |}.

(** The value of an optional property: [undefined] when it is absent. *)
Definition or_undefined {A : Type} (f : A -> value) (o : option A) : value :=
  match o with
  | Some a => f a
  | None => VUndefined
  end.

(** [a || b]. *)
Definition value_or (a b : value) : value :=
  if truthy a then a else b.

(** An [MCPSamplingMessage] with a text content. *)
Definition text_message (role text : string) : value :=
  VObj [("role", VStr role);
        ("content", VObj [("type", VStr "text"); ("text", VStr text)])].

(** [areas.join(separator)]. *)
Fixpoint Array_join (separator : string) (areas : list string) : string :=
  match areas with
  | [] => EmptyString
  | [a] => a
  | a :: rest => a ++ separator ++ Array_join separator rest
  end.

Definition createSimpleSamplingRequest (userMessage : string)
  (options : SamplingOptions) : value :=
  let messages := VArr [text_message "user" userMessage] in
  VObj [("messages", messages);
        ("systemPrompt", or_undefined VStr (option_systemPrompt options));
        ("temperature", or_undefined VNum (option_temperature options));
        ("maxTokens", or_undefined VNum (option_maxTokens options));
        ("modelPreferences", or_undefined id (option_modelPreferences options));
        ("includeContext", VStr (string_or (option_includeContext options) "none"))].

Definition createConversationSamplingRequest (conversation : list value)
  (options : SamplingOptions) : value :=
  VObj [("messages", VArr conversation);
        ("systemPrompt", or_undefined VStr (option_systemPrompt options));
        ("temperature", or_undefined VNum (option_temperature options));
        ("maxTokens", or_undefined VNum (option_maxTokens options));
        ("modelPreferences", or_undefined id (option_modelPreferences options));
        ("includeContext",
         VStr (string_or (option_includeContext options) "thisSession"))].

Definition createAnalysisSamplingRequest (analysisPrompt : string)
  (contextData : option string) (options : SamplingOptions) : value :=
  let systemMessage :=
    text_message "system"
      "You are an analytical expert. Provide thorough and insightful analysis." in
  let userMessage :=
    text_message "user"
      (match contextData with
       | Some data =>
           if truthy (VStr data)
           then analysisPrompt ++ LF ++ LF ++ "Context data:" ++ LF ++ data
           else analysisPrompt
       | None => analysisPrompt
       end) in
  VObj [("messages", VArr [systemMessage; userMessage]);
        ("systemPrompt", or_undefined VStr (option_systemPrompt options));
        ("temperature",
         value_or (or_undefined VNum (option_temperature options))
                  (VNum (Decimal 3 (-1))));
        ("maxTokens",
         value_or (or_undefined VNum (option_maxTokens options))
                  (VNum (Decimal 2000 0)));
        ("modelPreferences", or_undefined id (option_modelPreferences options));
        ("includeContext", VStr (string_or (option_includeContext options) "none"))].

Definition createCodeReviewSamplingRequest (code : string)
  (language : option string) (options : SamplingOptions) : value :=
  let systemMessage :=
    text_message "system"
      "You are a code review expert. Provide constructive feedback on code quality, security, performance, and maintainability." in
  let reviewPrompt :=
    "Please review this " ++ string_or language "code"
    ++ " for best practices, potential bugs, and improvements:" in
  let reviewPrompt :=
    match option_focusAreas options with
    | Some areas =>
        if (0 <? List.length areas)%nat
        then reviewPrompt ++ LF ++ LF ++ "Focus areas: " ++ Array_join ", " areas
        else reviewPrompt
    | None => reviewPrompt
    end in
  let reviewPrompt :=
    reviewPrompt ++ LF ++ LF ++ "```" ++ string_or language EmptyString ++ LF
    ++ code ++ LF ++ "```" in
  let userMessage := text_message "user" reviewPrompt in
  VObj [("messages", VArr [systemMessage; userMessage]);
        ("systemPrompt", or_undefined VStr (option_systemPrompt options));
        ("temperature",
         value_or (or_undefined VNum (option_temperature options))
                  (VNum (Decimal 2 (-1))));
        ("maxTokens", or_undefined VNum (option_maxTokens options));
        ("modelPreferences", or_undefined id (option_modelPreferences options));
        ("includeContext", VStr (string_or (option_includeContext options) "none"))].

Section Summaries.
Context {RT : Runtime}.

(** The number [maxLength] goes into the prompt through a template
    literal, that is, through [ToString]. *)
Definition createSummarizationSamplingRequest (content : string)
  (maxLength : option number) (options : SamplingOptions) : completion value :=
  let systemMessage :=
    text_message "system"
      "You are a summarization expert. Create concise, accurate summaries that capture the key points." in
  let style := string_or (option_style options) "paragraph" in
  let prompt := "Please summarize the following content" in
  completion_bind
    (match maxLength with
     | Some n =>
         if truthy (VNum n)
         then completion_bind (ToString (VNum n)) (fun shown =>
                Normal (prompt ++ " in " ++ shown ++ " words or less"))
         else Normal prompt
     | None => Normal prompt
     end)
    (fun prompt =>
       let prompt :=
         if style =? "bullet-points" then prompt ++ " using bullet points"
         else if style =? "executive-summary" then prompt ++ " as an executive summary"
         else prompt ++ " in paragraph form" in
       let prompt := prompt ++ ":" ++ LF ++ LF ++ content in
       let userMessage := text_message "user" prompt in
       Normal
         (VObj [("messages", VArr [systemMessage; userMessage]);
                ("systemPrompt", or_undefined VStr (option_systemPrompt options));
                ("temperature",
                 value_or (or_undefined VNum (option_temperature options))
                          (VNum (Decimal 4 (-1))));
                ("maxTokens",
                 value_or (or_undefined VNum (option_maxTokens options))
                          (VNum (Decimal 1000 0)));
                ("modelPreferences",
                 or_undefined id (option_modelPreferences options));
                ("includeContext",
                 VStr (string_or (option_includeContext options) "none"))])).

End Summaries.

(* ================================================================== *)
(** ** Building prompts ([prompt.ts]) *)
(* ================================================================== *)

Definition createPrompt (prompt : MCPPrompt) (handler : MCPPromptHandler)
  : MCPPrompt * MCPPromptHandler :=
  (prompt, handler).

(** The [options] of the prompt builders; [{}] is their default.
    [role] is read by [createSimplePrompt] only. *)
Record PromptOptions : Type := {
  option_arguments : option (list MCPPromptArgument);
  option_role : option string
}.

Definition no_prompt_options : PromptOptions :=
  {| option_arguments := None; option_role := None |}.

(** [MCPPromptMessage] of [types.ts]. *)
Record MCPPromptMessage : Type := {
  message_role : string;
  message_type : string;
  message_text : option string;
  message_data : option string;
  message_mimeType : option string
}.

(** *** [Object.entries] *)

(** The number that a key denotes when it is an array index: decimal
    digits in canonical form with a value below [2^32 - 1]. *)
Definition index_of_key (k : string) : option Z :=
  match k with
  | EmptyString => None
  | String c rest =>
      let '(v, _, r) := Ref.digits 0 0 k in
      match r with
      | EmptyString =>
          if (c =? "0")%char && negb (String.length rest =? 0)%nat then None
          else if (v <? 2 ^ 32 - 1)%Z then Some v
          else None
      | String _ _ => None
      end
  end.

(** The first binding of each key, in the order of the list. *)
Fixpoint first_bindings (seen : list string) (props : list (string * value))
  : list (string * value) :=
  match props with
  | [] => []
  | (k, v) :: rest =>
      if existsb (String.eqb k) seen then first_bindings seen rest
      else (k, v) :: first_bindings (k :: seen) rest
  end.

(** Insertion of an indexed property into a list sorted by index. *)
Fixpoint insert_indexed (i : Z) (kv : string * value)
  (sorted : list (Z * (string * value))) : list (Z * (string * value)) :=
  match sorted with
  | [] => [(i, kv)]
  | (j, kv') :: rest =>
      if (i <? j)%Z then (i, kv) :: sorted
      else (j, kv') :: insert_indexed i kv rest
  end.

(** The properties whose keys are array indices, in ascending order. *)
Fixpoint indexed_props (props : list (string * value))
  : list (Z * (string * value)) :=
  match props with
  | [] => []
  | (k, v) :: rest =>
      match index_of_key k with
      | Some i => insert_indexed i (k, v) (indexed_props rest)
      | None => indexed_props rest
      end
  end.

(** The properties whose keys are not array indices, in creation
    order. *)
Definition named_props (props : list (string * value)) : list (string * value) :=
  filter (fun kv => match index_of_key (fst kv) with
                    | Some _ => false
                    | None => true
                    end) props.

(** The elements of an array with their indices as keys, from [i]. *)
Fixpoint indexed_from (i : nat) (items : list value) : list (string * value) :=
  match items with
  | [] => []
  | x :: rest => (Ref.Z_digits (Z.of_nat i), x) :: indexed_from (S i) rest
  end.

Fixpoint characters (s : string) : list value :=
  match s with
  | EmptyString => []
  | String c rest => VStr (String c EmptyString) :: characters rest
  end.

(** [Object.entries(v)] for [v] other than [undefined] and [null]: the
    own enumerable properties with string keys, array indices first in
    ascending order, then the other keys in creation order.  Numbers,
    booleans and built-in functions have none. *)
Definition Object_entries (v : value) : list (string * value) :=
  match v with
  | VObj props =>
      let own := first_bindings [] props in
      (map snd (indexed_props own) ++ named_props own)%list
  | VArr items => indexed_from 0 items
  | VStr s => indexed_from 0 (characters s)
  | _ => []
  end.

(** *** Replacing every match of a pattern *)

(** [text.replace(/[.*+?^${}()|[\]\\]/g, '\\$&')]: a backslash goes in
    front of each of the fourteen characters of the class. *)
Definition escaped_class : string := ".*+?^${}()|[]\".

Fixpoint escape_pattern (text : string) : string :=
  match text with
  | EmptyString => EmptyString
  | String c rest =>
      if occurs c escaped_class then String "\" (String c (escape_pattern rest))
      else String c (escape_pattern rest)
  end.

(** A pattern that is a sequence of single characters, each given by
    the set it has to belong to. *)
Fixpoint sequence_of (r : Ref.regex) : option (list (ascii -> bool)) :=
  match r with
  | Ref.Eps => Some []
  | Ref.Sym p => Some [p]
  | Ref.Cat a b =>
      match sequence_of a, sequence_of b with
      | Some x, Some y => Some (x ++ y)%list
      | _, _ => None
      end
  | _ => None
  end.

(** [new RegExp(source, 'g')], for use in [replace]: the reference
    parser reads the pattern; replacement is carried out for patterns
    that are a non-empty sequence of single characters, where a match at
    a position is unique. *)
Definition RegExp_global (source : string) : completion (list (ascii -> bool)) :=
  match Ref.disjunction (3 * String.length source + 3) source with
  | Ref.Parsed r EmptyString =>
      match sequence_of r with
      | Some (p :: ps) => Normal (p :: ps)
      | Some [] => Ref.unsupported "replacement of the empty pattern"
      | None => Ref.unsupported "replacement of a pattern that is not a sequence of characters"
      end
  | Ref.Parsed _ (String _ _) =>
      Ref.SyntaxError (Ref.invalid_pattern source "g" Ref.unmatched_paren)
  | Ref.Rejected reason => Ref.SyntaxError (Ref.invalid_pattern source "g" reason)
  | Ref.Malformed => Ref.unsupported "a pattern refused without a reason"
  | Ref.NotCovered what => Ref.unsupported what
  end.

(** A match of the sequence at the start of [s]: what was matched and
    what follows. *)
Fixpoint match_sequence (ps : list (ascii -> bool)) (s : string)
  : option (string * string) :=
  match ps with
  | [] => Some (EmptyString, s)
  | p :: ps' =>
      match s with
      | String c rest =>
          if p c then
            match match_sequence ps' rest with
            | Some (matched, after) => Some (String c matched, after)
            | None => None
            end
          else None
      | EmptyString => None
      end
  end.

(** [GetSubstitution] for a pattern without groups: in the replacement
    text [$$] stands for a dollar sign, [$&] for the match, [$`] for the
    input before the match and [$'] for the input after it; any other
    dollar sign stands for itself. *)
Fixpoint GetSubstitution (matched before after template : string) : string :=
  match template with
  | EmptyString => EmptyString
  | String d tail =>
      if (d =? "$")%char then
        match tail with
        | String c rest =>
            if (c =? "$")%char then
              "$" ++ GetSubstitution matched before after rest
            else if (c =? "&")%char then
              matched ++ GetSubstitution matched before after rest
            else if (c =? "`")%char then
              before ++ GetSubstitution matched before after rest
            else if (c =? "'")%char then
              after ++ GetSubstitution matched before after rest
            else String d (GetSubstitution matched before after tail)
        | EmptyString => String d EmptyString
        end
      else String d (GetSubstitution matched before after tail)
  end.

(** The loop of the global replacement: leftmost match first, scanning
    resumes after each match; [before] is the input already passed.
    A match is not empty, so [fuel] equal to the length of the input is
    enough. *)
Fixpoint replace_matches (fuel : nat) (regex : list (ascii -> bool))
  (replacement before s : string) : string :=
  match fuel with
  | O => s
  | S fuel' =>
      match match_sequence regex s with
      | Some (matched, after) =>
          GetSubstitution matched before after replacement
          ++ replace_matches fuel' regex replacement (before ++ matched) after
      | None =>
          match s with
          | EmptyString => EmptyString
          | String c rest =>
              String c (replace_matches fuel' regex replacement
                          (before ++ String c EmptyString) rest)
          end
      end
  end.

(** [subject.replace(regex, replacement)] for a global [regex]. *)
Definition String_replace (subject : string) (regex : list (ascii -> bool))
  (replacement : string) : string :=
  replace_matches (String.length subject) regex replacement EmptyString subject.

Section Prompts.
Context {RT : Runtime}.

(** The loop [for (const [key, value] of Object.entries(args))] of the
    three handlers, started with [content]. *)
Fixpoint fill_placeholders (entries : list (string * value)) (content : string)
  : completion string :=
  match entries with
  | [] => Normal content
  | (key, value) :: rest =>
      let placeholder := "{{" ++ key ++ "}}" in
      match value with
      | VUndefined => fill_placeholders rest content
      | _ =>
          completion_bind (RegExp_global (escape_pattern placeholder)) (fun regex =>
          completion_bind (ToString value) (fun replacement =>
          fill_placeholders rest (String_replace content regex replacement)))
      end
  end.

(** [if (args) { for ... }]. *)
Definition process_content (args : value) (content : string) : completion string :=
  if truthy args then fill_placeholders (Object_entries args) content
  else Normal content.

Definition createSimplePrompt (name description messageContent : string)
  (options : PromptOptions) : MCPPrompt * MCPPromptHandler :=
  let prompt :=
    {| prompt_name := name;
       prompt_description := Some description;
       prompt_arguments := option_arguments options |} in
  let handler : MCPPromptHandler :=
    fun args =>
      completion_bind (process_content args messageContent) (fun processedContent =>
      let message :=
        VObj [("role", VStr (string_or (option_role options) "user"));
              ("content", VObj [("type", VStr "text");
                                ("text", VStr processedContent)])] in
      Normal (VObj [("description", VStr description);
                    ("messages", VArr [message])])) in
  (prompt, handler).

(** [steps.map(step => ...)]: the steps are processed in order, and a
    step that throws ends the whole. *)
Fixpoint map_steps (args : value) (steps : list MCPPromptMessage)
  : completion (list value) :=
  match steps with
  | [] => Normal []
  | step :: rest =>
      completion_bind
        (process_content args (string_or (message_text step) EmptyString))
        (fun processedContent =>
      completion_bind (map_steps args rest) (fun messages =>
      Normal (VObj [("role", VStr (message_role step));
                    ("content", VObj [("type", VStr "text");
                                      ("text", VStr processedContent)])]
              :: messages)))
  end.

Definition createMultiStepPrompt (name description : string)
  (steps : list MCPPromptMessage) (options : PromptOptions)
  : MCPPrompt * MCPPromptHandler :=
  let prompt :=
    {| prompt_name := name;
       prompt_description := Some description;
       prompt_arguments := option_arguments options |} in
  let handler : MCPPromptHandler :=
    fun args =>
      completion_bind (map_steps args steps) (fun messages =>
      Normal (VObj [("description", VStr description);
                    ("messages", VArr messages)])) in
  (prompt, handler).

Definition defaultArguments : list MCPPromptArgument :=
  [{| arg_name := "data"; arg_description := Some "Data to analyze";
      arg_required := Some true |};
   {| arg_name := "analysis_type";
      arg_description := Some "Type of analysis to perform";
      arg_required := Some false |};
   {| arg_name := "format"; arg_description := Some "Output format";
      arg_required := Some false |}].

Definition createAnalysisPrompt (name description analysisInstructions : string)
  (options : PromptOptions) : MCPPrompt * MCPPromptHandler :=
  let prompt :=
    {| prompt_name := name;
       prompt_description := Some description;
       prompt_arguments :=
         Some (match option_arguments options with
               | Some arguments => arguments
               | None => defaultArguments
               end) |} in
  let handler : MCPPromptHandler :=
    fun args =>
      completion_bind (process_content args analysisInstructions) (fun instructions =>
      let systemMessage :=
        VObj [("role", VStr "system");
              ("content",
               VObj [("type", VStr "text");
                     ("text", VStr "You are an analytical expert. Provide thorough and insightful analysis.")])] in
      if is_nullish args then Throw (TypeError_nullish MemberRead "data" args)
      else
        completion_bind
          (ToString (value_or (get_prop args "data") (VStr "the provided data")))
          (fun data =>
        let userMessage :=
          VObj [("role", VStr "user");
                ("content", VObj [("type", VStr "text");
                                  ("text", VStr ("Please analyze: " ++ data))])] in
        Normal (VObj [("description", VStr description);
                      ("messages", VArr [systemMessage; userMessage])]))) in
  (prompt, handler).

End Prompts.

(* ================================================================== *)
(** ** What was registered, in order *)
(* ================================================================== *)






(** The methods that take their parameters apart with a destructuring
    pattern, each with the first property of its pattern. *)
Definition destructuring_methods : list (string * string) :=
  [("tools/call", "name");
   ("resources/read", "uri");
   ("prompts/get", "name");
   ("logging/setLevel", "level")].

(** Do two registration calls write the same slot of the server? *)
Definition same_slot (r1 r2 : registration) : bool :=
  match r1, r2 with
  | RegTool t1 _, RegTool t2 _ => tool_name t1 =? tool_name t2
  | RegResource x1 _, RegResource x2 _ => res_uri x1 =? res_uri x2
  | RegResourceTemplate t1 _, RegResourceTemplate t2 _ =>
      tmpl_uriTemplate t1 =? tmpl_uriTemplate t2
  | RegPrompt p1 _, RegPrompt p2 _ => prompt_name p1 =? prompt_name p2
  | RegSampling _, RegSampling _ => true
  | RegLogLevel _, RegLogLevel _ => true
  | _, _ => false
  end.

(** A method whose result and awaited handlers do not depend on the
    log level. *)
Definition level_blind {A : Type} (m : M A) : Prop :=
  forall s level,
    outcome_of (m (setLogLevel level s)) = outcome_of (m s)
    /\ calls_of (m (setLogLevel level s)) = calls_of (m s).

(** A handler that the server holds: a value of one of the three
    handler maps, or the sampling handler. *)
Definition registered (h : handler) (s : MCPServer) : Prop :=
  In h (Map_values (toolHandlers s))
  \/ In h (Map_values (resourceHandlers s))
  \/ In h (Map_values (promptHandlers s))
  \/ samplingHandler s = Some h.

(** A method that awaits nothing, or one registered handler once. *)
Definition awaits_registered {A : Type} (m : M A) : Prop :=
  forall s,
    calls_of (m s) = []
    \/ exists h arg, calls_of (m s) = [Invoked h arg] /\ registered h s.

(* ================================================================== *)
(** ** Contents with placeholders *)
(* ================================================================== *)

(** The pattern that matches exactly the characters of [text], appended
    to what was read before, as the reference parser builds it. *)
Fixpoint literal_regex (acc : Ref.regex) (text : string) : Ref.regex :=
  match text with
  | EmptyString => acc
  | String c rest => literal_regex (Ref.Cat acc (Ref.Sym (Ref.is_char c))) rest
  end.

(** A content made of [segments], each followed by [mark], and of a
    [last] segment. *)
Fixpoint marked (mark : string) (segments : list string) (last : string) : string :=
  match segments with
  | [] => last
  | segment :: rest => segment ++ mark ++ marked mark rest last
  end.

(** The message that the handlers of [prompt.ts] build from a role and
    a text. *)
Definition prompt_message (role text : string) : value :=
  VObj [("role", VStr role);
        ("content", VObj [("type", VStr "text"); ("text", VStr text)])].

(* ================================================================== *)
(** ** Facts about [Map] *)
(* ================================================================== *)

Section MapFacts.
Context {V : Type}.
Implicit Types (m : Map V) (k : string) (v : V).

Lemma Map_get_set_same k v m : Map_get k (Map_set k v m) = Some v.
Proof.
  induction m as [|[k' v'] rest IH]; simpl.
  - now rewrite String.eqb_refl.
  - destruct (k' =? k) eqn:E; simpl; rewrite E; auto.
Qed.

Lemma Map_get_set_other k k' v m :
  k <> k' -> Map_get k' (Map_set k v m) = Map_get k' m.
Proof.
  intros Hne.
  induction m as [|[k0 v0] rest IH]; simpl.
  - destruct (k =? k') eqn:E; auto.
    apply String.eqb_eq in E. contradiction.
  - destruct (k0 =? k) eqn:E; simpl.
    + apply String.eqb_eq in E. subst k0.
      destruct (k =? k') eqn:E'; auto.
      apply String.eqb_eq in E'. contradiction.
    + now rewrite IH.
Qed.

Lemma Map_get_None k m : Map_get k m = None <-> ~ In k (Map_keys m).
Proof.
  induction m as [|[k' v'] rest IH]; simpl.
  - tauto.
  - destruct (k' =? k) eqn:E.
    + apply String.eqb_eq in E. split; [discriminate | tauto].
    + apply String.eqb_neq in E. rewrite IH. tauto.
Qed.

Lemma Map_get_In k v m : Map_get k m = Some v -> In (k, v) m.
Proof.
  induction m as [|[k' v'] rest IH]; simpl; [discriminate|].
  destruct (k' =? k) eqn:E.
  - apply String.eqb_eq in E. intros [= ->]. left. now subst.
  - auto.
Qed.

Lemma Map_keys_set_in k v m :
  In k (Map_keys m) -> Map_keys (Map_set k v m) = Map_keys m.
Proof.
  induction m as [|[k' v'] rest IH]; simpl; [tauto|].
  intros Hin. destruct (k' =? k) eqn:E; simpl; auto.
  apply String.eqb_neq in E.
  destruct Hin as [->|Hin]; [contradiction|].
  now rewrite IH.
Qed.

Lemma Map_keys_set_fresh k v m :
  ~ In k (Map_keys m) -> Map_keys (Map_set k v m) = (Map_keys m ++ [k])%list.
Proof.
  induction m as [|[k' v'] rest IH]; simpl; auto.
  intros Hnin. destruct (k' =? k) eqn:E; simpl.
  - apply String.eqb_eq in E. tauto.
  - rewrite IH; tauto.
Qed.

Lemma Map_set_wf k v m : Map_wf m -> Map_wf (Map_set k v m).
Proof.
  unfold Map_wf. intros Hwf.
  destruct (in_dec string_dec k (Map_keys m)) as [Hin|Hnin].
  - now rewrite Map_keys_set_in.
  - rewrite Map_keys_set_fresh by assumption.
    apply NoDup_app; [assumption | repeat constructor; simpl; tauto |].
    intros x Hx [<-|[]]. contradiction.
Qed.

Lemma Map_set_In k v m k0 v0 :
  In (k0, v0) (Map_set k v m) -> (k0 = k /\ v0 = v) \/ In (k0, v0) m.
Proof.
  induction m as [|[k' v'] rest IH]; simpl.
  - intros [[= <- <-]|[]]. auto.
  - destruct (k' =? k) eqn:E; simpl.
    + apply String.eqb_eq in E. subst k'.
      intros [[= <- <-]|Hin]; auto.
    + intros [Heq|Hin]; auto.
      destruct (IH Hin); auto.
Qed.

Lemma Map_set_keyed (key : V -> string) k v m :
  key v = k -> keyed_by key m -> keyed_by key (Map_set k v m).
Proof.
  intros Hk Hm k0 v0 Hin.
  destruct (Map_set_In _ _ _ _ _ Hin) as [[-> ->]|Hin']; auto.
Qed.


End MapFacts.

(* ================================================================== *)
(** ** Registration *)
(* ================================================================== *)

Lemma new_MCPServer_wf info caps : server_wf (new_MCPServer info caps).
Proof.
  constructor; simpl; try (apply NoDup_nil); intros k v [].
Qed.

Lemma register_wf s r : server_wf s -> server_wf (register s r).
Proof.
  intros [].
  destruct r; constructor; simpl; auto using @Map_set_wf;
    apply Map_set_keyed; auto.
Qed.

Lemma register_all_wf rs : forall s, server_wf s -> server_wf (register_all s rs).
Proof.
  unfold register_all.
  induction rs as [|r rs IH]; simpl; intros s Hs; auto using register_wf.
Qed.

Create HintDb server.
#[local] Hint Resolve new_MCPServer_wf register_wf register_all_wf : server.



(* ================================================================== *)
(** ** The server object across a message *)
(* ================================================================== *)

Section Frame.
Context {RT : Runtime}.

Lemma same_registries_refl s : same_registries s s.
Proof. constructor; reflexivity. Qed.

Lemma same_registries_setLogLevel level s : same_registries s (setLogLevel level s).
Proof. constructor; reflexivity. Qed.

Lemma preserves_frames {A} (m : M A) : preserves m -> frames m.
Proof. intros H s. rewrite H. apply same_registries_refl. Qed.

Lemma preserves_ret {A} (a : A) : preserves (ret a).
Proof. intros s. reflexivity. Qed.

Lemma preserves_throw {A} t : preserves (@throw A t).
Proof. intros s. reflexivity. Qed.

Lemma preserves_throw_Error {A} msg : preserves (@throw_Error A msg).
Proof. intros s. reflexivity. Qed.

Lemma preserves_lift {A} (c : completion A) : preserves (lift c).
Proof. intros s. reflexivity. Qed.

Lemma preserves_this_server : preserves this_server.
Proof. intros s. reflexivity. Qed.

Lemma preserves_await_call h arg : preserves (await_call h arg).
Proof. intros s. reflexivity. Qed.

Lemma preserves_object_coercible how k v : preserves (object_coercible how k v).
Proof. intros s. unfold object_coercible. now destruct (is_nullish v). Qed.

Lemma preserves_bind {A B} (m : M A) (f : A -> M B) :
  preserves m -> (forall a, preserves (f a)) -> preserves (bind m f).
Proof.
  intros Hm Hf s. unfold bind, server_after.
  specialize (Hm s). unfold server_after in Hm.
  destruct (m s) as [[[a|t] s1] c1]; simpl in *; subst s1; auto.
  specialize (Hf a s). unfold server_after in Hf.
  destruct (f a s) as [[r s2] c2]; simpl in *. assumption.
Qed.

End Frame.

#[local] Hint Resolve preserves_ret preserves_throw preserves_throw_Error
  preserves_lift preserves_this_server preserves_await_call
  preserves_object_coercible : server.

(** Decompose a method built from [bind] and case analysis into its
    primitive steps. *)
Ltac preserves_steps :=
  repeat first
    [ apply preserves_bind; [|intro]
    | progress auto with server
    | match goal with
      | |- preserves (match ?x with _ => _ end) => destruct x
      | |- preserves (if ?b then _ else _) => destruct b
      | |- preserves (let _ := _ in _) => cbv zeta
      end ].

Section FrameRoutines.
Context {RT : Runtime}.

Lemma preserves_handleInitialize params : preserves (handleInitialize params).
Proof. unfold handleInitialize. preserves_steps. Qed.

Lemma preserves_handleToolCall params : preserves (handleToolCall params).
Proof. unfold handleToolCall. preserves_steps. Qed.

Lemma preserves_handleResourcesList : preserves handleResourcesList.
Proof. unfold handleResourcesList. preserves_steps. Qed.

Lemma preserves_handleResourceTemplatesList : preserves handleResourceTemplatesList.
Proof. unfold handleResourceTemplatesList. preserves_steps. Qed.

Lemma preserves_handleResourceRead params : preserves (handleResourceRead params).
Proof. unfold handleResourceRead. preserves_steps. Qed.

Lemma preserves_handlePromptsList : preserves handlePromptsList.
Proof. unfold handlePromptsList. preserves_steps. Qed.

Lemma preserves_handlePromptGet params : preserves (handlePromptGet params).
Proof. unfold handlePromptGet. preserves_steps. Qed.

Lemma preserves_handleSampling params : preserves (handleSampling params).
Proof. unfold handleSampling. preserves_steps. Qed.

End FrameRoutines.

(* ================================================================== *)
(** ** The entry point, case by case *)
(* ================================================================== *)

Section EntryPoint.
Context {RT : Runtime}.

Lemma createErrorResponse_envelope error :
  createErrorResponse error VNull = error_envelope (error_message error).
Proof. reflexivity. Qed.

(** A body that does not decode: the [catch] answers, nothing else
    happens. *)
Lemma handleJsonRpcRequest_undecoded body s t :
  decode body = Throw t ->
  handleJsonRpcRequest body s = (error_envelope (error_message t), s, []).
Proof.
  intros Hd. unfold handleJsonRpcRequest, handleJsonRpcRequest_try, bind, lift.
  now rewrite Hd.
Qed.

(** A body that decodes: the reply is fixed by how the routine of the
    method completes. *)
Lemma handleJsonRpcRequest_decoded body s request :
  decode body = Normal request ->
  handleJsonRpcRequest body s =
    match processJsonRpcMethod request s with
    | (Normal result, s', calls) =>
        (if is_null result then no_content
         else success_envelope (nullish_coalesce (req_id request) VNull) result,
         s', calls)
    | (Throw t, s', calls) => (error_envelope (error_message t), s', calls)
    end.
Proof.
  intros Hd. unfold handleJsonRpcRequest, handleJsonRpcRequest_try, bind, lift.
  rewrite Hd.
  destruct (processJsonRpcMethod request s) as [[[result|t] s'] calls]; simpl.
  - destruct (is_null result); simpl; now rewrite app_nil_r.
  - reflexivity.
Qed.

Lemma handleSetLogLevel_server params s :
  server_after (handleSetLogLevel params s) = s
  \/ server_after (handleSetLogLevel params s)
     = setLogLevel (get_prop params "level") s.
Proof.
  unfold handleSetLogLevel, object_coercible, bind, server_after.
  destruct (is_nullish params); simpl; auto.
  destruct (truthy (get_prop params "level")); simpl; auto.
Qed.

Lemma frames_handleSetLogLevel params : frames (handleSetLogLevel params).
Proof.
  intros s. destruct (handleSetLogLevel_server params s) as [-> | ->].
  - apply same_registries_refl.
  - apply same_registries_setLogLevel.
Qed.

(** Outside [logging/setLevel] the table never touches the server. *)
Lemma processJsonRpcMethod_preserves request :
  req_method request <> "logging/setLevel" ->
  preserves (processJsonRpcMethod request).
Proof.
  intros Hm. unfold processJsonRpcMethod.
  repeat match goal with
         | |- preserves (if ?b then _ else _) => destruct b eqn:?
         end;
    auto using preserves_handleInitialize, preserves_handleToolCall,
      preserves_handleResourcesList, preserves_handleResourceTemplatesList,
      preserves_handleResourceRead, preserves_handlePromptsList,
      preserves_handlePromptGet, preserves_handleSampling with server.
  all: try solve [preserves_steps].
  match goal with H : (_ =? "logging/setLevel") = true |- _ =>
    apply String.eqb_eq in H; contradiction end.
Qed.

Lemma frames_processJsonRpcMethod request : frames (processJsonRpcMethod request).
Proof.
  destruct (string_dec (req_method request) "logging/setLevel") as [E|N].
  - intros s. unfold processJsonRpcMethod. rewrite E. simpl.
    apply frames_handleSetLogLevel.
  - now apply preserves_frames, processJsonRpcMethod_preserves.
Qed.

(** The server after a message is the server after the routine of its
    method, and the server itself when the body does not decode. *)
Lemma handleJsonRpcRequest_server body s :
  server_after (handleJsonRpcRequest body s) =
    match decode body with
    | Normal request => server_after (processJsonRpcMethod request s)
    | Throw _ => s
    end.
Proof.
  destruct (decode body) as [request|t] eqn:Hd.
  - rewrite (handleJsonRpcRequest_decoded _ _ _ Hd).
    unfold server_after.
    now destruct (processJsonRpcMethod request s) as [[[result|t] s'] calls].
  - now rewrite (handleJsonRpcRequest_undecoded _ _ _ Hd).
Qed.

End EntryPoint.

Section ToolCall.
Context {RT : Runtime}.

(** [tools/call] with a name that is not a key of the handler map. *)
Lemma handleToolCall_unknown params s :
  is_nullish params = false ->
  Map_get_value (get_prop params "name") (toolHandlers s) = None ->
  handleToolCall params s =
    (match ToString (get_prop params "name") with
     | Normal shown => Throw (ErrorObj ("Unknown tool: " ++ shown))
     | Throw t => Throw t
     end, s, []).
Proof.
  intros Hp Hn. unfold handleToolCall, object_coercible, bind, this_server.
  rewrite Hp. simpl. rewrite Hn. unfold lift, throw_Error, throw.
  now destruct (ToString (get_prop params "name")).
Qed.


End ToolCall.

(** C9. Processing one message changes nothing of the server but,
    possibly, the log level: the four registries with their handler
    maps, the sampling slot, the identity and the capabilities are the
    same afterwards; the log level differs afterwards only if the
    message decodes to method [logging/setLevel]; and [tools/call] with
    a name that is not registered is answered by the error envelope with
    the fixed code, without any handler being invoked and with the
    server exactly as it was.  Handlers are functions of their argument,
    as their interfaces in [types.ts] say. *)
Theorem message_leaves_registries {RT : Runtime} (body : string) (s : MCPServer) :
  let out := handleJsonRpcRequest body s in
  same_registries s (server_after out)
  /\ (logLevel (server_after out) <> logLevel s ->
      exists request,
        decode body = Normal request /\ req_method request = "logging/setLevel")
  /\ (forall request,
        decode body = Normal request ->
        req_method request = "tools/call" ->
        is_nullish (req_params request) = false ->
        Map_get_value (get_prop (req_params request) "name") (toolHandlers s) = None ->
        (exists message,
           outcome_of out = error_envelope message
           /\ forall name, get_prop (req_params request) "name" = VStr name ->
                           message = "Unknown tool: " ++ name)
        /\ server_after out = s
        /\ calls_of out = []).
Proof.
  intros out. subst out. repeat split.
  1-10: rewrite handleJsonRpcRequest_server;
        destruct (decode body) as [request|t]; try reflexivity;
        apply (frames_processJsonRpcMethod request s).
  - intros Hlog. rewrite handleJsonRpcRequest_server in Hlog.
    destruct (decode body) as [request|t]; [|congruence].
    exists request. split; [reflexivity|].
    destruct (string_dec (req_method request) "logging/setLevel") as [E|N]; auto.
    rewrite (processJsonRpcMethod_preserves request N s) in Hlog. congruence.
  - rewrite (handleJsonRpcRequest_decoded _ _ _ H).
    unfold processJsonRpcMethod. rewrite H0. simpl.
    rewrite (handleToolCall_unknown _ _ H1 H2).
    destruct (ToString (get_prop (req_params request) "name")) as [shown|t] eqn:E.
    + exists ("Unknown tool: " ++ shown). split; [reflexivity|].
      intros name Hname. rewrite Hname in E. simpl in E.
      injection E as <-. reflexivity.
    + exists (error_message t). split; [reflexivity|].
      intros name Hname. rewrite Hname in E. simpl in E. discriminate.
  - rewrite (handleJsonRpcRequest_decoded _ _ _ H).
    unfold processJsonRpcMethod. rewrite H0. simpl.
    rewrite (handleToolCall_unknown _ _ H1 H2).
    now destruct (ToString (get_prop (req_params request) "name")).
  - rewrite (handleJsonRpcRequest_decoded _ _ _ H).
    unfold processJsonRpcMethod. rewrite H0. simpl.
    rewrite (handleToolCall_unknown _ _ H1 H2).
    now destruct (ToString (get_prop (req_params request) "name")).
Qed.

Lemma message_leaves_registries_witness :
  let body :=
    json_text "{'jsonrpc':'2.0','id':1,'method':'tools/call','params':{'name':'missing'}}" in
  let s := addTool (Sample.tool "Echo") (Sample.tagged "echo") Sample.server in
  let request :=
    {| req_jsonrpc := "2.0"; req_id := VNum (Decimal 1 0);
       req_method := "tools/call";
       req_params := VObj [("name", VStr "missing")] |} in
  decode (RT := Ref.runtime) body = Normal request
  /\ outcome_of (handleJsonRpcRequest (RT := Ref.runtime) body s)
     = error_envelope "Unknown tool: missing"
  /\ server_after (handleJsonRpcRequest (RT := Ref.runtime) body s) = s.
Proof.
  intros body s request.
  assert (Hd : decode (RT := Ref.runtime) body = Normal request) by reflexivity.
  destruct (message_leaves_registries (RT := Ref.runtime) body s) as (_ & _ & H).
  destruct (H request Hd eq_refl eq_refl eq_refl) as ((message & Hout & Hmsg) & Hs & _).
  split; [exact Hd|]. split; [|exact Hs].
  rewrite Hout. f_equal. apply Hmsg. reflexivity.
Defined.

(* ================================================================== *)
(** ** The routines, case by case *)
(* ================================================================== *)

Section Calls.
Context {RT : Runtime}.

Lemma no_call_ret {A} (a : A) : no_call (ret a).
Proof. intros s. reflexivity. Qed.

Lemma no_call_throw {A} t : no_call (@throw A t).
Proof. intros s. reflexivity. Qed.

Lemma no_call_throw_Error {A} msg : no_call (@throw_Error A msg).
Proof. intros s. reflexivity. Qed.

Lemma no_call_lift {A} (c : completion A) : no_call (lift c).
Proof. intros s. reflexivity. Qed.

Lemma no_call_this_server : no_call this_server.
Proof. intros s. reflexivity. Qed.

Lemma no_call_this_setLogLevel level : no_call (this_setLogLevel level).
Proof. intros s. reflexivity. Qed.

Lemma no_call_object_coercible how k v : no_call (object_coercible how k v).
Proof. intros s. unfold object_coercible. now destruct (is_nullish v). Qed.

Lemma no_call_bind {A B} (m : M A) (f : A -> M B) :
  no_call m -> (forall a, no_call (f a)) -> no_call (bind m f).
Proof.
  intros Hm Hf s. unfold bind, calls_of.
  specialize (Hm s). unfold calls_of in Hm.
  destruct (m s) as [[[a|t] s1] c1]; simpl in *; subst c1; auto.
  specialize (Hf a s1). unfold calls_of in Hf.
  destruct (f a s1) as [[r s2] c2]; simpl in *. assumption.
Qed.

Lemma one_call_of_no_call {A} (m : M A) : no_call m -> at_most_one_call m.
Proof. intros H s. left. apply H. Qed.

Lemma one_call_await_call h arg : at_most_one_call (await_call h arg).
Proof.
  intros s. right. exists h, arg. split; [reflexivity|].
  intros t Ht. unfold outcome_of, await_call. simpl. assumption.
Qed.

Lemma one_call_await_bind {B} h arg (f : value -> M B) :
  (forall a, no_call (f a)) -> at_most_one_call (bind (await_call h arg) f).
Proof.
  intros Hf s. right. exists h, arg.
  unfold bind, await_call, calls_of, outcome_of.
  destruct (h arg) as [a|t0] eqn:E; simpl.
  - specialize (Hf a s). unfold calls_of in Hf.
    destruct (f a s) as [[r s2] c2]; simpl in *. subst c2.
    split; [reflexivity | discriminate].
  - split; [reflexivity | intros t [= ->]; reflexivity].
Qed.

Lemma one_call_bind {A B} (m : M A) (f : A -> M B) :
  no_call m -> (forall a, at_most_one_call (f a)) -> at_most_one_call (bind m f).
Proof.
  intros Hm Hf s. unfold bind, calls_of, outcome_of.
  specialize (Hm s). unfold calls_of in Hm.
  destruct (m s) as [[[a|t] s1] c1]; simpl in *; subst c1; auto.
  specialize (Hf a s1). unfold calls_of, outcome_of in Hf.
  destruct (f a s1) as [[r s2] c2]; simpl in *. assumption.
Qed.

End Calls.

#[local] Hint Resolve no_call_ret no_call_throw no_call_throw_Error
  no_call_lift no_call_this_server no_call_this_setLogLevel
  no_call_object_coercible : server.

Ltac no_call_steps :=
  repeat first
    [ apply no_call_bind; [|intro]
    | progress auto with server
    | match goal with
      | |- no_call (match ?x with _ => _ end) => destruct x
      | |- no_call (if ?b then _ else _) => destruct b
      | |- no_call (let _ := _ in _) => cbv zeta
      end ].

Ltac one_call_steps :=
  repeat first
    [ apply one_call_await_call
    | apply one_call_await_bind; intro; solve [no_call_steps]
    | apply one_call_bind; [solve [no_call_steps]|intro]
    | apply one_call_of_no_call; solve [no_call_steps]
    | match goal with
      | |- at_most_one_call (match ?x with _ => _ end) => destruct x
      | |- at_most_one_call (if ?b then _ else _) => destruct b
      | |- at_most_one_call (let _ := _ in _) => cbv zeta
      end ].

Section Routines.
Context {RT : Runtime}.

Lemma one_call_handleToolCall params : at_most_one_call (handleToolCall params).
Proof. unfold handleToolCall. one_call_steps. Qed.

Lemma one_call_handleResourceRead params :
  at_most_one_call (handleResourceRead params).
Proof. unfold handleResourceRead. one_call_steps. Qed.

Lemma one_call_handlePromptGet params : at_most_one_call (handlePromptGet params).
Proof. unfold handlePromptGet. one_call_steps. Qed.

Lemma one_call_handleSampling params : at_most_one_call (handleSampling params).
Proof. unfold handleSampling. one_call_steps. Qed.

Lemma one_call_processJsonRpcMethod request :
  at_most_one_call (processJsonRpcMethod request).
Proof.
  unfold processJsonRpcMethod, handleInitialize, handleResourcesList,
    handleResourceTemplatesList, handlePromptsList, handleSetLogLevel.
  repeat match goal with
         | |- at_most_one_call (if ?b then _ else _) => destruct b
         | |- at_most_one_call (let _ := _ in _) => cbv zeta
         end;
    auto using one_call_handleToolCall, one_call_handleResourceRead,
      one_call_handlePromptGet, one_call_handleSampling;
    apply one_call_of_no_call; no_call_steps.
Qed.

(** A method outside the table. *)
Lemma processJsonRpcMethod_unknown request s :
  known_method (req_method request) = false ->
  processJsonRpcMethod request s =
    (Throw (ErrorObj ("Unknown method: " ++ req_method request)), s, []).
Proof.
  unfold known_method, method_table. simpl. intros H.
  repeat (apply orb_false_elim in H; destruct H as [?E H]).
  unfold processJsonRpcMethod.
  repeat match goal with E : (_ =? _) = false |- _ => rewrite E; clear E end.
  reflexivity.
Qed.

Lemma handlePromptGet_unknown params s name :
  is_nullish params = false ->
  get_prop params "name" = VStr name ->
  Map_get name (prompts s) = None ->
  handlePromptGet params s = (Throw (ErrorObj ("Unknown prompt: " ++ name)), s, []).
Proof.
  intros Hp Hn Hg. unfold handlePromptGet, object_coercible, bind, this_server.
  rewrite Hp. simpl. rewrite Hn. simpl. now rewrite Hg.
Qed.

Lemma handleResourceRead_missing_uri params s :
  is_nullish params = false ->
  truthy (get_prop params "uri") = false ->
  handleResourceRead params s =
    (Throw (ErrorObj "URI is required for resource read"), s, []).
Proof.
  intros Hp Hu. unfold handleResourceRead, object_coercible, bind.
  rewrite Hp. simpl. now rewrite Hu.
Qed.

(** [prompts/get] for a registered prompt: the required arguments are
    checked, then the handler is awaited. *)
Lemma handlePromptGet_registered params s name prompt h :
  is_nullish params = false ->
  get_prop params "name" = VStr name ->
  Map_get name (prompts s) = Some prompt ->
  Map_get name (promptHandlers s) = Some h ->
  let args := get_prop params "arguments" in
  let arg := if truthy args then args else VObj [] in
  handlePromptGet params s =
    match prompt_arguments prompt with
    | Some arguments =>
        match check_required args arguments with
        | Normal _ => (h arg, s, [Invoked h arg])
        | Throw t => (Throw t, s, [])
        end
    | None => (h arg, s, [Invoked h arg])
    end.
Proof.
  intros Hp Hn Hg Hh. unfold handlePromptGet, object_coercible, bind, this_server.
  rewrite Hp. simpl. rewrite Hn. simpl. rewrite Hg, Hh.
  destruct (prompt_arguments prompt) as [arguments|]; simpl; auto.
  now destruct (check_required (get_prop params "arguments") arguments).
Qed.

Lemma handleSampling_unconfigured params s :
  samplingHandler s = None ->
  handleSampling params s =
    (Throw (ErrorObj "Sampling handler not configured"), s, []).
Proof.
  intros Hs. unfold handleSampling, bind, this_server. simpl. now rewrite Hs.
Qed.

End Routines.

(* ================================================================== *)
(** ** Errors on the wire *)
(* ================================================================== *)

Section ErrorEnvelopes.
Context {RT : Runtime}.

Lemma handleJsonRpcRequest_try_decoded body s request :
  decode body = Normal request ->
  outcome_of (handleJsonRpcRequest_try body s) =
    match outcome_of (processJsonRpcMethod request s) with
    | Normal result =>
        Normal (if is_null result then no_content
                else success_envelope (nullish_coalesce (req_id request) VNull) result)
    | Throw t => Throw t
    end.
Proof.
  intros Hd. unfold handleJsonRpcRequest_try, bind, lift, outcome_of.
  rewrite Hd.
  destruct (processJsonRpcMethod request s) as [[[result|t] s'] calls]; simpl; auto.
  now destruct (is_null result).
Qed.

(** The [catch]: whatever the [try] block throws comes out as the error
    envelope. *)
Lemma handleJsonRpcRequest_catch body s t :
  outcome_of (handleJsonRpcRequest_try body s) = Throw t ->
  outcome_of (handleJsonRpcRequest body s) = error_envelope (error_message t).
Proof.
  unfold handleJsonRpcRequest, outcome_of.
  destruct (handleJsonRpcRequest_try body s) as [[[r|t'] s'] calls]; simpl.
  - discriminate.
  - now intros [= ->].
Qed.

(** Each way of failing makes the routine of the method throw. *)
Lemma failure_routine_throws s body request t :
  decode body = Normal request ->
  failure s body t ->
  outcome_of (processJsonRpcMethod request s) = Throw t.
Proof.
  intros Hd F.
  destruct F as
    [ t Hd'
    | request' Hd' Hk
    | request' name Hd' Hm Hp Hn Hg
    | request' name Hd' Hm Hp Hn Hg
    | request' Hd' Hm Hp Hu
    | request' name prompt h arguments t Hd' Hm Hp Hn Hg Hh Ha Hc
    | request' Hd' Hm Hs
    | request' h arg t Hd' Hin Ht
    | request' t Hd' Ho ];
    rewrite Hd in Hd'; try discriminate;
    injection Hd' as <-.
  - now rewrite processJsonRpcMethod_unknown.
  - unfold processJsonRpcMethod. rewrite Hm. simpl.
    rewrite handleToolCall_unknown by (rewrite ?Hn; assumption).
    now rewrite Hn.
  - unfold processJsonRpcMethod. rewrite Hm. simpl.
    now rewrite (handlePromptGet_unknown _ _ name).
  - unfold processJsonRpcMethod. rewrite Hm. simpl.
    now rewrite handleResourceRead_missing_uri.
  - unfold processJsonRpcMethod. rewrite Hm. simpl.
    rewrite (handlePromptGet_registered _ _ name prompt h) by assumption.
    now rewrite Ha, Hc.
  - unfold processJsonRpcMethod. rewrite Hm. simpl.
    now rewrite handleSampling_unconfigured.
  - destruct (one_call_processJsonRpcMethod request s)
      as [Hnone | (h' & arg' & Hone & Hthrow)].
    + rewrite Hnone in Hin. destruct Hin.
    + rewrite Hone in Hin. destruct Hin as [[= <- <-]|[]]. auto.
  - assumption.
Qed.

(** Conversely, whatever the [try] block throws is a failure. *)
Lemma throw_is_failure s body t :
  outcome_of (handleJsonRpcRequest_try body s) = Throw t -> failure s body t.
Proof.
  intros H. destruct (decode body) as [request|t0] eqn:Hd.
  - rewrite (handleJsonRpcRequest_try_decoded _ _ _ Hd) in H.
    apply (Routine_threw s body request t Hd).
    destruct (outcome_of (processJsonRpcMethod request s)); congruence.
  - unfold handleJsonRpcRequest_try, bind, lift, outcome_of in H.
    rewrite Hd in H. simpl in H. injection H as <-.
    now apply Malformed_envelope.
Qed.

End ErrorEnvelopes.

(** C3. Every message that fails -- the envelope is malformed, the
    method is unknown, the action or the prompt is unknown, the URI or a
    required argument is missing, no sampling handler is configured, a
    handler throws, or anything else is thrown while the routine runs --
    is answered by the error envelope: the fixed code [-32603], and as
    message the text of the thrown error, or ["Internal error"] when
    what was thrown is not an error object.  What the [try] block throws
    never gets past the entry point. *)
Theorem failures_become_error_envelopes {RT : Runtime}
  (s : MCPServer) (body : string) (t : thrown) :
  failure s body t ->
  outcome_of (handleJsonRpcRequest_try body s) = Throw t
  /\ outcome_of (handleJsonRpcRequest body s) =
       error_envelope (match t with
                       | ErrorObj message => message
                       | NonError _ => "Internal error"
                       end).
Proof.
  intros F.
  assert (Htry : outcome_of (handleJsonRpcRequest_try body s) = Throw t).
  { destruct (decode body) as [request|t0] eqn:Hd.
    - rewrite (handleJsonRpcRequest_try_decoded _ _ _ Hd).
      now rewrite (failure_routine_throws _ _ _ _ Hd F).
    - unfold handleJsonRpcRequest_try, bind, lift, outcome_of.
      rewrite Hd. simpl.
      destruct F; congruence. }
  split; [exact Htry|].
  now apply handleJsonRpcRequest_catch.
Qed.

Lemma failures_become_error_envelopes_witness :
  let body := json_text "{'jsonrpc':'2.0','id':1,'method':'unknown/method'}" in
  let t := ErrorObj "Unknown method: unknown/method" in
  failure (RT := Ref.runtime) Sample.server body t
  /\ outcome_of (handleJsonRpcRequest (RT := Ref.runtime) body Sample.server)
     = error_envelope "Unknown method: unknown/method".
Proof.
  intros body t.
  assert (F : failure (RT := Ref.runtime) Sample.server body t).
  { apply (Unknown_method (RT := Ref.runtime) Sample.server body
             {| req_jsonrpc := "2.0"; req_id := VNum (Decimal 1 0);
                req_method := "unknown/method"; req_params := VUndefined |});
      reflexivity. }
  split; [exact F|].
  exact (proj2 (failures_become_error_envelopes Sample.server body t F)).
Defined.

(* ================================================================== *)
(** ** Requests and notifications *)
(* ================================================================== *)





(* ================================================================== *)
(** ** Decoding an envelope *)
(* ================================================================== *)

Section Decoding.
Context {RT : Runtime}.

Lemma JsonRpcRequestSchema_shape v :
  JsonRpcRequestSchema v = true <-> required_shape v.
Proof.
  unfold JsonRpcRequestSchema, z_object, required_shape, identifier_ok.
  destruct v as [| |b|n|str|items|props|name];
    try (split; [discriminate | intros ((props' & [=]) & _)]).
  cbn [forallb fst snd].
  rewrite !andb_true_iff.
  unfold z_literal, z_optional, z_union, z_string, z_number, z_null, z_any.
  cbn [existsb].
  split.
  - intros (Hj & Hi & Hm & _).
    split; [eauto|]. split; [|split].
    + destruct (get_prop (VObj props) "jsonrpc"); try discriminate.
      apply String.eqb_eq in Hj. now subst.
    + destruct (get_prop (VObj props) "id") as [| |b|n|str|items|props'|name];
        simpl in Hi; try discriminate; eauto 6.
      rewrite orb_false_r in Hi. eauto 6.
    + destruct (get_prop (VObj props) "method"); try discriminate. eauto.
  - intros (_ & Hj & Hi & (m & Hm)).
    rewrite Hj, Hm. repeat split.
    + destruct Hi as [-> | [-> | [(str & ->) | (n & -> & Hn)]]]; simpl; auto.
      now rewrite Hn.
    + now destruct (get_prop (VObj props) "params").
Qed.

Lemma JsonRpcRequestSchema_parse_shape v :
  (exists t, JsonRpcRequestSchema_parse v = Throw t) <-> ~ required_shape v.
Proof.
  rewrite <- JsonRpcRequestSchema_shape.
  unfold JsonRpcRequestSchema_parse.
  destruct (JsonRpcRequestSchema v) eqn:E.
  - apply JsonRpcRequestSchema_shape in E.
    destruct E as (_ & _ & _ & (m & ->)).
    split; [intros (t & [=]) | congruence].
  - split; [congruence | eauto].
Qed.

Lemma trimEnd_empty s : trimEnd s = EmptyString <-> whitespace_only s = true.
Proof.
  induction s as [|c s IH]; simpl; [tauto|].
  rewrite andb_true_iff, <- IH.
  destruct (trimEnd s); destruct (is_trim_space c);
    intuition congruence.
Qed.

Lemma trimStart_whitespace s :
  whitespace_only (trimStart s) = whitespace_only s.
Proof.
  induction s as [|c s IH]; simpl; [reflexivity|].
  destruct (is_trim_space c) eqn:E; simpl; [assumption | now rewrite E].
Qed.

(** [!body.trim()] holds exactly for a body that is empty or
    whitespace-only. *)
Lemma trim_empty_falsy body :
  negb (truthy (VStr (trim body))) = true <-> whitespace_only body = true.
Proof.
  rewrite <- trimStart_whitespace, <- trimEnd_empty. fold (trim body).
  simpl. destruct (trim body); simpl; split; congruence.
Qed.

End Decoding.

(** C4, as the code has it.  Decoding fails exactly when the body is
    empty or whitespace-only, or is not parseable, or the parsed value does
    not have the required shape: a plain object whose [jsonrpc] is the
    string [2.0], whose [id] is absent, [null], a string or a finite
    number, whose [method] is a string -- the empty string included --
    and whose [params] are anything. *)
Theorem decode_fails_exactly_when {RT : Runtime} (body : string) :
  (exists t, decode body = Throw t) <-> decoding_fails required_shape body.
Proof.
  unfold decode, decoding_fails.
  destruct (negb (truthy (VStr (trim body)))) eqn:E.
  - apply trim_empty_falsy in E. split; eauto.
  - assert (Hne : whitespace_only body <> true).
    { intros H. apply trim_empty_falsy in H. congruence. }
    destruct (JSON_parse body) as [v|t] eqn:P; simpl.
    + rewrite JsonRpcRequestSchema_parse_shape. split.
      * intros H. right. right. eauto.
      * intros [H | [(t & [=]) | (v' & [= <-] & H)]]; [contradiction | assumption].
    + split; [|eauto]. intros _. right. left. eauto.
Qed.

(** C4 fails as stated, in both directions.  A body whose method is the
    empty string decodes, although the specification requires a
    non-empty method name.  A body whose id is the number [1e999] does
    not decode, although the specification allows any number: the
    literal overflows to an infinity, which the number type of the schema
    library (version 4, see [package.json]) rejects. *)
Lemma empty_method_decodes_and_huge_id_does_not :
  let empty_method := json_text "{'jsonrpc':'2.0','method':''}" in
  let huge_id := json_text "{'jsonrpc':'2.0','id':1e999,'method':'ping'}" in
  (decode (RT := Ref.runtime) empty_method
   = Normal {| req_jsonrpc := "2.0"; req_id := VUndefined;
               req_method := EmptyString; req_params := VUndefined |}
   /\ decoding_fails (RT := Ref.runtime) spec_required_shape empty_method)
  /\ (decode (RT := Ref.runtime) huge_id
      = Throw (Ref.ZodError
                 (VObj [("jsonrpc", VStr "2.0");
                        ("id", VNum (Decimal 1 999));
                        ("method", VStr "ping")]))
      /\ ~ decoding_fails (RT := Ref.runtime) spec_required_shape huge_id).
Proof.
  intros empty_method huge_id. split; split.
  - reflexivity.
  - right. right.
    exists (VObj [("jsonrpc", VStr "2.0"); ("method", VStr EmptyString)]).
    split; [reflexivity|].
    intros (_ & _ & _ & (m & Hm & Hne)).
    cbn in Hm. injection Hm as <-. now apply Hne.
  - vm_compute. reflexivity.
  - intros [H | [(t & H) | (v & H & Hn)]].
    + vm_compute in H. discriminate.
    + vm_compute in H. discriminate.
    + vm_compute in H. injection H as <-. apply Hn.
      split; [eauto|]. split; [reflexivity|]. split.
      * right. right. right. exists (Decimal 1 999). reflexivity.
      * exists "ping". split; [reflexivity | discriminate].
Qed.

(* ================================================================== *)
(** ** Required prompt arguments *)
(* ================================================================== *)

Section PromptArguments.
Context {RT : Runtime}.

Lemma is_missing_test args arg :
  flagged_required arg && negb (truthy (optional_get args (arg_name arg))) = true
  <-> is_missing args arg.
Proof.
  unfold is_missing, flagged_required.
  rewrite andb_true_iff, negb_true_iff.
  destruct (arg_required arg) as [[|]|]; intuition congruence.
Qed.

(** The loop stops at the first missing argument and names it. *)
Lemma check_required_first_missing args arguments :
  (exists arg, In arg arguments /\ is_missing args arg) ->
  exists before offending after,
    arguments = (before ++ offending :: after)%list
    /\ (forall arg, In arg before -> ~ is_missing args arg)
    /\ is_missing args offending
    /\ check_required args arguments
       = Throw (ErrorObj ("Required argument missing: " ++ arg_name offending)).
Proof.
  induction arguments as [|a rest IH]; intros (arg & Hin & Hmiss).
  - destruct Hin.
  - simpl.
    destruct (flagged_required a
              && negb (truthy (optional_get args (arg_name a)))) eqn:E.
    + exists [], a, rest. split; [reflexivity|]. split; [intros x []|].
      split; [now apply is_missing_test | reflexivity].
    + assert (Hna : ~ is_missing args a).
      { intros H. apply is_missing_test in H. congruence. }
      destruct Hin as [-> | Hin]; [contradiction|].
      destruct IH as (before & offending & after & -> & Hb & Ho & Hc); eauto.
      exists (a :: before), offending, after.
      split; [reflexivity|]. split; [|split; assumption].
      intros x [<- | Hx]; auto.
Qed.

(** When nothing is missing the loop runs to its end. *)
Lemma check_required_none_missing args arguments :
  (forall arg, In arg arguments -> ~ is_missing args arg) ->
  check_required args arguments = Normal tt.
Proof.
  induction arguments as [|a rest IH]; intros H; simpl; auto.
  destruct (flagged_required a
            && negb (truthy (optional_get args (arg_name a)))) eqn:E.
  - apply is_missing_test in E. exfalso. apply (H a); simpl; auto.
  - apply IH. intros x Hx. apply H. now right.
Qed.

End PromptArguments.

(** C6. [prompts/get] for a registered prompt one of whose arguments is
    flagged required and is not present in [params.arguments] -- that
    is, [args?.[name]] is falsy: the key may exist with a falsy value --
    fails with the error [Required argument missing:] naming such an
    argument, the first one in the order of the descriptor; no handler
    is invoked and the server is as it was. *)
Theorem missing_required_argument_rejected {RT : Runtime}
  (s : MCPServer) (params : value) (name : string)
  (prompt : MCPPrompt) (h : MCPPromptHandler)
  (arguments : list MCPPromptArgument) (missing : MCPPromptArgument) :
  is_nullish params = false ->
  get_prop params "name" = VStr name ->
  Map_get name (prompts s) = Some prompt ->
  Map_get name (promptHandlers s) = Some h ->
  prompt_arguments prompt = Some arguments ->
  In missing arguments ->
  arg_required missing = Some true ->
  truthy (optional_get (get_prop params "arguments") (arg_name missing)) = false ->
  exists before offending after,
    arguments = (before ++ offending :: after)%list
    /\ (forall arg, In arg before ->
          ~ is_missing (get_prop params "arguments") arg)
    /\ is_missing (get_prop params "arguments") offending
    /\ handlePromptGet params s
       = (Throw (ErrorObj ("Required argument missing: " ++ arg_name offending)),
          s, []).
Proof.
  intros Hp Hn Hg Hh Ha Hin Hreq Hfalsy.
  destruct (check_required_first_missing (get_prop params "arguments") arguments)
    as (before & offending & after & Hsplit & Hb & Ho & Hc).
  { exists missing. split; [assumption | split; assumption]. }
  exists before, offending, after.
  split; [assumption|]. split; [assumption|]. split; [assumption|].
  rewrite (handlePromptGet_registered _ _ name prompt h) by assumption.
  now rewrite Ha, Hc.
Qed.

Lemma missing_required_argument_rejected_witness :
  let language := Sample.required_argument "language" in
  let code := Sample.required_argument "code" in
  let prompt := Sample.prompt [language; code] in
  let s := addPrompt prompt (Sample.tagged "review") Sample.server in
  let args := VObj [("language", VStr "ts"); ("code", VStr EmptyString)] in
  let params := VObj [("name", VStr "code-review"); ("arguments", args)] in
  (arg_required code = Some true
   /\ truthy (optional_get (RT := Ref.runtime) args (arg_name code)) = false)
  /\ exists before offending after,
       [language; code] = (before ++ offending :: after)%list
       /\ (forall arg, In arg before -> ~ is_missing (RT := Ref.runtime) args arg)
       /\ is_missing (RT := Ref.runtime) args offending
       /\ handlePromptGet (RT := Ref.runtime) params s
          = (Throw (ErrorObj ("Required argument missing: " ++ arg_name offending)),
             s, []).
Proof.
  intros language code prompt s args params.
  split; [split; reflexivity|].
  exact (missing_required_argument_rejected (RT := Ref.runtime)
           s params "code-review" prompt (Sample.tagged "review")
           [language; code] code
           eq_refl eq_refl eq_refl eq_refl eq_refl
           (or_intror (or_introl eq_refl)) eq_refl eq_refl).
Defined.

(* ================================================================== *)
(** ** Sampling *)
(* ================================================================== *)

(** C7, as the code has it.  Without a configured handler
    [sampling/createMessage] fails with [Sampling handler not
    configured], whatever the params.  With a handler [h]: when the
    params are absent or [null], reading [params.messages] raises the
    [TypeError] of the engine; when the params are present and
    [messages] is falsy (absent included), not an array, or the empty
    array, the call fails with [Messages array is required and cannot be
    empty]; when [messages] is a non-empty array, [h] is awaited with the
    params and its completion -- value or throw -- is the completion of
    the call, unexamined. *)
Theorem sampling_gateway {RT : Runtime} (s : MCPServer) (params : value) :
  (samplingHandler s = None ->
   handleSampling params s
   = (Throw (ErrorObj "Sampling handler not configured"), s, []))
  /\ (forall h,
        samplingHandler s = Some h ->
        (is_nullish params = true ->
         handleSampling params s
         = (Throw (TypeError_nullish MemberRead "messages" params), s, []))
        /\ (is_nullish params = false ->
            let messages := get_prop params "messages" in
            (truthy messages = false
             \/ Array_isArray messages = false
             \/ messages = VArr [] ->
             handleSampling params s
             = (Throw (ErrorObj "Messages array is required and cannot be empty"),
                s, []))
            /\ (forall first rest,
                  messages = VArr (first :: rest) ->
                  handleSampling params s = (h params, s, [Invoked h params])))).
Proof.
  split.
  - apply handleSampling_unconfigured.
  - intros h Hh. split.
    + intros Hp. unfold handleSampling, object_coercible, bind, this_server.
      simpl. rewrite Hh, Hp. reflexivity.
    + intros Hp messages. subst messages. split.
      * intros Hbad.
        unfold handleSampling, object_coercible, bind, this_server.
        simpl. rewrite Hh, Hp. simpl.
        destruct Hbad as [H | [H | H]]; rewrite H; simpl;
          rewrite ?orb_true_r; reflexivity.
      * intros first rest Hm.
        unfold handleSampling, object_coercible, bind, this_server.
        simpl. rewrite Hh, Hp. simpl. rewrite Hm. reflexivity.
Qed.

Lemma sampling_gateway_witness :
  let h := Sample.tagged "model" in
  let s := setSamplingHandler h Sample.server in
  let params := VObj [("messages", VArr [])] in
  samplingHandler s = Some h
  /\ is_nullish params = false
  /\ get_prop (RT := Ref.runtime) params "messages" = VArr []
  /\ handleSampling (RT := Ref.runtime) params s
     = (Throw (ErrorObj "Messages array is required and cannot be empty"), s, []).
Proof.
  intros h s params.
  repeat (split; [reflexivity|]).
  exact (proj1 (proj2 (proj2 (sampling_gateway (RT := Ref.runtime) s params)
                         h eq_refl) eq_refl)
               (or_intror (or_intror eq_refl))).
Defined.

(** C7 fails as stated.  With a handler configured, a call without
    params -- so without [messages] -- does not fail with [Messages
    array is required and cannot be empty]: reading [params.messages]
    raises the engine's [TypeError], and that is the message of the
    error envelope.  The handler is not invoked. *)
Lemma sampling_without_params_is_a_type_error :
  let body := json_text "{'jsonrpc':'2.0','id':1,'method':'sampling/createMessage'}" in
  let s := setSamplingHandler (Sample.tagged "model") Sample.server in
  decode (RT := Ref.runtime) body
  = Normal {| req_jsonrpc := "2.0"; req_id := VNum (Decimal 1 0);
              req_method := "sampling/createMessage";
              req_params := VUndefined |}
  /\ handleSampling (RT := Ref.runtime) VUndefined s
     = (Throw (ErrorObj "Cannot read properties of undefined (reading 'messages')"),
        s, [])
  /\ handleJsonRpcRequest (RT := Ref.runtime) body s
     = (error_envelope "Cannot read properties of undefined (reading 'messages')",
        s, [])
  /\ handleJsonRpcRequest (RT := Ref.runtime) body s
     <> (error_envelope "Messages array is required and cannot be empty", s, []).
Proof.
  intros body s. repeat split. discriminate.
Qed.

(* ================================================================== *)
(** ** Placeholders *)
(* ================================================================== *)

Lemma skip_to_close_length s rest :
  skip_to_close s = Some rest -> (String.length rest < String.length s)%nat.
Proof.
  revert rest. induction s as [|c s IH]; simpl; intros rest H; [discriminate|].
  destruct (c =? "}")%char.
  - injection H as <-. lia.
  - apply IH in H. lia.
Qed.

Lemma match_placeholder_length s rest :
  match_placeholder s = Some rest -> (String.length rest < String.length s)%nat.
Proof.
  destruct s as [|c s1]; [discriminate|].
  destruct c as [[] [] [] [] [] [] [] []];
    try (simpl; intros H; discriminate H).
  destruct s1 as [|d s2]; [discriminate|].
  cbn [match_placeholder].
  destruct (d =? "}")%char; [discriminate|].
  intros H. apply skip_to_close_length in H. simpl. lia.
Qed.

(** Any two amounts of fuel that cover the input give the same result. *)
Lemma replace_from_fuel fuel1 : forall fuel2 s,
  (String.length s <= fuel1)%nat ->
  (String.length s <= fuel2)%nat ->
  replace_from fuel1 s = replace_from fuel2 s.
Proof.
  induction fuel1 as [|fuel1 IH]; intros fuel2 s H1 H2.
  - destruct s; [|simpl in H1; lia]. now destruct fuel2.
  - destruct fuel2 as [|fuel2].
    + destruct s; [reflexivity | simpl in H2; lia].
    + cbn [replace_from].
      destruct (match_placeholder s) as [rest|] eqn:E.
      * apply match_placeholder_length in E.
        rewrite (IH fuel2 rest) by lia. reflexivity.
      * destruct s as [|c s]; [reflexivity|].
        simpl in H1, H2. rewrite (IH fuel2 s) by lia. reflexivity.
Qed.

Lemma replace_from_enough fuel s :
  (String.length s <= fuel)%nat ->
  replace_from fuel s = replace_from (String.length s) s.
Proof. intros H. now apply replace_from_fuel. Qed.

Lemma replace_placeholders_match s rest :
  match_placeholder s = Some rest ->
  replace_placeholders s = "([^/]+)" ++ replace_placeholders rest.
Proof.
  intros E. unfold replace_placeholders.
  pose proof (match_placeholder_length _ _ E) as Hlen.
  destruct s as [|c s]; [discriminate|].
  cbn [String.length replace_from]. rewrite E.
  rewrite replace_from_enough by (simpl in Hlen; lia). reflexivity.
Qed.

Lemma replace_placeholders_step c s :
  match_placeholder (String c s) = None ->
  replace_placeholders (String c s) = String c (replace_placeholders s).
Proof.
  intros E. unfold replace_placeholders.
  cbn [String.length replace_from]. now rewrite E.
Qed.

Lemma match_placeholder_other c s :
  (c =? "{")%char = false -> match_placeholder (String c s) = None.
Proof.
  intros E. unfold match_placeholder.
  destruct c as [[] [] [] [] [] [] [] []]; try reflexivity; discriminate.
Qed.

Lemma skip_to_close_name name rest :
  occurs "}" name = false ->
  skip_to_close (name ++ String "}" rest) = Some rest.
Proof.
  induction name as [|c name IH]; simpl; intros H; [reflexivity|].
  apply orb_false_elim in H. destruct H as [Hc Hn].
  rewrite Hc. auto.
Qed.

Lemma match_placeholder_braces name rest :
  name <> EmptyString ->
  occurs "}" name = false ->
  match_placeholder (String "{" (name ++ String "}" rest)) = Some rest.
Proof.
  intros Hne Hn. destruct name as [|c name]; [contradiction|].
  simpl in Hn. apply orb_false_elim in Hn. destruct Hn as [Hc Hn].
  cbn [match_placeholder append]. rewrite Hc.
  now apply skip_to_close_name.
Qed.

(** Text without an opening brace is copied; the first placeholder
    after it is replaced by the group [([^/]+)]; the scan goes on after
    the closing brace. *)
Lemma replace_placeholders_first pre name rest :
  occurs "{" pre = false ->
  name <> EmptyString ->
  occurs "}" name = false ->
  replace_placeholders (pre ++ String "{" (name ++ String "}" rest))
  = pre ++ "([^/]+)" ++ replace_placeholders rest.
Proof.
  intros Hpre Hne Hn.
  induction pre as [|c pre IH].
  - cbn [append]. apply replace_placeholders_match.
    now apply match_placeholder_braces.
  - simpl in Hpre. apply orb_false_elim in Hpre. destruct Hpre as [Hc Hpre].
    cbn [append]. rewrite replace_placeholders_step.
    + now rewrite IH.
    + now apply match_placeholder_other.
Qed.

Lemma replace_placeholders_literal text :
  occurs "{" text = false -> replace_placeholders text = text.
Proof.
  induction text as [|c text IH]; intros H; [reflexivity|].
  simpl in H. apply orb_false_elim in H. destruct H as [Hc Ht].
  rewrite replace_placeholders_step by now apply match_placeholder_other.
  now rewrite IH.
Qed.

(* ================================================================== *)
(** ** Reading a resource *)
(* ================================================================== *)

Section ResourceRead.
Context {RT : Runtime}.

Lemma matchesTemplate_string uri template :
  matchesTemplate (VStr uri) template =
    match RegExp_compile ("^" ++ replace_placeholders template ++ "$") with
    | Normal regex => Normal (regex uri)
    | Throw t => Throw t
    end.
Proof.
  unfold matchesTemplate, completion_bind.
  now destruct (RegExp_compile ("^" ++ replace_placeholders template ++ "$")).
Qed.

(** The loop returns the handler of the first entry that matches. *)
Lemma first_matching_found uri before template h after :
  (forall k h', In (k, h') before -> matchesTemplate uri k = Normal false) ->
  matchesTemplate uri template = Normal true ->
  first_matching uri (before ++ (template, h) :: after) = Normal (Some h).
Proof.
  intros Hb Hm.
  induction before as [|[k h'] before IH]; simpl.
  - now rewrite Hm.
  - rewrite (Hb k h') by (now left).
    apply IH. intros k0 h0 H0. apply (Hb k0 h0). now right.
Qed.

Lemma first_matching_none uri entries :
  (forall k h, In (k, h) entries -> matchesTemplate uri k = Normal false) ->
  first_matching uri entries = Normal None.
Proof.
  induction entries as [|[k h] entries IH]; intros H; simpl; auto.
  rewrite (H k h) by (now left).
  apply IH. intros k0 h0 H0. apply (H k0 h0). now right.
Qed.

(** A truthy URI that is a key of the handler map: its handler is
    awaited with the URI. *)
Lemma handleResourceRead_exact params s h :
  is_nullish params = false ->
  truthy (get_prop params "uri") = true ->
  Map_get_value (get_prop params "uri") (resourceHandlers s) = Some h ->
  handleResourceRead params s =
    (contents_of (h (get_prop params "uri")), s,
     [Invoked h (get_prop params "uri")]).
Proof.
  intros Hp Hu Hg.
  unfold handleResourceRead, object_coercible, bind, this_server.
  rewrite Hp. simpl. rewrite Hu. simpl. rewrite Hg. simpl.
  now destruct (h (get_prop params "uri")).
Qed.

(** A truthy URI that is not a key: the loop decides. *)
Lemma handleResourceRead_fallback params s :
  is_nullish params = false ->
  truthy (get_prop params "uri") = true ->
  Map_get_value (get_prop params "uri") (resourceHandlers s) = None ->
  let uri := get_prop params "uri" in
  handleResourceRead params s =
    match first_matching uri (Map_entries (resourceHandlers s)) with
    | Normal (Some h) => (contents_of (h uri), s, [Invoked h uri])
    | Normal None =>
        (match ToString uri with
         | Normal shown => Throw (ErrorObj ("Resource not found: " ++ shown))
         | Throw t => Throw t
         end, s, [])
    | Throw t => (Throw t, s, [])
    end.
Proof.
  intros Hp Hu Hg uri. subst uri.
  unfold handleResourceRead, object_coercible, bind, this_server.
  rewrite Hp. simpl. rewrite Hu. simpl. rewrite Hg. unfold lift.
  destruct (first_matching (get_prop params "uri")
              (Map_entries (resourceHandlers s))) as [[h|]|t]; simpl.
  - now destruct (h (get_prop params "uri")).
  - now destruct (ToString (get_prop params "uri")).
  - reflexivity.
Qed.

End ResourceRead.

(* ================================================================== *)
(** ** The reference matcher is sound and complete *)
(* ================================================================== *)

Lemma append_empty_inv (s1 s2 : string) :
  s1 ++ s2 = EmptyString -> s1 = EmptyString /\ s2 = EmptyString.
Proof. destruct s1; simpl; [tauto | discriminate]. Qed.

Lemma append_empty_r (s : string) : s ++ EmptyString = s.
Proof. induction s; simpl; congruence. Qed.

Lemma append_assoc (a b c : string) : (a ++ b) ++ c = a ++ (b ++ c).
Proof. induction a; simpl; congruence. Qed.

Lemma matching_void first s last : ~ matching Ref.Void first s last.
Proof. intros H. inversion H. Qed.

Lemma matching_eps_inv first s last :
  matching Ref.Eps first s last -> s = EmptyString.
Proof. intros H. now inversion H. Qed.

Lemma nullable_matching r : forall first last,
  Ref.nullable first last r = true <-> matching r first EmptyString last.
Proof.
  induction r as [| |p|a IHa b IHb|a IHa b IHb|a IHa| |]; intros first last; simpl.
  - split; [discriminate | intros H; inversion H].
  - split; [constructor | reflexivity].
  - split; [discriminate | intros H; inversion H].
  - rewrite andb_true_iff, IHa, IHb. split.
    + intros [Ha Hb].
      apply (matching_cat a b first last EmptyString EmptyString); simpl;
        now rewrite andb_true_r.
    + intros H. inversion H; subst.
      match goal with E : _ ++ _ = EmptyString |- _ =>
        apply append_empty_inv in E; destruct E; subst end.
      simpl in *. now rewrite andb_true_r in *.
  - rewrite orb_true_iff, IHa, IHb. split.
    + intros [H|H]; [now apply matching_alt_left | now apply matching_alt_right].
    + intros H. inversion H; subst; auto.
  - split; [constructor | reflexivity].
  - split; [intros ->; constructor | intros H; now inversion H].
  - split; [intros ->; constructor | intros H; now inversion H].
Qed.

Lemma matching_cat_smart a b first s last :
  matching (Ref.cat a b) first s last <-> matching (Ref.Cat a b) first s last.
Proof.
  assert (Hvl : forall x, ~ matching (Ref.Cat Ref.Void x) first s last).
  { intros x H. inversion H; subst.
    eapply matching_void; eassumption. }
  assert (Hvr : forall x, ~ matching (Ref.Cat x Ref.Void) first s last).
  { intros x H. inversion H; subst.
    eapply matching_void; eassumption. }
  assert (He : forall x, matching x first s last
                         <-> matching (Ref.Cat Ref.Eps x) first s last).
  { intros x. split.
    - intros H.
      apply (matching_cat Ref.Eps x first last EmptyString s);
        [constructor | simpl; now rewrite andb_true_r].
    - intros H. inversion H; subst.
      match goal with Ha : matching Ref.Eps _ _ _ |- _ =>
        apply matching_eps_inv in Ha; subst end.
      simpl in *. now rewrite andb_true_r in *. }
  destruct a; destruct b; simpl; try apply He; try tauto;
    try (split; [intros H; now apply matching_void in H
                | intros H; first [now apply Hvl in H | now apply Hvr in H]]).
Qed.

Lemma matching_alt_smart a b first s last :
  matching (Ref.alt a b) first s last <-> matching (Ref.Alt a b) first s last.
Proof.
  assert (Hl : forall x, matching x first s last
                         <-> matching (Ref.Alt Ref.Void x) first s last).
  { intros x. split; [apply matching_alt_right|].
    intros H. inversion H; subst; auto.
    match goal with Hv : matching Ref.Void _ _ _ |- _ =>
      now apply matching_void in Hv end. }
  assert (Hr : forall x, matching x first s last
                         <-> matching (Ref.Alt x Ref.Void) first s last).
  { intros x. split; [apply matching_alt_left|].
    intros H. inversion H; subst; auto.
    match goal with Hv : matching Ref.Void _ _ _ |- _ =>
      now apply matching_void in Hv end. }
  destruct a; destruct b; simpl; try apply Hl; try apply Hr; tauto.
Qed.

(** Reading a character and matching what remains is matching with
    that character in front. *)
Lemma derive_matching r : forall first c s last,
  matching (Ref.derive first c r) false s last
  <-> matching r first (String c s) last.
Proof.
  induction r as [| |p|a IHa b IHb|a IHa b IHb|a IHa| |];
    intros first c s last; simpl.
  - split; intros H; inversion H.
  - split; intros H; inversion H.
  - destruct (p c) eqn:E; split; intros H.
    + apply matching_eps_inv in H. subst. now constructor.
    + inversion H; subst. constructor.
    + inversion H.
    + inversion H; subst. congruence.
  - rewrite matching_alt_smart. split.
    + intros H. inversion H; subst.
      * match goal with X : matching (Ref.cat _ _) _ _ _ |- _ =>
          apply matching_cat_smart in X; inversion X; subst end.
        match goal with X : matching (Ref.derive _ _ a) _ _ _ |- _ =>
          apply IHa in X end.
        match goal with |- matching _ _ (String c (?s1 ++ ?s2)) _ =>
          apply (matching_cat a b first last (String c s1) s2) end;
          [assumption | simpl in *; now rewrite andb_false_r].
      * destruct (Ref.nullable first false a) eqn:N;
          [|match goal with X : matching Ref.Void _ _ _ |- _ => inversion X end].
        apply nullable_matching in N.
        match goal with X : matching (Ref.derive _ _ b) _ _ _ |- _ =>
          apply IHb in X end.
        apply (matching_cat a b first last EmptyString (String c s)); simpl;
          [now rewrite andb_false_r | now rewrite andb_true_r].
    + intros H. inversion H as [| |? ? ? ? s1 s2 Ha Hb| | | | | |]; subst.
      destruct s1 as [|c1 s1]; simpl in *.
      * subst s2. apply matching_alt_right.
        rewrite andb_false_r in Ha. rewrite andb_true_r in Hb.
        apply nullable_matching in Ha. rewrite Ha. now apply IHb.
      * match goal with E : String _ _ = String _ _ |- _ =>
          injection E as -> <- end.
        apply matching_alt_left, matching_cat_smart.
        apply (matching_cat _ b false last s1 s2); simpl;
          [now apply IHa | now rewrite andb_false_r in Hb].
  - rewrite matching_alt_smart. split.
    + intros H. inversion H; subst;
        [apply matching_alt_left; now apply IHa
        |apply matching_alt_right; now apply IHb].
    + intros H. inversion H; subst;
        [apply matching_alt_left; now apply IHa
        |apply matching_alt_right; now apply IHb].
  - rewrite matching_cat_smart. split.
    + intros H. inversion H; subst.
      match goal with X : matching (Ref.derive _ _ a) _ _ _ |- _ =>
        apply IHa in X end.
      match goal with |- matching _ _ (String c (?s1 ++ ?s2)) _ =>
        apply (matching_star_more a first last c s1 s2) end; assumption.
    + intros H. inversion H; subst.
      match goal with |- matching _ _ (?s1 ++ ?s2) _ =>
        apply (matching_cat _ (Ref.Star a) false last s1 s2) end;
        [now apply IHa | assumption].
  - split; intros H; inversion H.
  - split; intros H; inversion H.
Qed.

Lemma matches_matching s : forall first r,
  Ref.matches first r s = true <-> matching r first s true.
Proof.
  induction s as [|c s IH]; intros first r; simpl.
  - apply nullable_matching.
  - rewrite IH. apply derive_matching.
Qed.

Lemma matching_anything first s last :
  matching (Ref.Star (Ref.Sym (fun _ => true))) first s last.
Proof.
  revert first. induction s as [|c s IH]; intros first.
  - constructor.
  - apply (matching_star_more _ first last c EmptyString s); [|apply IH].
    now constructor.
Qed.

(** [test]: some piece of the input matches. *)
Lemma test_matching r s :
  Ref.test r s = true <->
  exists before piece after,
    s = before ++ piece ++ after
    /\ matching r (is_empty before) piece (is_empty after).
Proof.
  unfold Ref.test. rewrite matches_matching. split.
  - intros H. inversion H; subst.
    match goal with X : matching (Ref.Cat r _) _ _ _ |- _ => inversion X; subst end.
    simpl in *. eauto.
  - intros (before & piece & after & -> & H).
    apply (matching_cat _ _ true true before (piece ++ after));
      [apply matching_anything|].
    apply (matching_cat _ _ _ true piece after); simpl;
      [assumption | apply matching_anything].
Qed.

(* ================================================================== *)
(** ** The reference parser on the patterns of templates *)
(* ================================================================== *)

Lemma quantified_nothing atom r :
  quantifier_ahead r = false -> Ref.quantified atom r = Ref.Parsed atom r.
Proof.
  destruct r as [|c r]; [reflexivity|].
  destruct c as [[] [] [] [] [] [] [] []]; try reflexivity; discriminate.
Qed.

Lemma unquantified_nothing r0 r :
  quantifier_ahead r = false -> Ref.unquantified r0 r = Ref.Parsed r0 r.
Proof.
  intros H. unfold Ref.unquantified. rewrite quantified_nothing by assumption.
  now rewrite Nat.eqb_refl.
Qed.

Lemma plain_not_syntax c x :
  occurs c pattern_syntax = false -> occurs x pattern_syntax = true ->
  (c =? x)%char = false.
Proof.
  intros Hc Hx. destruct (c =? x)%char eqn:E; [|reflexivity].
  apply Ascii.eqb_eq in E. subst. congruence.
Qed.

Lemma term_literal fuel c r :
  occurs c pattern_syntax = false ->
  quantifier_ahead r = false ->
  Ref.term (S fuel) (String c r) = Ref.Parsed (Ref.Sym (Ref.is_char c)) r.
Proof.
  intros Hc Hr. cbn [Ref.term].
  rewrite !(plain_not_syntax c) by (assumption || reflexivity).
  cbn [orb]. now apply quantified_nothing.
Qed.

Lemma term_segment_group fuel r :
  quantifier_ahead r = false ->
  Ref.term (5 + fuel) ("([^/]+)" ++ r) = Ref.Parsed segment_group r.
Proof.
  intros Hr. cbn. now rewrite quantified_nothing.
Qed.

Lemma quantifier_ahead_pattern pieces :
  Forall plain_piece pieces ->
  quantifier_ahead (pattern_text pieces ++ "$") = false.
Proof.
  intros H. destruct H as [|[c|name] rest Hp Hrest]; try reflexivity.
  simpl in Hp. cbn [pattern_text append quantifier_ahead].
  now rewrite !(plain_not_syntax c) by (assumption || reflexivity).
Qed.

Lemma alternative_step fuel acc c r :
  (c =? "|")%char || (c =? ")")%char = false ->
  Ref.alternative (S fuel) acc (String c r)
  = Ref.and_then (Ref.term fuel (String c r))
      (fun t rest => Ref.alternative fuel (Ref.Cat acc t) rest).
Proof. intros H. cbn [Ref.alternative]. now rewrite H. Qed.

Lemma alternative_pattern pieces : forall acc fuel,
  Forall plain_piece pieces ->
  (List.length pieces + 7 <= fuel)%nat ->
  Ref.alternative fuel acc (pattern_text pieces ++ "$")
  = Ref.Parsed (Ref.Cat (pieces_regex acc pieces) Ref.Eol) EmptyString.
Proof.
  induction pieces as [|[c|name] rest IH]; intros acc fuel Hplain Hfuel.
  - do 3 (destruct fuel as [|fuel]; [simpl in Hfuel; lia|]). reflexivity.
  - inversion Hplain as [|? ? Hc Hrest]; subst.
    change (occurs c pattern_syntax = false) in Hc.
    cbn [List.length] in Hfuel.
    do 2 (destruct fuel as [|fuel]; [lia|]).
    cbn [pattern_text append].
    rewrite alternative_step
      by (rewrite !(plain_not_syntax c) by (assumption || reflexivity);
          reflexivity).
    rewrite term_literal by (auto using quantifier_ahead_pattern).
    cbn [Ref.and_then pieces_regex].
    apply IH; [assumption | lia].
  - inversion Hplain as [|? ? Hc Hrest]; subst.
    cbn [List.length] in Hfuel.
    do 6 (destruct fuel as [|fuel]; [lia|]).
    cbn [pattern_text].
    rewrite append_assoc.
    change ("([^/]+)" ++ pattern_text rest ++ "$")
      with (String "(" ("[^/]+)" ++ pattern_text rest ++ "$")).
    rewrite alternative_step by reflexivity.
    change (String "(" ("[^/]+)" ++ pattern_text rest ++ "$"))
      with ("([^/]+)" ++ pattern_text rest ++ "$").
    rewrite (term_segment_group fuel)
      by (auto using quantifier_ahead_pattern).
    cbn [Ref.and_then pieces_regex].
    apply IH; [assumption | lia].
Qed.

Lemma pattern_text_length pieces :
  (List.length pieces <= String.length (pattern_text pieces))%nat.
Proof.
  induction pieces as [|[c|name] rest IH]; simpl; lia.
Qed.

Lemma append_length (a b : string) :
  String.length (a ++ b) = (String.length a + String.length b)%nat.
Proof. induction a; simpl; congruence. Qed.

(** The anchored pattern of a plain template is well formed, and the
    reference parser reads it as [anchored_regex]. *)
Lemma RegExp_compile_pattern pieces :
  Forall plain_piece pieces ->
  Ref.RegExp_compile ("^" ++ pattern_text pieces ++ "$")
  = Normal (Ref.test (anchored_regex pieces)).
Proof.
  intros Hplain. unfold Ref.RegExp_compile.
  pose proof (pattern_text_length pieces) as Hlen.
  remember (3 * String.length ("^" ++ pattern_text pieces ++ "$") + 3)%nat
    as fuel eqn:Hfuel.
  assert (Hbig : (List.length pieces + 9 <= fuel)%nat).
  { subst fuel. cbn [append String.length]. rewrite append_length. simpl. lia. }
  clear Hfuel.
  do 3 (destruct fuel as [|fuel]; [lia|]).
  cbn [append Ref.disjunction].
  rewrite alternative_step by reflexivity.
  cbn [Ref.term Ascii.eqb Bool.eqb].
  rewrite unquantified_nothing by (auto using quantifier_ahead_pattern).
  cbn [Ref.and_then].
  rewrite alternative_pattern by (assumption || lia).
  reflexivity.
Qed.

(* ================================================================== *)
(** ** What the pattern of a template matches *)
(* ================================================================== *)

Lemma not_slash_occurs c : not_slash c = true <-> occurs "/" (String c EmptyString) = false.
Proof.
  unfold not_slash, Ref.union, Ref.is_char. simpl.
  rewrite orb_false_r, negb_true_iff, (Ascii.eqb_sym c). tauto.
Qed.

Lemma occurs_append c a b : occurs c (a ++ b) = occurs c a || occurs c b.
Proof. induction a; simpl; [reflexivity | now rewrite IHa, orb_assoc]. Qed.

Lemma matching_sym_inv p first s last :
  matching (Ref.Sym p) first s last ->
  exists c, s = String c EmptyString /\ p c = true.
Proof. intros H. inversion H; subst. eauto. Qed.

Lemma matching_star_not_slash s : forall first last,
  matching (Ref.Star (Ref.Sym not_slash)) first s last
  <-> occurs "/" s = false.
Proof.
  induction s as [|c s IH]; intros first last.
  - split; [reflexivity | constructor].
  - split.
    + intros H. inversion H; subst.
      match goal with X : matching (Ref.Sym _) _ _ _ |- _ =>
        apply matching_sym_inv in X; destruct X as (c' & [= -> ->] & Hc) end.
      apply not_slash_occurs in Hc. simpl in Hc, IH |- *.
      rewrite orb_false_r in Hc. rewrite Hc. simpl.
      eapply IH. eassumption.
    + intros H. simpl in H. apply orb_false_elim in H. destruct H as [Hc Hs].
      apply (matching_star_more _ first last c EmptyString s).
      * constructor. apply not_slash_occurs. simpl. now rewrite Hc.
      * now apply IH.
Qed.

Lemma matching_segment_group first s last :
  matching segment_group first s last
  <-> exists c segment, s = String c segment /\ occurs "/" (String c segment) = false.
Proof.
  unfold segment_group. split.
  - intros H. inversion H; subst.
    match goal with X : matching Ref.Eps _ _ _ |- _ =>
      apply matching_eps_inv in X; subst end.
    match goal with X : matching (Ref.Cat _ _) _ _ _ |- _ => inversion X; subst end.
    match goal with X : matching (Ref.Sym _) _ _ _ |- _ =>
      apply matching_sym_inv in X; destruct X as (c & -> & Hc) end.
    match goal with X : matching (Ref.Star _) _ _ _ |- _ =>
      apply matching_star_not_slash in X; rename X into Hs end.
    simpl. do 2 eexists. split; [reflexivity|].
    apply not_slash_occurs in Hc. simpl in Hc |- *.
    rewrite orb_false_r in Hc. now rewrite Hc.
  - intros (c & segment & -> & H).
    simpl in H. apply orb_false_elim in H. destruct H as [Hc Hs].
    apply (matching_cat _ _ first last EmptyString (String c segment));
      [constructor|].
    apply (matching_cat _ _ _ last (String c EmptyString) segment).
    + constructor. apply not_slash_occurs. simpl. now rewrite Hc.
    + now apply matching_star_not_slash.
Qed.

Lemma fills_nil_inv s : fills [] s -> s = EmptyString.
Proof. intros H. now inversion H. Qed.

(** The terms of a template after [acc]: [acc] matches a first part of
    the piece and the template is filled by the rest. *)
Lemma matching_pieces pieces : forall acc first s last,
  matching (pieces_regex acc pieces) first s last
  <-> exists s0 s1,
        s = s0 ++ s1
        /\ matching acc first s0 (last && is_empty s1)
        /\ fills pieces s1.
Proof.
  induction pieces as [|[c|name] rest IH]; intros acc first s last;
    cbn [pieces_regex].
  - split.
    + intros H. exists s, EmptyString. rewrite append_empty_r. simpl.
      rewrite andb_true_r. repeat split; [assumption | constructor].
    + intros (s0 & s1 & -> & H & F). apply fills_nil_inv in F. subst s1.
      rewrite append_empty_r. simpl in H. now rewrite andb_true_r in H.
  - rewrite IH. split.
    + intros (s0 & s1 & -> & H & F).
      inversion H; subst.
      match goal with X : matching (Ref.Sym _) _ _ _ |- _ =>
        apply matching_sym_inv in X; destruct X as (c' & -> & Hc) end.
      unfold Ref.is_char in Hc. apply Ascii.eqb_eq in Hc. subst c'.
      match goal with X : matching acc _ ?a _ |- _ =>
        exists a, (String c s1) end.
      rewrite append_assoc. simpl in *.
      rewrite andb_false_r in *.
      repeat split; [assumption | now constructor].
    + intros (s0 & s1 & -> & H & F). inversion F; subst.
      match goal with X : fills rest ?t |- _ =>
        exists (s0 ++ String c EmptyString), t end.
      rewrite append_assoc. simpl. split; [reflexivity|]. split; [|assumption].
      apply (matching_cat acc _ first _ s0 (String c EmptyString)).
      * simpl in *. now rewrite andb_false_r in *.
      * constructor. apply Ascii.eqb_refl.
  - rewrite IH. split.
    + intros (s0 & s1 & -> & H & F).
      inversion H; subst.
      match goal with X : matching segment_group _ _ _ |- _ =>
        apply matching_segment_group in X;
        destruct X as (c & segment & -> & Hseg) end.
      match goal with X : matching acc _ ?a _ |- _ =>
        exists a, (String c segment ++ s1) end.
      rewrite append_assoc. simpl in *.
      rewrite andb_false_r in *.
      repeat split; [assumption | now constructor].
    + intros (s0 & s1 & -> & H & F). inversion F; subst.
      match goal with X : fills rest ?t |- _ =>
        exists (s0 ++ String c segment), t end.
      rewrite append_assoc. split; [reflexivity|]. split; [|assumption].
      apply (matching_cat acc _ first _ s0 (String c segment)).
      * simpl in *. now rewrite andb_false_r in *.
      * apply matching_segment_group. eauto.
Qed.

Lemma matching_cat_inv a b first s last :
  matching (Ref.Cat a b) first s last ->
  exists s1 s2,
    s = s1 ++ s2
    /\ matching a first s1 (last && is_empty s2)
    /\ matching b (first && is_empty s1) s2 last.
Proof. intros H. inversion H; subst. eauto. Qed.

Lemma matching_bol_inv first s last :
  matching Ref.Bol first s last -> s = EmptyString /\ first = true.
Proof. intros H. now inversion H. Qed.

Lemma matching_eol_inv first s last :
  matching Ref.Eol first s last -> s = EmptyString /\ last = true.
Proof. intros H. now inversion H. Qed.

(** The anchored pattern matches a piece of the input exactly when the
    piece is the whole input and fills the template. *)
Lemma matching_anchored pieces first s last :
  matching (anchored_regex pieces) first s last
  <-> first = true /\ last = true /\ fills pieces s.
Proof.
  unfold anchored_regex. split.
  - intros H.
    apply matching_cat_inv in H. destruct H as (sa & sb & -> & Ha & Hb).
    apply matching_eol_inv in Hb. destruct Hb as [-> ->].
    apply matching_pieces in Ha. destruct Ha as (s0 & s1 & -> & Hc & F).
    apply matching_cat_inv in Hc. destruct Hc as (x & y & -> & Hx & Hy).
    apply matching_eps_inv in Hx. subst x.
    apply matching_bol_inv in Hy. destruct Hy as [-> Hf].
    simpl in Hf. rewrite andb_true_r in Hf. subst first.
    simpl. rewrite append_empty_r. auto.
  - intros (-> & -> & F).
    rewrite <- (append_empty_r s).
    apply (matching_cat _ _ true true s EmptyString).
    + apply matching_pieces. exists EmptyString, s. simpl.
      split; [reflexivity|]. split; [|assumption].
      apply (matching_cat _ _ true _ EmptyString EmptyString); constructor.
    + constructor.
Qed.

Lemma replace_template_text pieces :
  Forall plain_piece pieces ->
  replace_placeholders (template_text pieces) = pattern_text pieces.
Proof.
  induction 1 as [|[c|name] rest Hp Hrest IH]; [reflexivity| |].
  - change (occurs c pattern_syntax = false) in Hp.
    cbn [template_text pattern_text].
    rewrite replace_placeholders_step.
    + now rewrite IH.
    + apply match_placeholder_other.
      apply plain_not_syntax; [assumption | reflexivity].
  - destruct Hp as [Hne Hclose].
    cbn [template_text pattern_text].
    rewrite (replace_placeholders_match _ (template_text rest)).
    + now rewrite IH.
    + now apply match_placeholder_braces.
Qed.

Lemma is_empty_true s : is_empty s = true -> s = EmptyString.
Proof. destruct s; [reflexivity | discriminate]. Qed.

(** On the reference runtime, a plain template matches a URI exactly
    when the URI is the template with every placeholder filled by one
    or more characters other than a slash; compiling its pattern never
    fails. *)
Theorem plain_template_matching pieces uri :
  Forall plain_piece pieces ->
  exists b,
    matchesTemplate (RT := Ref.runtime) (VStr uri) (template_text pieces)
    = Normal b
    /\ (b = true <-> fills pieces uri).
Proof.
  intros Hplain.
  rewrite matchesTemplate_string, replace_template_text by assumption.
  change (@RegExp_compile Ref.runtime) with Ref.RegExp_compile.
  rewrite RegExp_compile_pattern by assumption.
  eexists. split; [reflexivity|].
  rewrite test_matching. split.
  - intros (before & piece & after & -> & H).
    apply matching_anchored in H. destruct H as (Hb & Ha & F).
    apply is_empty_true in Hb, Ha. subst. simpl.
    now rewrite append_empty_r.
  - intros F. exists EmptyString, uri, EmptyString.
    rewrite append_empty_r. split; [reflexivity|].
    apply matching_anchored. auto.
Qed.

(* ================================================================== *)
(** ** Template matching *)
(* ================================================================== *)

(** C8, as the code has it.  A placeholder is an opening brace, one or
    more characters other than a closing brace, and a closing brace.
    Template matching copies the text before the first placeholder,
    puts the greedy group [([^/]+)] -- one or more characters other than
    a slash -- in its place, and goes on after it; text without an
    opening brace is left as it is.  The result is put between [^] and
    [$] and the candidate URI is tested against that regular expression.
    On the reference runtime, when no literal character of the template
    has a meaning of its own in a pattern, the test succeeds exactly
    when the whole URI is the template with every placeholder filled by
    one or more characters other than a slash.  For a URI that is not a
    key of the handler map, a registered template that matches is the
    one selected when no entry before it in the iteration order of the
    handler map matches; its handler is awaited with the URI itself.
    For the template [logs://{date}/{level}] and the URI
    [logs://2024-01-15/error] the pattern is [logs://([^/]+)/([^/]+)],
    it matches, and the handler of the template is invoked with the
    string [logs://2024-01-15/error]. *)
Theorem template_matching {RT : Runtime} :
  (forall pre name rest,
     occurs "{" pre = false -> name <> EmptyString -> occurs "}" name = false ->
     replace_placeholders (pre ++ String "{" (name ++ String "}" rest))
     = pre ++ "([^/]+)" ++ replace_placeholders rest)
  /\ (forall text, occurs "{" text = false -> replace_placeholders text = text)
  /\ (forall uri template,
        matchesTemplate (VStr uri) template =
          match RegExp_compile ("^" ++ replace_placeholders template ++ "$") with
          | Normal regex => Normal (regex uri)
          | Throw t => Throw t
          end)
  /\ (forall pieces uri,
        Forall plain_piece pieces ->
        exists b,
          matchesTemplate (RT := Ref.runtime) (VStr uri) (template_text pieces)
          = Normal b
          /\ (b = true <-> fills pieces uri))
  /\ (forall s uri before template descriptor h after,
        uri <> EmptyString ->
        Map_get uri (resourceHandlers s) = None ->
        Map_get template (resourceTemplates s) = Some descriptor ->
        Map_entries (resourceHandlers s) = (before ++ (template, h) :: after)%list ->
        (forall k h', In (k, h') before ->
                      matchesTemplate (VStr uri) k = Normal false) ->
        matchesTemplate (VStr uri) template = Normal true ->
        handleResourceRead (VObj [("uri", VStr uri)]) s
        = (contents_of (h (VStr uri)), s, [Invoked h (VStr uri)]))
  /\ (let s := addResourceTemplate
                 (Sample.template "logs://{date}/{level}" "Log Files")
                 (Sample.tagged "logs") Sample.server in
      replace_placeholders "logs://{date}/{level}" = "logs://([^/]+)/([^/]+)"
      /\ matchesTemplate (RT := Ref.runtime)
           (VStr "logs://2024-01-15/error") "logs://{date}/{level}" = Normal true
      /\ calls_of (handleResourceRead (RT := Ref.runtime)
                     (VObj [("uri", VStr "logs://2024-01-15/error")]) s)
         = [Invoked (Sample.tagged "logs") (VStr "logs://2024-01-15/error")]).
Proof.
  split; [exact replace_placeholders_first|].
  split; [exact replace_placeholders_literal|].
  split; [exact matchesTemplate_string|].
  split; [exact plain_template_matching|].
  split; [|repeat split].
  intros s uri before template descriptor h after Hne Hg _ He Hb Hm.
  assert (Hu : truthy (VStr uri) = true) by (destruct uri; simpl; congruence).
  rewrite handleResourceRead_fallback; cbn [get_prop own_prop String.eqb];
    rewrite ?String.eqb_refl; auto.
  rewrite He, (first_matching_found _ _ _ _ _ Hb Hm). reflexivity.
Qed.

Lemma template_matching_witness :
  occurs "{" "logs://" = false
  /\ "date" <> EmptyString
  /\ occurs "}" "date" = false
  /\ replace_placeholders "logs://{date}/{level}"
     = "logs://" ++ "([^/]+)" ++ replace_placeholders "/{level}".
Proof.
  assert (Hne : "date" <> EmptyString) by discriminate.
  repeat (split; [first [reflexivity | exact Hne]|]).
  exact (proj1 (template_matching (RT := Ref.runtime))
           "logs://" "date" "/{level}" eq_refl Hne eq_refl).
Defined.

(** C8 fails as stated.  The pattern that takes the place of a
    placeholder is the greedy [([^/]+)], not a non-greedy one: on the
    template [logs://{date}/{level}] the code and the specification
    build different patterns. *)
Lemma placeholder_pattern_is_greedy :
  replace_placeholders "logs://{date}/{level}" = "logs://([^/]+)/([^/]+)"
  /\ spec_replace_placeholders "logs://{date}/{level}" = "logs://([^/]+?)/([^/]+?)"
  /\ replace_placeholders "logs://{date}/{level}"
     <> spec_replace_placeholders "logs://{date}/{level}".
Proof. repeat split. discriminate. Qed.

(* ================================================================== *)
(** ** One handler map for resources and templates *)
(* ================================================================== *)

Lemma Map_set_entries_unique {V : Type} (k : string) (v : V) (m : Map V) :
  Map_wf m ->
  filter (fun kv => fst kv =? k) (Map_entries (Map_set k v m)) = [(k, v)].
Proof.
  unfold Map_wf, Map_entries.
  induction m as [|[k' v'] rest IH]; simpl; intros Hwf.
  - now rewrite String.eqb_refl.
  - inversion Hwf as [|? ? Hnin Hwf']; subst.
    destruct (k' =? k) eqn:E; simpl; rewrite E.
    + apply String.eqb_eq in E. subst k'. f_equal.
      clear IH Hwf Hwf'.
      induction rest as [|[k1 v1] rest IH]; simpl; auto.
      destruct (k1 =? k) eqn:E1.
      * apply String.eqb_eq in E1. subst k1. simpl in Hnin. tauto.
      * apply IH. simpl in Hnin. tauto.
    + now apply IH.
Qed.

Section SharedHandlers.
Context {RT : Runtime}.

(** Reading a non-empty URI that is a key of the handler map. *)
Lemma read_key_calls s uri h :
  uri <> EmptyString ->
  Map_get uri (resourceHandlers s) = Some h ->
  calls_of (handleResourceRead (VObj [("uri", VStr uri)]) s)
  = [Invoked h (VStr uri)].
Proof.
  intros Hne Hg.
  rewrite (handleResourceRead_exact _ _ h); cbn [get_prop own_prop String.eqb];
    rewrite ?String.eqb_refl; auto.
  destruct uri; simpl; congruence.
Qed.

End SharedHandlers.

(** C10. Resources and templates share the one map [resourceHandlers],
    keyed by the URI or the template string.  After a resource and a
    template have been registered under the same key, in either order,
    both descriptors are listed, the handler map has a single entry
    under the key, it carries the handler of the later registration, and
    reading the key invokes that handler.  The fallback of
    [resources/read] iterates this same map: in the server below the
    resource [docs://v1.0/readme] was registered before the template
    [docs://{version}/readme]; the URI [docs://v1x0/readme] is no key,
    the URI of the resource read as a pattern matches it, the template
    matches it too, and the handler of the resource is the one
    invoked. *)
Theorem resources_and_templates_share_handlers {RT : Runtime} :
  (forall s r hR t hT,
     Map_wf (resourceHandlers s) ->
     res_uri r = tmpl_uriTemplate t ->
     res_uri r <> EmptyString ->
     let key := res_uri r in
     let template_last := addResourceTemplate t hT (addResource r hR s) in
     let resource_last := addResource r hR (addResourceTemplate t hT s) in
     (Map_get key (resources template_last) = Some r
      /\ Map_get key (resourceTemplates template_last) = Some t
      /\ filter (fun kv => fst kv =? key)
           (Map_entries (resourceHandlers template_last)) = [(key, hT)]
      /\ calls_of (handleResourceRead (VObj [("uri", VStr key)]) template_last)
         = [Invoked hT (VStr key)])
     /\ (Map_get key (resources resource_last) = Some r
         /\ Map_get key (resourceTemplates resource_last) = Some t
         /\ filter (fun kv => fst kv =? key)
              (Map_entries (resourceHandlers resource_last)) = [(key, hR)]
         /\ calls_of (handleResourceRead (VObj [("uri", VStr key)]) resource_last)
            = [Invoked hR (VStr key)]))
  /\ (let s := addResourceTemplate
                 (Sample.template "docs://{version}/readme" "Readme")
                 (Sample.tagged "template")
                 (addResource (Sample.resource "docs://v1.0/readme" "Readme 1.0")
                    (Sample.tagged "resource") Sample.server) in
      let uri := "docs://v1x0/readme" in
      Map_entries (resourceHandlers s)
      = [("docs://v1.0/readme", Sample.tagged "resource");
         ("docs://{version}/readme", Sample.tagged "template")]
      /\ Map_get uri (resourceHandlers s) = None
      /\ matchesTemplate (RT := Ref.runtime) (VStr uri) "docs://v1.0/readme"
         = Normal true
      /\ matchesTemplate (RT := Ref.runtime) (VStr uri) "docs://{version}/readme"
         = Normal true
      /\ handleResourceRead (RT := Ref.runtime) (VObj [("uri", VStr uri)]) s
         = (Normal (VObj [("contents",
                           VArr [VObj [("handledBy", VStr "resource");
                                       ("input", VStr uri)]])]),
            s, [Invoked (Sample.tagged "resource") (VStr uri)])).
Proof.
  split; [|repeat split].
  intros s r hR t hT Hwf Hkey Hne key template_last resource_last.
  subst key template_last resource_last. split.
  - split; [apply Map_get_set_same|].
    split; [simpl; rewrite Hkey; apply Map_get_set_same|].
    split.
    + simpl. rewrite Hkey. apply Map_set_entries_unique.
      now apply Map_set_wf.
    + apply read_key_calls; auto.
      simpl. rewrite Hkey. apply Map_get_set_same.
  - split; [apply Map_get_set_same|].
    split; [simpl; rewrite Hkey; apply Map_get_set_same|].
    split.
    + simpl. apply Map_set_entries_unique. now apply Map_set_wf.
    + apply read_key_calls; auto.
      simpl. apply Map_get_set_same.
Qed.

Lemma resources_and_templates_share_handlers_witness :
  let r := Sample.resource "cfg://app" "Configuration" in
  let t := Sample.template "cfg://app" "Configuration by template" in
  let s := addResourceTemplate t (Sample.tagged "template")
             (addResource r (Sample.tagged "resource") Sample.server) in
  Map_wf (resourceHandlers Sample.server)
  /\ res_uri r = tmpl_uriTemplate t
  /\ res_uri r <> EmptyString
  /\ calls_of (handleResourceRead (RT := Ref.runtime)
                 (VObj [("uri", VStr "cfg://app")]) s)
     = [Invoked (Sample.tagged "template") (VStr "cfg://app")].
Proof.
  intros r t s.
  assert (Hwf : Map_wf (resourceHandlers Sample.server)) by apply NoDup_nil.
  assert (Hne : res_uri r <> EmptyString) by discriminate.
  split; [exact Hwf|]. split; [reflexivity|]. split; [exact Hne|].
  destruct (proj1 (resources_and_templates_share_handlers (RT := Ref.runtime))
              Sample.server r (Sample.tagged "resource")
              t (Sample.tagged "template") Hwf eq_refl Hne)
    as ((_ & _ & _ & Hcalls) & _).
  exact Hcalls.
Defined.

(* ================================================================== *)
(** ** Resolution order of [resources/read] *)
(* ================================================================== *)

(** C1, the code at two inputs.  First: the only registration is the
    resource [file:///config.json]; no template exists.  The URI
    [file:///configXjson] is not registered, yet the call does not fail
    with [Resource not found]: the loop reads the key of the resource as
    a pattern, its dot matches the [X], and the handler of the resource
    is invoked with the foreign URI.  Second: a resource and, after it,
    a template are registered under the key [status://now]; reading
    [status://now], which is an exact key of the resource registry,
    invokes the handler of the template. *)
Theorem resource_read_at_the_failing_inputs :
  (let s := addResource (Sample.resource "file:///config.json" "Configuration")
              (Sample.tagged "config") Sample.server in
   let body := json_text
     "{'jsonrpc':'2.0','id':1,'method':'resources/read','params':{'uri':'file:///configXjson'}}" in
   Map_get "file:///configXjson" (resources s) = None
   /\ resourceTemplates s = []
   /\ handleJsonRpcRequest (RT := Ref.runtime) body s
      = (success_envelope (VNum (Decimal 1 0))
           (VObj [("contents",
                   VArr [VObj [("handledBy", VStr "config");
                               ("input", VStr "file:///configXjson")]])]),
         s, [Invoked (Sample.tagged "config") (VStr "file:///configXjson")]))
  /\ (let s := addResourceTemplate (Sample.template "status://now" "Status template")
                 (Sample.tagged "template")
                 (addResource (Sample.resource "status://now" "Status")
                    (Sample.tagged "resource") Sample.server) in
      let body := json_text
        "{'jsonrpc':'2.0','id':2,'method':'resources/read','params':{'uri':'status://now'}}" in
      Map_get "status://now" (resources s)
      = Some (Sample.resource "status://now" "Status")
      /\ handleJsonRpcRequest (RT := Ref.runtime) body s
         = (success_envelope (VNum (Decimal 2 0))
              (VObj [("contents",
                      VArr [VObj [("handledBy", VStr "template");
                                  ("input", VStr "status://now")]])]),
            s, [Invoked (Sample.tagged "template") (VStr "status://now")])).
Proof. repeat split. Qed.

(* ================================================================== *)
(** ** The test suite of the repository, replayed *)
(* ================================================================== *)

(** The POST cases of [__tests__/server.test.ts] and the end-to-end
    example of the specification, run on the reference runtime. *)

Example replay_initialize :
  outcome_of (Fixture.run (json_text "{'jsonrpc':'2.0','id':1,'method':'initialize','params':{}}")
                Fixture.server)
  = success_envelope (VNum (Decimal 1 0))
      (VObj [("protocolVersion", VStr "2024-11-05");
             ("capabilities",
              VObj [("tools", VObj []); ("resources", VObj []);
                    ("prompts", VObj []); ("sampling", VObj [])]);
             ("serverInfo",
              VObj [("name", VStr "test-server"); ("version", VStr "1.0.0")])]).
Proof. reflexivity. Qed.

Example replay_tools_list :
  outcome_of (Fixture.run (json_text "{'jsonrpc':'2.0','id':1,'method':'tools/list'}")
                (addTool Fixture.test_tool (Fixture.resolves VUndefined)
                   Fixture.server))
  = success_envelope (VNum (Decimal 1 0))
      (VObj [("tools", VArr [MCPTool_object Fixture.test_tool])]).
Proof. reflexivity. Qed.

Example replay_tools_call :
  let h := Fixture.resolves Fixture.success in
  Fixture.run (json_text "{'jsonrpc':'2.0','id':1,'method':'tools/call','params':{'name':'test-tool','arguments':{'input':'test'}}}")
      (addTool Fixture.test_tool h Fixture.server)
  = (success_envelope (VNum (Decimal 1 0)) Fixture.success,
     addTool Fixture.test_tool h Fixture.server,
     [Invoked h (VObj [("input", VStr "test")])]).
Proof. reflexivity. Qed.

Example replay_empty_body :
  resp_status (outcome_of (Fixture.run EmptyString Fixture.server)) = 500%Z
  /\ outcome_of (Fixture.run EmptyString Fixture.server)
     = error_envelope "Empty request body".
Proof. split; reflexivity. Qed.

Example replay_invalid_json :
  resp_status (outcome_of (Fixture.run "invalid json" Fixture.server)) = 500%Z.
Proof. reflexivity. Qed.

Example replay_unknown_method :
  outcome_of (Fixture.run (json_text "{'jsonrpc':'2.0','id':1,'method':'unknown/method'}")
                Fixture.server)
  = error_envelope "Unknown method: unknown/method".
Proof. reflexivity. Qed.

Example replay_notifications_initialized :
  outcome_of (Fixture.run (json_text "{'jsonrpc':'2.0','method':'notifications/initialized'}")
                Fixture.server)
  = no_content.
Proof. reflexivity. Qed.

Example replay_resources_list :
  outcome_of (Fixture.run (json_text "{'jsonrpc':'2.0','id':1,'method':'resources/list'}")
                (addResource Fixture.test_resource (Fixture.resolves VUndefined)
                   Fixture.server))
  = success_envelope (VNum (Decimal 1 0))
      (VObj [("resources",
              VArr [VObj [("uri", VStr "test://resource");
                          ("name", VStr "Test Resource");
                          ("description", VStr "A test resource");
                          ("mimeType", VStr "text/plain")]])]).
Proof. reflexivity. Qed.

Example replay_resource_templates_list :
  outcome_of (Fixture.run (json_text "{'jsonrpc':'2.0','id':1,'method':'resources/templates/list'}")
                (addResourceTemplate Fixture.test_template
                   (Fixture.resolves VUndefined) Fixture.server))
  = success_envelope (VNum (Decimal 1 0))
      (VObj [("resourceTemplates",
              VArr [MCPResourceTemplate_object Fixture.test_template])]).
Proof. reflexivity. Qed.

Example replay_resources_read :
  let h := Fixture.resolves Fixture.content in
  calls_of (Fixture.run (json_text "{'jsonrpc':'2.0','id':1,'method':'resources/read','params':{'uri':'test://resource'}}")
              (addResource Fixture.test_resource h Fixture.server))
  = [Invoked h (VStr "test://resource")].
Proof. reflexivity. Qed.

Example replay_resources_read_template :
  let h := Fixture.resolves Fixture.content in
  Fixture.run (json_text "{'jsonrpc':'2.0','id':1,'method':'resources/read','params':{'uri':'test://123'}}")
      (addResourceTemplate Fixture.test_template h Fixture.server)
  = (success_envelope (VNum (Decimal 1 0))
       (VObj [("contents", VArr [Fixture.content])]),
     addResourceTemplate Fixture.test_template h Fixture.server,
     [Invoked h (VStr "test://123")]).
Proof. reflexivity. Qed.

Example replay_missing_uri :
  outcome_of (Fixture.run (json_text "{'jsonrpc':'2.0','id':1,'method':'resources/read','params':{}}")
                Fixture.server)
  = error_envelope "URI is required for resource read".
Proof. reflexivity. Qed.

Example replay_unknown_resource :
  outcome_of (Fixture.run (json_text "{'jsonrpc':'2.0','id':1,'method':'resources/read','params':{'uri':'unknown://resource'}}")
                Fixture.server)
  = error_envelope "Resource not found: unknown://resource".
Proof. reflexivity. Qed.

Example replay_echo :
  outcome_of (Fixture.run (json_text "{'jsonrpc':'2.0','id':1,'method':'tools/call','params':{'name':'echo','arguments':{'message':'hi'}}}")
                (addTool (Sample.tool "Echo a message") Fixture.echo
                   Fixture.server))
  = success_envelope (VNum (Decimal 1 0))
      (VObj [("content",
              VArr [VObj [("type", VStr "text"); ("text", VStr "Echo: hi")]])]).
Proof. reflexivity. Qed.

(* ================================================================== *)
(** ** The routines behind the method table, end to end *)
(* ================================================================== *)

Lemma register_identity s r :
  serverInfo (register s r) = serverInfo s
  /\ capabilities (register s r) = capabilities s.
Proof. destruct r; simpl; auto. Qed.

Lemma register_all_identity rs : forall s,
  serverInfo (register_all s rs) = serverInfo s
  /\ capabilities (register_all s rs) = capabilities s.
Proof.
  unfold register_all.
  induction rs as [|r rs IH]; simpl; intros s; auto.
  destruct (IH (register s r)) as [-> ->]. apply register_identity.
Qed.

Section Methods.
Context {RT : Runtime}.

(** A decoded message whose routine awaits nothing and leaves the
    server alone. *)
Lemma handleJsonRpcRequest_result body s request result :
  decode body = Normal request ->
  processJsonRpcMethod request s = (Normal result, s, []) ->
  is_null result = false ->
  handleJsonRpcRequest body s =
    (success_envelope (nullish_coalesce (req_id request) VNull) result, s, []).
Proof.
  intros Hd Hp Hn. rewrite (handleJsonRpcRequest_decoded _ _ _ Hd), Hp.
  now rewrite Hn.
Qed.

Lemma handleJsonRpcRequest_thrown body s s' request t calls :
  decode body = Normal request ->
  processJsonRpcMethod request s = (Throw t, s', calls) ->
  handleJsonRpcRequest body s = (error_envelope (error_message t), s', calls).
Proof.
  intros Hd Hp. now rewrite (handleJsonRpcRequest_decoded _ _ _ Hd), Hp.
Qed.

End Methods.

(** X1. [initialize] answers with the protocol version [2024-11-05],
    the capabilities and the identity that the constructor was given,
    whatever has been registered since and whatever the parameters of
    the message are; it awaits no handler and leaves the server as it
    was. *)
Theorem initialize_reports_the_constructor_arguments {RT : Runtime}
  (info : MCPServerInfo) (caps : option MCPCapabilities)
  (rs : list registration) (body : string) (request : JsonRpcRequest)
  (Hdecode : decode body = Normal request)
  (Hmethod : req_method request = "initialize") :
  let s := register_all (new_MCPServer info caps) rs in
  handleJsonRpcRequest body s =
    (success_envelope (nullish_coalesce (req_id request) VNull)
       (VObj [("protocolVersion", VStr "2024-11-05");
              ("capabilities",
               MCPCapabilities_object
                 (match caps with
                  | Some c => c
                  | None => default_capabilities
                  end));
              ("serverInfo", MCPServerInfo_object info)]),
     s, []).
Proof.
  intros s.
  apply handleJsonRpcRequest_result with (request := request); auto.
  unfold processJsonRpcMethod. rewrite Hmethod. simpl.
  unfold handleInitialize, bind, this_server, ret. simpl.
  subst s. destruct (register_all_identity rs (new_MCPServer info caps)) as [-> ->].
  reflexivity.
Qed.

Lemma initialize_reports_the_constructor_arguments_witness :
  let body := json_text "{'jsonrpc':'2.0','id':7,'method':'initialize','params':{'x':1}}" in
  let s := register_all (new_MCPServer Sample.info None)
             [RegTool (Sample.tool "Echo") (Sample.tagged "echo");
              RegPrompt (Sample.prompt []) (Sample.tagged "prompt");
              RegSampling (Sample.tagged "sampling")] in
  handleJsonRpcRequest (RT := Ref.runtime) body s =
    (success_envelope (VNum (Decimal 7 0))
       (VObj [("protocolVersion", VStr "2024-11-05");
              ("capabilities", VObj [("tools", VObj [])]);
              ("serverInfo", VObj [("name", VStr "test-server");
                                   ("version", VStr "1.0.0")])]),
     s, []).
Proof.
  intros body s.
  exact (initialize_reports_the_constructor_arguments (RT := Ref.runtime)
           Sample.info None _ body
           {| req_jsonrpc := "2.0"; req_id := VNum (Decimal 7 0);
              req_method := "initialize";
              req_params := VObj [("x", VNum (Decimal 1 0))] |}
           eq_refl eq_refl).
Defined.



(** X3. [logging/setLevel] stores whatever truthy value [params.level]
    holds (it is not compared with the level names of [types.ts]) and
    answers with an empty object; with a falsy or missing level it
    answers with the error envelope and the level stays as it was.  No
    handler is awaited either way. *)
Theorem set_level_stores_any_truthy_level {RT : Runtime}
  (s : MCPServer) (body : string) (request : JsonRpcRequest)
  (Hdecode : decode body = Normal request)
  (Hmethod : req_method request = "logging/setLevel")
  (Hparams : is_nullish (req_params request) = false) :
  let level := get_prop (req_params request) "level" in
  handleJsonRpcRequest body s =
    if truthy level
    then (success_envelope (nullish_coalesce (req_id request) VNull) (VObj []),
          setLogLevel level s, [])
    else (error_envelope "Log level is required", s, []).
Proof.
  intros level.
  rewrite (handleJsonRpcRequest_decoded _ _ _ Hdecode).
  unfold processJsonRpcMethod. rewrite Hmethod. simpl.
  unfold handleSetLogLevel, object_coercible, bind. rewrite Hparams. simpl.
  fold level. now destruct (truthy level).
Qed.

Lemma set_level_stores_any_truthy_level_witness :
  let body :=
    json_text "{'jsonrpc':'2.0','id':1,'method':'logging/setLevel','params':{'level':42}}" in
  handleJsonRpcRequest (RT := Ref.runtime) body Sample.server =
    (success_envelope (VNum (Decimal 1 0)) (VObj []),
     setLogLevel (VNum (Decimal 42 0)) Sample.server, []).
Proof.
  intros body.
  exact (set_level_stores_any_truthy_level (RT := Ref.runtime)
           Sample.server body
           {| req_jsonrpc := "2.0"; req_id := VNum (Decimal 1 0);
              req_method := "logging/setLevel";
              req_params := VObj [("level", VNum (Decimal 42 0))] |}
           eq_refl eq_refl eq_refl).
Defined.

(** X4. The four methods that take [params] apart with a destructuring
    pattern ([tools/call], [resources/read], [prompts/get],
    [logging/setLevel]) are answered, when [params] is absent or
    [null], by the error envelope carrying the message of the engine's
    [TypeError] for the first property of the pattern; no handler is
    awaited and the server stays as it was. *)
Theorem absent_params_is_a_type_error {RT : Runtime}
  (s : MCPServer) (body : string) (request : JsonRpcRequest) (k : string)
  (Hdecode : decode body = Normal request)
  (Hparams : is_nullish (req_params request) = true)
  (Hmethod : In (req_method request, k) destructuring_methods) :
  handleJsonRpcRequest body s =
    (error_envelope
       (error_message (TypeError_nullish Destructuring k (req_params request))),
     s, []).
Proof.
  apply handleJsonRpcRequest_thrown with (request := request); auto.
  unfold processJsonRpcMethod.
  simpl in Hmethod.
  destruct Hmethod as [H|[H|[H|[H|[]]]]]; injection H as Hm <-; rewrite <- Hm; simpl.
  - unfold handleToolCall, object_coercible, bind. now rewrite Hparams.
  - unfold handleResourceRead, object_coercible, bind. now rewrite Hparams.
  - unfold handlePromptGet, object_coercible, bind. now rewrite Hparams.
  - unfold handleSetLogLevel, object_coercible, bind. now rewrite Hparams.
Qed.

Lemma absent_params_is_a_type_error_witness :
  let body := json_text "{'jsonrpc':'2.0','id':1,'method':'resources/read'}" in
  handleJsonRpcRequest (RT := Ref.runtime) body Sample.server =
    (error_envelope
       "Cannot destructure property 'uri' of 'params' as it is undefined.",
     Sample.server, []).
Proof.
  intros body.
  exact (absent_params_is_a_type_error (RT := Ref.runtime)
           Sample.server body
           {| req_jsonrpc := "2.0"; req_id := VNum (Decimal 1 0);
              req_method := "resources/read"; req_params := VUndefined |}
           "uri" eq_refl eq_refl (or_intror (or_introl eq_refl))).
Defined.

(* ================================================================== *)
(** ** The order of listings *)
(* ================================================================== *)





Lemma keyed_by_keys {V : Type} (key : V -> string) (m : Map V) :
  keyed_by key m -> map key (Map_values m) = Map_keys m.
Proof.
  unfold Map_values, Map_keys.
  induction m as [|[k v] rest IH]; simpl; intros Hk; [reflexivity|].
  f_equal.
  - apply Hk. now left.
  - apply IH. intros k0 v0 H0. apply Hk. now right.
Qed.



(* ================================================================== *)
(** ** The log level is written, never read *)
(* ================================================================== *)

Section LogLevel.
Context {RT : Runtime}.

(** Case analysis on a scrutinee that holds no case analysis itself. *)
Ltac innermost_case :=
  match goal with
  | |- context [match ?x with _ => _ end] =>
      first [ match x with context [match _ with _ => _ end] => fail 2 end
            | destruct x; simpl ]
  end.

Ltac blind_steps :=
  intros s level;
  unfold bind, object_coercible, this_server, lift, throw_Error, throw, ret,
    await_call, this_setLogLevel, outcome_of, calls_of;
  simpl;
  repeat innermost_case;
  auto.

Lemma level_blind_handleInitialize params : level_blind (handleInitialize params).
Proof. unfold handleInitialize. blind_steps. Qed.

Lemma level_blind_handleToolCall params : level_blind (handleToolCall params).
Proof. unfold handleToolCall. blind_steps. Qed.

Lemma level_blind_handleResourceRead params : level_blind (handleResourceRead params).
Proof. unfold handleResourceRead. blind_steps. Qed.

Lemma level_blind_handlePromptGet params : level_blind (handlePromptGet params).
Proof. unfold handlePromptGet. blind_steps. Qed.

Lemma level_blind_handleSampling params : level_blind (handleSampling params).
Proof. unfold handleSampling. blind_steps. Qed.

Lemma level_blind_handleSetLogLevel params : level_blind (handleSetLogLevel params).
Proof. unfold handleSetLogLevel. blind_steps. Qed.

Lemma level_blind_processJsonRpcMethod request :
  level_blind (processJsonRpcMethod request).
Proof.
  unfold processJsonRpcMethod.
  repeat match goal with
         | |- level_blind (if ?b then _ else _) => destruct b
         end;
    auto using level_blind_handleInitialize, level_blind_handleToolCall,
      level_blind_handleResourceRead, level_blind_handlePromptGet,
      level_blind_handleSampling, level_blind_handleSetLogLevel.
  all: try solve [unfold handleResourcesList, handleResourceTemplatesList,
                    handlePromptsList; blind_steps].
Qed.

Lemma level_blind_handleJsonRpcRequest body s level :
  outcome_of (handleJsonRpcRequest body (setLogLevel level s))
    = outcome_of (handleJsonRpcRequest body s)
  /\ calls_of (handleJsonRpcRequest body (setLogLevel level s))
    = calls_of (handleJsonRpcRequest body s).
Proof.
  destruct (decode body) as [request|t] eqn:Hd.
  - rewrite !(handleJsonRpcRequest_decoded _ _ request Hd).
    destruct (level_blind_processJsonRpcMethod request s level) as [Ho Hc].
    unfold outcome_of, calls_of in *.
    destruct (processJsonRpcMethod request (setLogLevel level s))
      as [[r1 s1] c1], (processJsonRpcMethod request s) as [[r2 s2] c2].
    simpl in *. subst. now destruct r2.
  - now rewrite !(handleJsonRpcRequest_undecoded _ _ _ Hd).
Qed.

End LogLevel.

(** X6. The log level is only ever written.  Whatever level the server
    holds, a request ([OPTIONS], [GET], [POST] or any other) gets the
    same response and the same handlers are awaited with the same
    arguments. *)
Theorem log_level_is_never_read {RT : Runtime} {SZ : Serializer}
  (request : Request) (s : MCPServer) (level : value) :
  outcome_of (handleRequest request (setLogLevel level s))
    = outcome_of (handleRequest request s)
  /\ calls_of (handleRequest request (setLogLevel level s))
    = calls_of (handleRequest request s).
Proof.
  unfold handleRequest.
  destruct (request_method request =? "OPTIONS"); [split; reflexivity|].
  destruct (request_method request =? "GET").
  - unfold handleGetRequest.
    destruct (url_pathname (request_url request) =? "/tools/list").
    { unfold bind, this_server, lift, stringify. simpl.
      destruct (JSON_stringify_throws _); split; reflexivity. }
    destruct (searchParams_has "sessionId" (request_url request));
      split; reflexivity.
  - destruct (request_method request =? "POST"); [|split; reflexivity].
    destruct (level_blind_handleJsonRpcRequest (request_text request) s level)
      as [Ho Hc].
    unfold outcome_of, calls_of in *.
    destruct (handleJsonRpcRequest (request_text request) (setLogLevel level s))
      as [[r1 s1] c1], (handleJsonRpcRequest (request_text request) s)
      as [[r2 s2] c2].
    simpl in *. now subst.
Qed.

(* ================================================================== *)
(** ** A key that is not a pattern *)
(* ================================================================== *)

Section Unparsable.
Context {RT : Runtime}.

Lemma first_matching_throws uri earlier k h later t :
  (forall k' h', In (k', h') earlier -> matchesTemplate uri k' = Normal false) ->
  matchesTemplate uri k = Throw t ->
  first_matching uri (earlier ++ (k, h) :: later) = Throw t.
Proof.
  intros Hearlier Hk.
  induction earlier as [|[k' h'] rest IH]; simpl.
  - now rewrite Hk.
  - rewrite (Hearlier k' h') by now left.
    apply IH. intros k0 h0 H0. apply (Hearlier k0 h0). now right.
Qed.

End Unparsable.

(** X7. [resources/read] tries the keys of the handler map as patterns
    in the order of the map.  When the URI is not itself a key and the
    first key that does not fail to match is one whose pattern the
    engine refuses to compile, the read is answered by the error
    envelope with the message of that syntax error, no handler is
    awaited, and the keys after it (a template that would have matched
    among them) are never tried. *)
Theorem unparsable_key_fails_the_read {RT : Runtime}
  (s : MCPServer) (body : string) (request : JsonRpcRequest) (u : string)
  (earlier later : list (string * MCPResourceHandler))
  (k : string) (h : MCPResourceHandler) (t : thrown)
  (Hdecode : decode body = Normal request)
  (Hmethod : req_method request = "resources/read")
  (Hparams : is_nullish (req_params request) = false)
  (Huri : get_prop (req_params request) "uri" = VStr u)
  (Hu : u <> EmptyString)
  (Hkey : Map_get u (resourceHandlers s) = None)
  (Hmap : resourceHandlers s = (earlier ++ (k, h) :: later)%list)
  (Hearlier : forall k' h', In (k', h') earlier ->
                            matchesTemplate (VStr u) k' = Normal false)
  (Hk : RegExp_compile ("^" ++ replace_placeholders k ++ "$") = Throw t) :
  handleJsonRpcRequest body s = (error_envelope (error_message t), s, []).
Proof.
  apply handleJsonRpcRequest_thrown with (request := request); auto.
  unfold processJsonRpcMethod. rewrite Hmethod. simpl.
  unfold handleResourceRead, object_coercible, bind, this_server.
  rewrite Hparams. simpl. rewrite Huri.
  destruct u as [|c u]; [contradiction|]. simpl.
  rewrite Hkey. unfold lift, Map_entries. rewrite Hmap.
  rewrite (first_matching_throws _ earlier k h later t); auto.
  unfold matchesTemplate. now rewrite Hk.
Qed.

Lemma unparsable_key_fails_the_read_witness :
  let body :=
    json_text "{'jsonrpc':'2.0','id':1,'method':'resources/read','params':{'uri':'items://5'}}" in
  let h := Sample.tagged "draft" in
  let s := addResourceTemplate (Sample.template "items://{id}" "Items")
             (Sample.tagged "items")
             (addResource (Sample.resource "doc://a(b" "Draft") h Sample.server) in
  handleJsonRpcRequest (RT := Ref.runtime) body s =
    (error_envelope "Invalid regular expression: /^doc://a(b$/: Unterminated group", s, []).
Proof.
  intros body h s.
  apply (unparsable_key_fails_the_read (RT := Ref.runtime)
           s body
           {| req_jsonrpc := "2.0"; req_id := VNum (Decimal 1 0);
              req_method := "resources/read";
              req_params := VObj [("uri", VStr "items://5")] |}
           "items://5" [] [("items://{id}", Sample.tagged "items")]
           "doc://a(b" h
           (ErrorObj "Invalid regular expression: /^doc://a(b$/: Unterminated group"));
    try reflexivity.
  - discriminate.
  - intros k' h' [].
Defined.

(* ================================================================== *)
(** ** Descriptors and their handlers *)
(* ================================================================== *)

Section KeysAgree.
Context {V W : Type}.

Lemma Map_keys_set_In k (v : V) m k' :
  In k' (Map_keys (Map_set k v m)) <-> k' = k \/ In k' (Map_keys m).
Proof.
  destruct (in_dec string_dec k (Map_keys m)) as [Hin|Hnin].
  - rewrite Map_keys_set_in by assumption. intuition (subst; auto).
  - rewrite Map_keys_set_fresh by assumption. rewrite in_app_iff. simpl.
    intuition (subst; auto).
Qed.

Lemma Map_keys_set_agree k (v : V) (w : W) (m : Map V) (n : Map W) :
  Map_keys m = Map_keys n ->
  Map_keys (Map_set k v m) = Map_keys (Map_set k w n).
Proof.
  intros H.
  destruct (in_dec string_dec k (Map_keys m)) as [Hin|Hnin].
  - rewrite !Map_keys_set_in; congruence.
  - rewrite !Map_keys_set_fresh; congruence.
Qed.

Lemma Map_get_of_key k (m : Map V) :
  In k (Map_keys m) -> exists v, Map_get k m = Some v.
Proof.
  intros Hin. destruct (Map_get k m) as [v|] eqn:E; eauto.
  apply Map_get_None in E. contradiction.
Qed.

Lemma Map_set_twice k (v1 v2 : V) m :
  Map_set k v2 (Map_set k v1 m) = Map_set k v2 m.
Proof.
  induction m as [|[k' v'] rest IH]; simpl.
  - now rewrite String.eqb_refl.
  - destruct (k' =? k) eqn:E; simpl; rewrite E; [reflexivity|].
    now rewrite IH.
Qed.

End KeysAgree.

(** The keys of the handler maps follow the keys of the registries. *)
Lemma register_all_handler_keys rs : forall s,
  Map_keys (tools s) = Map_keys (toolHandlers s) ->
  Map_keys (prompts s) = Map_keys (promptHandlers s) ->
  (forall k, In k (Map_keys (resourceHandlers s))
             <-> In k (Map_keys (resources s))
                 \/ In k (Map_keys (resourceTemplates s))) ->
  let s' := register_all s rs in
  Map_keys (tools s') = Map_keys (toolHandlers s')
  /\ Map_keys (prompts s') = Map_keys (promptHandlers s')
  /\ (forall k, In k (Map_keys (resourceHandlers s'))
                <-> In k (Map_keys (resources s'))
                    \/ In k (Map_keys (resourceTemplates s'))).
Proof.
  unfold register_all.
  induction rs as [|r rs IH]; intros s Ht Hp Hr; simpl; [auto|].
  apply IH; destruct r; simpl; auto using @Map_keys_set_agree;
    intros k; rewrite !Map_keys_set_In, Hr; tauto.
Qed.

(** X8. On a server built by the constructor and registration calls,
    whatever a listing shows can be used: every listed tool has a
    handler under its name, every listed prompt has a handler under its
    name (so [No handler for prompt] is never the answer of the
    server), every listed resource has a handler under its URI and
    every listed template one under its URI template; and the handler
    map of resources holds no key besides those URIs and templates. *)
Theorem listed_entries_have_handlers
  (info : MCPServerInfo) (caps : option MCPCapabilities)
  (rs : list registration) :
  let s := register_all (new_MCPServer info caps) rs in
  (forall t, In t (Map_values (tools s)) ->
             exists h, Map_get (tool_name t) (toolHandlers s) = Some h)
  /\ (forall p, In p (Map_values (prompts s)) ->
                exists h, Map_get (prompt_name p) (promptHandlers s) = Some h)
  /\ (forall r, In r (Map_values (resources s)) ->
                exists h, Map_get (res_uri r) (resourceHandlers s) = Some h)
  /\ (forall t, In t (Map_values (resourceTemplates s)) ->
                exists h, Map_get (tmpl_uriTemplate t) (resourceHandlers s) = Some h)
  /\ (forall k h, Map_get k (resourceHandlers s) = Some h ->
                  In k (map res_uri (Map_values (resources s)))
                  \/ In k (map tmpl_uriTemplate (Map_values (resourceTemplates s)))).
Proof.
  intros s.
  assert (W : server_wf s) by (subst s; auto using register_all_wf, new_MCPServer_wf).
  destruct (register_all_handler_keys rs (new_MCPServer info caps))
    as (Ht & Hp & Hr); try reflexivity.
  { intros k. simpl. tauto. }
  fold s in Ht, Hp, Hr. destruct W.
  repeat split.
  - intros t Hin. apply Map_get_of_key. rewrite <- Ht.
    rewrite <- (keyed_by_keys tool_name) by assumption. now apply in_map.
  - intros p Hin. apply Map_get_of_key. rewrite <- Hp.
    rewrite <- (keyed_by_keys prompt_name) by assumption. now apply in_map.
  - intros r Hin. apply Map_get_of_key, Hr. left.
    rewrite <- (keyed_by_keys res_uri) by assumption. now apply in_map.
  - intros t Hin. apply Map_get_of_key, Hr. right.
    rewrite <- (keyed_by_keys tmpl_uriTemplate) by assumption. now apply in_map.
  - intros k h Hget.
    rewrite !keyed_by_keys by assumption. apply Hr.
    apply Map_get_In in Hget. change k with (fst (k, h)). now apply in_map.
Qed.

(** X9. A registration that is followed at once by another one for
    the same slot (the same tool name, resource URI, URI template or
    prompt name; the sampling handler; the log level) leaves no trace:
    the server is exactly the one that the second registration alone
    would have made, position in the listings included. *)
Theorem overwriting_at_once_leaves_no_trace (s : MCPServer) (r1 r2 : registration)
  (Hslot : same_slot r1 r2 = true) :
  register (register s r1) r2 = register s r2.
Proof.
  destruct r1, r2; try discriminate; cbn [same_slot] in Hslot;
    try apply String.eqb_eq in Hslot; cbn [register];
    unfold addTool, addResource, addResourceTemplate, addPrompt,
      setSamplingHandler, setLogLevel; simpl;
    rewrite ?Hslot, ?Map_set_twice; reflexivity.
Qed.

Lemma overwriting_at_once_leaves_no_trace_witness :
  let first := RegTool (Sample.tool "first") (Sample.tagged "A") in
  let second := RegTool (Sample.tool "second") (Sample.tagged "B") in
  let s := addTool Fixture.test_tool (Fixture.resolves Fixture.success) Sample.server in
  register (register s first) second = register s second.
Proof.
  intros first second s.
  exact (overwriting_at_once_leaves_no_trace s first second eq_refl).
Defined.

(* ================================================================== *)
(** ** Requests over HTTP *)
(* ================================================================== *)

Section Http.
Context {RT : Runtime}.

(** The three replies of the JSON-RPC entry point. *)
Lemma handleJsonRpcRequest_status body s :
  In (resp_status (outcome_of (handleJsonRpcRequest body s))) [200; 204; 500]%Z.
Proof.
  destruct (decode body) as [request|t] eqn:Hd.
  - rewrite (handleJsonRpcRequest_decoded _ _ _ Hd).
    destruct (processJsonRpcMethod request s) as [[[result|t] s'] calls];
      unfold outcome_of; simpl; auto.
    destruct (is_null result); simpl; auto.
  - rewrite (handleJsonRpcRequest_undecoded _ _ _ Hd). simpl. auto.
Qed.

End Http.

(** X10. [handleRequest] rejects in one case only: a [GET] for the path
    [/tools/list] when [JSON.stringify] throws on the tool listing, and
    then with what it threw.  Every other request, whatever its method,
    URL and body and whatever the registered handlers do, is answered
    with a response, and the status of that response is 200, 204, 404,
    405 or 500. *)
Theorem only_the_tools_listing_can_reject {RT : Runtime} {SZ : Serializer}
  (request : Request) (s : MCPServer) :
  let listing :=
    VObj [("tools", VArr (map MCPTool_object (Map_values (tools s))))] in
  match outcome_of (handleRequest request s) with
  | Throw error =>
      request_method request = "GET"
      /\ url_pathname (request_url request) = "/tools/list"
      /\ JSON_stringify_throws listing = Some error
  | Normal response =>
      In (http_status response) [200; 204; 404; 405; 500]%Z
      /\ (request_method request = "GET" ->
          url_pathname (request_url request) = "/tools/list" ->
          JSON_stringify_throws listing = None)
  end.
Proof.
  intros listing. unfold handleRequest.
  destruct (request_method request =? "OPTIONS") eqn:Eoptions.
  { apply String.eqb_eq in Eoptions. simpl. split; [auto|].
    intros Hget. rewrite Hget in Eoptions. discriminate. }
  destruct (request_method request =? "GET") eqn:Eget.
  { apply String.eqb_eq in Eget. unfold handleGetRequest.
    destruct (url_pathname (request_url request) =? "/tools/list") eqn:Epath.
    { apply String.eqb_eq in Epath.
      unfold bind, this_server, lift, stringify. simpl. fold listing.
      destruct (JSON_stringify_throws listing); simpl; auto. }
    apply String.eqb_neq in Epath.
    destruct (searchParams_has "sessionId" (request_url request));
      simpl; (split; [auto|]); intros _ Hpath; contradiction. }
  apply String.eqb_neq in Eget.
  destruct (request_method request =? "POST").
  - pose proof (handleJsonRpcRequest_status (request_text request) s) as H.
    unfold outcome_of in *.
    destruct (handleJsonRpcRequest (request_text request) s) as [[r s'] c].
    simpl in *. split; [intuition|]. intros Hget. contradiction.
  - simpl. split; [auto 6|]. intros Hget. contradiction.
Qed.

(** X11. Only [POST] changes the server or awaits a handler: a request
    with any other method leaves the server as it was and awaits no
    handler, and its outcome does not depend on the body of the
    request. *)
Theorem only_post_reaches_the_handlers {RT : Runtime} {SZ : Serializer}
  (request : Request) (s : MCPServer)
  (Hmethod : request_method request <> "POST") :
  server_after (handleRequest request s) = s
  /\ calls_of (handleRequest request s) = []
  /\ forall text,
       handleRequest
         {| request_method := request_method request;
            request_url := request_url request;
            request_text := text |} s
       = handleRequest request s.
Proof.
  unfold handleRequest. simpl.
  destruct (request_method request =? "OPTIONS"); [repeat split|].
  destruct (request_method request =? "GET").
  - unfold handleGetRequest. simpl.
    destruct (url_pathname (request_url request) =? "/tools/list").
    { unfold bind, this_server, lift, stringify. simpl.
      destruct (JSON_stringify_throws _); repeat split. }
    destruct (searchParams_has "sessionId" (request_url request)); repeat split.
  - destruct (request_method request =? "POST") eqn:E; [|repeat split].
    apply String.eqb_eq in E. contradiction.
Qed.

Lemma only_post_reaches_the_handlers_witness :
  let request :=
    {| request_method := "DELETE";
       request_url := {| url_pathname := "/mcp"; url_searchParams := [] |};
       request_text :=
         json_text "{'jsonrpc':'2.0','id':1,'method':'logging/setLevel','params':{'level':'debug'}}" |} in
  server_after (handleRequest (RT := Ref.runtime) (SZ := plain_values)
                  request Sample.server)
  = Sample.server
  /\ calls_of (handleRequest (RT := Ref.runtime) (SZ := plain_values)
                 request Sample.server) = [].
Proof.
  intros request.
  destruct (only_post_reaches_the_handlers (RT := Ref.runtime) (SZ := plain_values)
              request Sample.server)
    as (Hs & Hc & _).
  - simpl. discriminate.
  - split; assumption.
Defined.

(** X12. The listing served at [GET /tools/list] is the result of the
    [tools/list] method: on the same server the body of the one is the
    serialisation of the value that the other returns in its success
    envelope, whatever the query string of the GET request is.  When
    the serialisation of that value throws, the GET request is rejected
    with what it threw. *)
Theorem get_tools_list_serves_the_tools_list_result
  {RT : Runtime} {SZ : Serializer}
  (request : Request) (s : MCPServer) (body : string) (rpc : JsonRpcRequest)
  (Hget : request_method request = "GET")
  (Hpath : url_pathname (request_url request) = "/tools/list")
  (Hdecode : decode body = Normal rpc)
  (Hmethod : req_method rpc = "tools/list") :
  let listing :=
    VObj [("tools", VArr (map MCPTool_object (Map_values (tools s))))] in
  match JSON_stringify_throws listing with
  | None =>
      outcome_of (handleRequest request s)
      = Normal {| http_body := Body (JSON_stringify listing);
                  http_status := 200;
                  http_headers := [("Content-Type", "application/json");
                                   ("Access-Control-Allow-Origin", "*")] |}
      /\ outcome_of (handleJsonRpcRequest body s)
         = success_envelope (nullish_coalesce (req_id rpc) VNull) listing
  | Some error => outcome_of (handleRequest request s) = Throw error
  end.
Proof.
  intros listing.
  assert (Hserved : outcome_of (handleRequest request s)
                    = match stringify listing with
                      | Normal served =>
                          Normal {| http_body := Body served;
                                    http_status := 200;
                                    http_headers :=
                                      [("Content-Type", "application/json");
                                       ("Access-Control-Allow-Origin", "*")] |}
                      | Throw error => Throw error
                      end).
  { unfold handleRequest. rewrite Hget. simpl.
    unfold handleGetRequest. rewrite Hpath. simpl.
    unfold bind, this_server, lift. fold listing.
    now destruct (stringify listing). }
  unfold stringify in Hserved.
  destruct (JSON_stringify_throws listing); [exact Hserved|].
  split; [exact Hserved|].
  rewrite (handleJsonRpcRequest_decoded _ _ _ Hdecode).
  unfold processJsonRpcMethod. rewrite Hmethod. simpl. reflexivity.
Qed.

Lemma get_tools_list_serves_the_tools_list_result_witness :
  let request :=
    {| request_method := "GET";
       request_url := {| url_pathname := "/tools/list";
                         url_searchParams := [("sessionId", "abc")] |};
       request_text := EmptyString |} in
  let body := json_text "{'jsonrpc':'2.0','id':1,'method':'tools/list'}" in
  let s := addTool Fixture.test_tool (Fixture.resolves Fixture.success) Fixture.server in
  let listing := VObj [("tools", VArr [MCPTool_object Fixture.test_tool])] in
  outcome_of (handleRequest (RT := Ref.runtime) (SZ := plain_values) request s)
  = Normal {| http_body := Body (JSON_stringify listing);
              http_status := 200;
              http_headers := [("Content-Type", "application/json");
                               ("Access-Control-Allow-Origin", "*")] |}
  /\ outcome_of (handleJsonRpcRequest (RT := Ref.runtime) body s)
     = success_envelope (VNum (Decimal 1 0)) listing.
Proof.
  intros request body s listing.
  exact (get_tools_list_serves_the_tools_list_result
           (RT := Ref.runtime) (SZ := plain_values)
           request s body
           {| req_jsonrpc := "2.0"; req_id := VNum (Decimal 1 0);
              req_method := "tools/list"; req_params := VUndefined |}
           eq_refl eq_refl eq_refl eq_refl).
Defined.

(* ================================================================== *)
(** ** Resources made by the builders *)
(* ================================================================== *)

Section BuiltResources.
Context {RT : Runtime}.

(** [resources/read] of a URI that is a key of the handler map. *)
Lemma handleJsonRpcRequest_read_key body s request uri h :
  decode body = Normal request ->
  req_method request = "resources/read" ->
  is_nullish (req_params request) = false ->
  get_prop (req_params request) "uri" = VStr uri ->
  uri <> EmptyString ->
  Map_get uri (resourceHandlers s) = Some h ->
  handleJsonRpcRequest body s =
    (match h (VStr uri) with
     | Normal content =>
         success_envelope (nullish_coalesce (req_id request) VNull)
           (VObj [("contents", VArr [content])])
     | Throw t => error_envelope (error_message t)
     end, s, [Invoked h (VStr uri)]).
Proof.
  intros Hd Hm Hp Hu Hne Hk.
  rewrite (handleJsonRpcRequest_decoded _ _ _ Hd).
  unfold processJsonRpcMethod. rewrite Hm. simpl.
  unfold handleResourceRead, object_coercible, bind, this_server.
  rewrite Hp. simpl. rewrite Hu.
  destruct uri as [|c uri]; [contradiction|]. simpl.
  rewrite Hk. simpl. unfold await_call.
  destruct (h (VStr (String c uri))); reflexivity.
Qed.

Lemma String_split_no_separator sep s :
  occurs sep s = false -> String_split sep s = [s].
Proof.
  induction s as [|c s IH]; simpl; [reflexivity|].
  rewrite Ascii.eqb_sym.
  destruct (sep =? c)%char eqn:E; simpl; [discriminate|].
  intros H. now rewrite IH.
Qed.

Lemma String_split_nonempty sep s : String_split sep s <> [].
Proof.
  destruct s as [|c s]; simpl; [discriminate|].
  destruct (c =? sep)%char; [discriminate|].
  destruct (String_split sep s); discriminate.
Qed.

Lemma Array_pop_cons {A} (x : A) l : l <> [] -> Array_pop (x :: l) = Array_pop l.
Proof. destruct l; [contradiction | reflexivity]. Qed.

Lemma occurs_append_separator sep stem ext :
  occurs sep (stem ++ String sep ext) = true.
Proof.
  induction stem as [|c stem IH]; simpl.
  - now rewrite Ascii.eqb_refl.
  - rewrite IH. apply orb_true_r.
Qed.

Lemma String_split_two sep s :
  occurs sep s = true -> exists a b rest, String_split sep s = a :: b :: rest.
Proof.
  induction s as [|c s IH]; simpl; [discriminate|].
  destruct (c =? sep)%char eqn:E; simpl.
  - intros _. pose proof (String_split_nonempty sep s) as Hne.
    destruct (String_split sep s) as [|b rest]; [contradiction|]. eauto.
  - intros H. destruct (IH H) as (a & b & rest & ->). eauto.
Qed.

(** The last segment of a path is what follows its last dot. *)
Lemma Array_pop_String_split stem ext :
  occurs "." ext = false ->
  Array_pop (String_split "." (stem ++ String "." ext)) = Some ext.
Proof.
  intros Hext.
  induction stem as [|c stem IH].
  - simpl. now rewrite String_split_no_separator.
  - change (String c stem ++ String "." ext)
      with (String c (stem ++ String "." ext)).
    destruct (String_split_two "." _ (occurs_append_separator "." stem ext))
      as (a & b & rest & E).
    cbn [String_split]. rewrite E in *.
    destruct (c =? ".")%char; exact IH.
Qed.

Lemma mimeTypes_truthy k v :
  own_prop mimeTypes k = Some v -> truthy v = true.
Proof.
  unfold mimeTypes. simpl.
  repeat match goal with
         | |- (if ?b then _ else _) = _ -> _ => destruct b
         end;
    intros [= <-]; reflexivity.
Qed.

End BuiltResources.

(** X13. A resource made by [createTextResource] or
    [createBinaryResource] and registered reads back what it was made
    of: [resources/read] of its URI (which must not be empty) awaits its
    handler once and answers with one content holding that URI, the
    text (or the base64 data under [blob]) and the same MIME type that
    the descriptor in the listing carries. *)
Theorem built_resource_reads_back {RT : Runtime}
  (uri name payload : string) (options : ResourceOptions) (s : MCPServer)
  (body : string) (request : JsonRpcRequest)
  (Hdecode : decode body = Normal request)
  (Hmethod : req_method request = "resources/read")
  (Hparams : is_nullish (req_params request) = false)
  (Huri : get_prop (req_params request) "uri" = VStr uri)
  (Hne : uri <> EmptyString) :
  let id := nullish_coalesce (req_id request) VNull in
  (let made := createTextResource uri name payload options in
   let s' := addResource (fst made) (snd made) s in
   exists mimeType,
     Map_get uri (resources s')
     = Some {| res_uri := uri; res_name := name;
               res_description := option_description options;
               res_mimeType := Some mimeType |}
     /\ handleJsonRpcRequest body s' =
          (success_envelope id
             (VObj [("contents",
                     VArr [VObj [("uri", VStr uri);
                                 ("mimeType", VStr mimeType);
                                 ("text", VStr payload)]])]),
           s', [Invoked (snd made) (VStr uri)]))
  /\ (let made := createBinaryResource uri name payload options in
      let s' := addResource (fst made) (snd made) s in
      exists mimeType,
        Map_get uri (resources s')
        = Some {| res_uri := uri; res_name := name;
                  res_description := option_description options;
                  res_mimeType := Some mimeType |}
        /\ handleJsonRpcRequest body s' =
             (success_envelope id
                (VObj [("contents",
                        VArr [VObj [("uri", VStr uri);
                                    ("mimeType", VStr mimeType);
                                    ("blob", VStr payload)]])]),
              s', [Invoked (snd made) (VStr uri)])).
Proof.
  intros id. split; intros made s'.
  - exists (string_or (option_mimeType options) "text/plain"). split.
    + subst s' made. simpl. apply Map_get_set_same.
    + rewrite (handleJsonRpcRequest_read_key body s' request uri (snd made));
        auto.
      subst s' made. simpl. apply Map_get_set_same.
  - exists (string_or (option_mimeType options) "application/octet-stream"). split.
    + subst s' made. simpl. apply Map_get_set_same.
    + rewrite (handleJsonRpcRequest_read_key body s' request uri (snd made));
        auto.
      subst s' made. simpl. apply Map_get_set_same.
Qed.

Lemma built_resource_reads_back_witness :
  let body :=
    json_text "{'jsonrpc':'2.0','id':3,'method':'resources/read','params':{'uri':'note://1'}}" in
  let options := {| option_description := None; option_mimeType := Some EmptyString |} in
  let made := createTextResource "note://1" "Note" "hello" options in
  let s' := addResource (fst made) (snd made) Sample.server in
  handleJsonRpcRequest (RT := Ref.runtime) body s' =
    (success_envelope (VNum (Decimal 3 0))
       (VObj [("contents",
               VArr [VObj [("uri", VStr "note://1");
                           ("mimeType", VStr "text/plain");
                           ("text", VStr "hello")]])]),
     s', [Invoked (snd made) (VStr "note://1")]).
Proof.
  intros body options made s'.
  destruct (built_resource_reads_back (RT := Ref.runtime)
              "note://1" "Note" "hello" options Sample.server body
              {| req_jsonrpc := "2.0"; req_id := VNum (Decimal 3 0);
                 req_method := "resources/read";
                 req_params := VObj [("uri", VStr "note://1")] |}
              eq_refl eq_refl eq_refl eq_refl)
    as [(mimeType & Hlisted & Hread) _].
  - discriminate.
  - injection Hlisted as <-. exact Hread.
Defined.



(** X15. [detectMimeType] goes by what follows the last dot of the
    path, without regard to case: when that extension, in lower case,
    is one of the ten keys of the table, the MIME type is the entry of
    the table, whatever precedes the dot (directories, earlier dots);
    a path without any dot is taken as an extension in its entirety;
    and [createFileResource] without a [mimeType] option puts the type
    found into the descriptor. *)
Theorem mime_type_follows_the_last_extension {RT : Runtime}
  (stem ext mime : string)
  (Hext : occurs "." ext = false)
  (Htable : own_prop mimeTypes (toLowerCase ext) = Some (VStr mime)) :
  detectMimeType (stem ++ "." ++ ext) = VStr mime
  /\ detectMimeType ext = VStr mime
  /\ forall uri name description,
       let made :=
         createFileResource uri name (stem ++ "." ++ ext)
           {| option_description := description; option_mimeType := None |} in
       made = ({| descriptor_uri := uri; descriptor_name := name;
                  descriptor_description := description;
                  descriptor_mimeType := VStr mime |},
               file_handler (stem ++ "." ++ ext))
       /\ as_MCPResource (fst made)
          = Some {| res_uri := uri; res_name := name;
                    res_description := description;
                    res_mimeType := Some mime |}.
Proof.
  assert (Hkey : string_or (Some (toLowerCase ext)) EmptyString = toLowerCase ext).
  { unfold string_or. simpl. now destruct (toLowerCase ext). }
  assert (H1 : detectMimeType (stem ++ "." ++ ext) = VStr mime).
  { unfold detectMimeType.
    change (stem ++ "." ++ ext) with (stem ++ String "." ext).
    rewrite (Array_pop_String_split stem ext Hext). simpl option_map.
    rewrite Hkey. unfold get_prop. rewrite Htable.
    now rewrite (mimeTypes_truthy _ _ Htable). }
  split; [exact H1|]. split.
  - unfold detectMimeType. rewrite String_split_no_separator by assumption.
    simpl Array_pop. simpl option_map.
    rewrite Hkey. unfold get_prop. rewrite Htable.
    now rewrite (mimeTypes_truthy _ _ Htable).
  - intros uri name description.
    unfold createFileResource, file_mimeType, as_MCPResource.
    cbn [option_mimeType option_description fst descriptor_mimeType
         descriptor_uri descriptor_name descriptor_description].
    now rewrite H1.
Qed.

Lemma mime_type_follows_the_last_extension_witness :
  detectMimeType (RT := Ref.runtime) "/srv/site.v2/Index.HTML" = VStr "text/html"
  /\ detectMimeType (RT := Ref.runtime) "HTML" = VStr "text/html".
Proof.
  destruct (mime_type_follows_the_last_extension (RT := Ref.runtime)
              "/srv/site.v2/Index" "HTML" "text/html" eq_refl eq_refl)
    as (H1 & H2 & _).
  split; assumption.
Defined.

(* ================================================================== *)
(** ** Sampling requests made by the builders *)
(* ================================================================== *)

Section BuiltRequests.
Context {RT : Runtime}.

(** The gateway on an object whose own [messages] is a non-empty
    array. *)
Lemma handleSampling_passes h s props first others :
  samplingHandler s = Some h ->
  own_prop props "messages" = Some (VArr (first :: others)) ->
  handleSampling (VObj props) s = (h (VObj props), s, [Invoked h (VObj props)]).
Proof.
  intros Hh Hm. unfold handleSampling, bind, this_server. simpl. rewrite Hh.
  unfold object_coercible. simpl. now rewrite Hm.
Qed.

Lemma truthy_value_or a b : truthy b = true -> truthy (value_or a b) = true.
Proof. intros H. unfold value_or. now destruct (truthy a) eqn:E. Qed.

End BuiltRequests.

(** X16. The requests made by the builders of [sampling.ts] pass the
    validation of [sampling/createMessage]: with a sampling handler
    configured, the simple, analysis, code review and summarisation
    requests are each handed to the handler as they were built, exactly
    once; a conversation request is handed on when the conversation has
    at least one message and is refused with the message
    [Messages array is required and cannot be empty] when it has
    none. *)
Theorem built_requests_pass_the_gateway {RT : Runtime}
  (h : MCPSamplingHandler) (s : MCPServer) (options : SamplingOptions)
  (Hh : samplingHandler s = Some h) :
  let handed_on (request : value) :=
    handleSampling request s = (h request, s, [Invoked h request]) in
  (forall userMessage,
     handed_on (createSimpleSamplingRequest userMessage options))
  /\ (forall analysisPrompt contextData,
        handed_on (createAnalysisSamplingRequest analysisPrompt contextData options))
  /\ (forall code language,
        handed_on (createCodeReviewSamplingRequest code language options))
  /\ (forall content maxLength request,
        createSummarizationSamplingRequest content maxLength options = Normal request ->
        handed_on request)
  /\ (forall first others,
        handed_on (createConversationSamplingRequest (first :: others) options))
  /\ handleSampling (createConversationSamplingRequest [] options) s
     = (Throw (ErrorObj "Messages array is required and cannot be empty"), s, []).
Proof.
  intros handed_on. subst handed_on. cbv beta.
  repeat split; intros.
  - eapply handleSampling_passes; [exact Hh | reflexivity].
  - eapply handleSampling_passes; [exact Hh | reflexivity].
  - eapply handleSampling_passes; [exact Hh | reflexivity].
  - unfold createSummarizationSamplingRequest in H.
    match type of H with
    | completion_bind ?c _ = _ => destruct c as [prompt|t]; simpl in H
    end; [|discriminate].
    injection H as <-.
    eapply handleSampling_passes; [exact Hh | reflexivity].
  - eapply handleSampling_passes; [exact Hh | reflexivity].
  - unfold handleSampling, bind, this_server. simpl. now rewrite Hh.
Qed.

Lemma built_requests_pass_the_gateway_witness :
  let h := Sample.tagged "model" in
  let s := setSamplingHandler (createSamplingHandler h) Sample.server in
  let request := createSimpleSamplingRequest "Explain monads" no_sampling_options in
  handleSampling (RT := Ref.runtime) request s = (h request, s, [Invoked h request])
  /\ handleSampling (RT := Ref.runtime)
       (createConversationSamplingRequest [] no_sampling_options) s
     = (Throw (ErrorObj "Messages array is required and cannot be empty"), s, []).
Proof.
  intros h s request.
  destruct (built_requests_pass_the_gateway (RT := Ref.runtime)
              h s no_sampling_options eq_refl)
    as (Hsimple & _ & _ & _ & _ & Hempty).
  split; [apply Hsimple | exact Hempty].
Defined.

(** X17. The analysis, code review and summarisation requests never
    carry a falsy setting where the builder has a default: whatever the
    options say, their [temperature] (and for analysis and
    summarisation their [maxTokens]) is truthy, so that a temperature
    or a token limit of zero given in the options is not kept; with a
    temperature of zero the three builders put 0.3, 0.2 and 0.4. *)
Theorem defaults_replace_falsy_settings {RT : Runtime} (options : SamplingOptions) :
  (forall analysisPrompt contextData,
     let request := createAnalysisSamplingRequest analysisPrompt contextData options in
     truthy (get_prop request "temperature") = true
     /\ truthy (get_prop request "maxTokens") = true)
  /\ (forall code language,
        truthy (get_prop (createCodeReviewSamplingRequest code language options)
                         "temperature") = true)
  /\ (forall content maxLength request,
        createSummarizationSamplingRequest content maxLength options = Normal request ->
        truthy (get_prop request "temperature") = true
        /\ truthy (get_prop request "maxTokens") = true)
  /\ (forall analysisPrompt contextData code language,
        option_temperature options = Some (Decimal 0 0) ->
        get_prop (createAnalysisSamplingRequest analysisPrompt contextData options)
                 "temperature" = VNum (Decimal 3 (-1))
        /\ get_prop (createCodeReviewSamplingRequest code language options)
                    "temperature" = VNum (Decimal 2 (-1))
        /\ forall content maxLength request,
             createSummarizationSamplingRequest content maxLength options
             = Normal request ->
             get_prop request "temperature" = VNum (Decimal 4 (-1))).
Proof.
  repeat split; intros.
  - simpl. now apply truthy_value_or.
  - simpl. now apply truthy_value_or.
  - simpl. now apply truthy_value_or.
  - unfold createSummarizationSamplingRequest in H.
    match type of H with
    | completion_bind ?c _ = _ => destruct c as [prompt|t]; simpl in H
    end; [|discriminate].
    injection H as <-. simpl. now apply truthy_value_or.
  - unfold createSummarizationSamplingRequest in H.
    match type of H with
    | completion_bind ?c _ = _ => destruct c as [prompt|t]; simpl in H
    end; [|discriminate].
    injection H as <-. simpl. now apply truthy_value_or.
  - simpl. now rewrite H.
  - simpl. now rewrite H.
  - unfold createSummarizationSamplingRequest in H0.
    match type of H0 with
    | completion_bind ?c _ = _ => destruct c as [prompt|t]; simpl in H0
    end; [|discriminate].
    injection H0 as <-. simpl. now rewrite H.
Qed.

(* ================================================================== *)
(** ** The pattern of a placeholder *)
(* ================================================================== *)

Lemma escaped_class_syntax c : occurs c escaped_class = occurs c pattern_syntax.
Proof. destruct c as [[] [] [] [] [] [] [] []]; reflexivity. Qed.

Lemma quantifier_ahead_escaped text : quantifier_ahead (escape_pattern text) = false.
Proof.
  destruct text as [|c text]; [reflexivity|]. cbn [escape_pattern].
  destruct (occurs c escaped_class) eqn:E; [reflexivity|].
  rewrite escaped_class_syntax in E. cbn [quantifier_ahead].
  now rewrite !(plain_not_syntax c) by (assumption || reflexivity).
Qed.

Lemma term_escaped fuel c r :
  occurs c pattern_syntax = true ->
  quantifier_ahead r = false ->
  Ref.term (S fuel) (String "\" (String c r)) = Ref.Parsed (Ref.Sym (Ref.is_char c)) r.
Proof.
  intros Hc Hr.
  rewrite <- (quantified_nothing (Ref.Sym (Ref.is_char c)) r Hr).
  unfold pattern_syntax in Hc. cbn [occurs] in Hc.
  repeat match type of Hc with
         | (_ || _) = true => apply orb_true_iff in Hc; destruct Hc as [Hc|Hc]
         end;
    try discriminate; apply Ascii.eqb_eq in Hc; subst c; reflexivity.
Qed.

Lemma alternative_escaped text : forall acc fuel,
  (String.length text + 2 <= fuel)%nat ->
  Ref.alternative fuel acc (escape_pattern text)
  = Ref.Parsed (literal_regex acc text) EmptyString.
Proof.
  induction text as [|c text IH]; intros acc fuel Hfuel.
  - destruct fuel as [|fuel]; [simpl in Hfuel; lia|]. reflexivity.
  - cbn [String.length] in Hfuel.
    do 2 (destruct fuel as [|fuel]; [lia|]).
    cbn [escape_pattern literal_regex].
    destruct (occurs c escaped_class) eqn:E; rewrite escaped_class_syntax in E.
    + rewrite alternative_step by reflexivity.
      rewrite term_escaped by (auto using quantifier_ahead_escaped).
      cbn [Ref.and_then]. apply IH. lia.
    + rewrite alternative_step
        by (rewrite !(plain_not_syntax c) by (assumption || reflexivity);
            reflexivity).
      rewrite term_literal by (auto using quantifier_ahead_escaped).
      cbn [Ref.and_then]. apply IH. lia.
Qed.

Lemma escape_pattern_length text :
  (String.length text <= String.length (escape_pattern text))%nat.
Proof.
  induction text as [|c text IH]; cbn [escape_pattern String.length]; [lia|].
  destruct (occurs c escaped_class); cbn [String.length]; lia.
Qed.

Lemma sequence_of_literal text : forall acc seq,
  sequence_of acc = Some seq ->
  sequence_of (literal_regex acc text)
  = Some (seq ++ map Ref.is_char (list_ascii_of_string text))%list.
Proof.
  induction text as [|c text IH]; intros acc seq Hacc; simpl.
  - now rewrite app_nil_r.
  - rewrite (IH _ (seq ++ [Ref.is_char c])%list).
    + now rewrite <- app_assoc.
    + simpl. now rewrite Hacc.
Qed.

(** The escaped text of a placeholder is a well-formed pattern, and it
    is the sequence of the characters of the placeholder. *)
Lemma RegExp_global_escaped c text :
  RegExp_global (escape_pattern (String c text))
  = Normal (map Ref.is_char (list_ascii_of_string (String c text))).
Proof.
  unfold RegExp_global.
  pose proof (escape_pattern_length (String c text)) as Hlen.
  remember (3 * String.length (escape_pattern (String c text)) + 3)%nat
    as fuel eqn:Hfuel.
  assert (Hbig : (String.length (String c text) + 3 <= fuel)%nat) by lia.
  clear Hfuel Hlen.
  destruct fuel as [|fuel]; [lia|].
  cbn [Ref.disjunction].
  rewrite alternative_escaped by lia.
  cbn [Ref.and_then].
  rewrite (sequence_of_literal _ Ref.Eps []) by reflexivity.
  reflexivity.
Qed.

(* ================================================================== *)
(** ** Replacing the matches of a literal pattern *)
(* ================================================================== *)

Lemma match_sequence_literal p after :
  match_sequence (map Ref.is_char (list_ascii_of_string p)) (p ++ after)
  = Some (p, after).
Proof.
  induction p as [|c p IH]; simpl; [reflexivity|].
  unfold Ref.is_char at 1. rewrite Ascii.eqb_refl. now rewrite IH.
Qed.

Lemma match_sequence_split ps : forall s m after,
  match_sequence ps s = Some (m, after) ->
  s = m ++ after /\ String.length m = List.length ps.
Proof.
  induction ps as [|p ps IH]; intros s m after; simpl.
  - intros [= <- <-]. auto.
  - destruct s as [|c s]; [discriminate|].
    destruct (p c); [|discriminate].
    destruct (match_sequence ps s) as [[m' after']|] eqn:E; [|discriminate].
    intros [= <- <-]. destruct (IH _ _ _ E) as [-> Hm]. simpl. auto.
Qed.

Lemma replace_matches_fuel p ps replacement : forall fuel1 fuel2 before s,
  (String.length s <= fuel1)%nat ->
  (String.length s <= fuel2)%nat ->
  replace_matches fuel1 (p :: ps) replacement before s
  = replace_matches fuel2 (p :: ps) replacement before s.
Proof.
  induction fuel1 as [|fuel1 IH]; intros fuel2 before s H1 H2.
  - destruct s; [|simpl in H1; lia]. now destruct fuel2.
  - destruct fuel2 as [|fuel2].
    + destruct s; [|simpl in H2; lia]. reflexivity.
    + cbn [replace_matches].
      destruct (match_sequence (p :: ps) s) as [[m after]|] eqn:E.
      * destruct (match_sequence_split _ _ _ _ E) as [-> Hm].
        rewrite append_length in H1, H2. simpl in Hm.
        f_equal. apply IH; lia.
      * destruct s as [|c s]; [reflexivity|]. simpl in H1, H2.
        f_equal. apply IH; lia.
Qed.

(** Characters that cannot start a match are copied. *)
Lemma replace_matches_skip c0 ps replacement a : forall fuel before rest,
  occurs c0 a = false ->
  replace_matches (String.length a + fuel) (Ref.is_char c0 :: ps) replacement
    before (a ++ rest)
  = a ++ replace_matches fuel (Ref.is_char c0 :: ps) replacement (before ++ a) rest.
Proof.
  induction a as [|c a IH]; intros fuel before rest Ha; simpl.
  - now rewrite append_empty_r.
  - simpl in Ha. apply orb_false_iff in Ha. destruct Ha as [Hc Ha].
    unfold Ref.is_char at 1. rewrite Ascii.eqb_sym, Hc.
    f_equal. rewrite IH by assumption.
    now rewrite append_assoc.
Qed.

Lemma GetSubstitution_plain matched before after template :
  occurs "$" template = false ->
  GetSubstitution matched before after template = template.
Proof.
  induction template as [|d tail IH]; simpl; [reflexivity|].
  intros H. apply orb_false_iff in H. destruct H as [Hd Ht].
  rewrite Hd. now rewrite IH.
Qed.

(** The global replacement on a content whose opening braces all
    belong to occurrences of the placeholder, for a replacement text
    whose substitution is [w] in every context. *)
Lemma replace_marked key replacement w segments last :
  let placeholder := "{{" ++ key ++ "}}" in
  Forall (fun segment => occurs "{" segment = false) segments ->
  occurs "{" last = false ->
  (forall before after,
     GetSubstitution placeholder before after replacement = w) ->
  forall fuel before,
    (String.length (marked placeholder segments last) <= fuel)%nat ->
    replace_matches fuel (map Ref.is_char (list_ascii_of_string placeholder))
      replacement before (marked placeholder segments last)
    = marked w segments last.
Proof.
  intros placeholder Hsegments Hlast Hw.
  pose (ps := map Ref.is_char (list_ascii_of_string ("{" ++ key ++ "}}"))).
  assert (Hregex : map Ref.is_char (list_ascii_of_string placeholder)
                   = Ref.is_char "{" :: ps) by reflexivity.
  induction Hsegments as [|segment rest Hsegment Hrest IH]; intros fuel before Hfuel.
  - cbn [marked] in *. rewrite Hregex.
    rewrite (replace_matches_fuel _ _ _ fuel (String.length last + 0))
      by (assumption || lia).
    pose proof (replace_matches_skip "{" ps replacement last 0 before
                  EmptyString Hlast) as H.
    cbn [replace_matches] in H. now rewrite !append_empty_r in H.
  - cbn [marked] in *. rewrite Hregex.
    rewrite (replace_matches_fuel _ _ _ fuel
               (String.length segment
                + S (String.length (placeholder ++ marked placeholder rest last))))
      by (assumption || (rewrite append_length; lia)).
    rewrite replace_matches_skip by assumption.
    f_equal. rewrite <- Hregex.
    cbn [replace_matches].
    rewrite match_sequence_literal.
    rewrite Hw. f_equal.
    apply IH. rewrite append_length. lia.
Qed.

Lemma match_sequence_literal_inv p : forall s m after,
  match_sequence (map Ref.is_char (list_ascii_of_string p)) s = Some (m, after) ->
  m = p /\ s = p ++ after.
Proof.
  induction p as [|c p IH]; intros s m after; simpl.
  - intros [= <- <-]. auto.
  - destruct s as [|x s]; [discriminate|].
    unfold Ref.is_char at 1.
    destruct (c =? x)%char eqn:E; [|discriminate].
    apply Ascii.eqb_eq in E. subst x.
    destruct (match_sequence _ s) as [[m' after']|] eqn:E'; [|discriminate].
    intros [= <- <-]. destruct (IH _ _ _ E') as [-> ->]. auto.
Qed.

(** Putting every match back leaves the input as it was. *)
Lemma replace_matches_itself regex : forall fuel before s,
  replace_matches fuel regex "$&" before s = s.
Proof.
  induction fuel as [|fuel IH]; intros before s; [reflexivity|].
  cbn [replace_matches].
  destruct (match_sequence regex s) as [[m after]|] eqn:E.
  - destruct (match_sequence_split _ _ _ _ E) as [-> _].
    cbn. rewrite append_empty_r. now rewrite IH.
  - destruct s as [|c s]; [reflexivity|]. now rewrite IH.
Qed.

Lemma Object_entries_single key v : Object_entries (VObj [(key, v)]) = [(key, v)].
Proof.
  unfold Object_entries, named_props. simpl.
  now destruct (index_of_key key).
Qed.

Section FilledPrompts.
Context {RT : Runtime}.

(** One argument with a string value: the content after the loop. *)
Lemma process_content_single key v content :
  process_content (VObj [(key, VStr v)]) content
  = Normal (String_replace content
              (map Ref.is_char (list_ascii_of_string ("{{" ++ key ++ "}}"))) v).
Proof.
  unfold process_content. simpl truthy. cbv iota.
  rewrite Object_entries_single. cbn [fill_placeholders].
  change ("{{" ++ key ++ "}}") with (String "{" ("{" ++ key ++ "}}")).
  now rewrite RegExp_global_escaped.
Qed.

(** Whether the loop completes, and what it throws when it does not,
    is the same for every content it is started with. *)
Lemma fill_placeholders_settles entries : forall c1 c2,
  match fill_placeholders entries c1, fill_placeholders entries c2 with
  | Normal _, Normal _ => True
  | Throw t1, Throw t2 => t1 = t2
  | _, _ => False
  end.
Proof.
  induction entries as [|[key v] rest IH]; intros c1 c2;
    cbn [fill_placeholders]; [exact I|].
  destruct v; try apply IH;
    (destruct (RegExp_global (escape_pattern ("{{" ++ key ++ "}}")));
     cbn [completion_bind]; [|reflexivity]);
    match goal with
    | |- context [completion_bind ?c _] =>
        destruct c; cbn [completion_bind]; [apply IH | reflexivity]
    end.
Qed.

Lemma process_content_settles args c1 c2 :
  match process_content args c1, process_content args c2 with
  | Normal _, Normal _ => True
  | Throw t1, Throw t2 => t1 = t2
  | _, _ => False
  end.
Proof.
  unfold process_content. destruct (truthy args); [|exact I].
  apply fill_placeholders_settles.
Qed.

Lemma map_steps_shape args steps : forall messages,
  map_steps args steps = Normal messages ->
  Forall2 (fun step message =>
             exists text, message = prompt_message (message_role step) text)
          steps messages.
Proof.
  induction steps as [|step rest IH]; intros messages; simpl.
  - intros [= <-]. constructor.
  - destruct (process_content args (string_or (message_text step) EmptyString))
      as [text|t]; simpl; [|discriminate].
    destruct (map_steps args rest) as [others|t]; simpl; [|discriminate].
    intros [= <-]. constructor.
    + now exists text.
    + now apply IH.
Qed.

Lemma map_steps_no_arguments steps :
  map_steps (VObj []) steps
  = Normal (map (fun step =>
                   prompt_message (message_role step)
                     (string_or (message_text step) EmptyString)) steps).
Proof.
  induction steps as [|step rest IH]; simpl; [reflexivity|].
  now rewrite IH.
Qed.

End FilledPrompts.

(** X18. The pattern that the prompt handlers compile for an argument
    is literal whatever characters the name of the argument is made of:
    after the escaping step the text [{{key}}] is a well-formed pattern
    (the constructor does not throw), it matches the text [{{key}}]
    wherever that occurs, and it matches nothing else. *)
Theorem placeholder_pattern_is_literal (key : string) :
  let placeholder := "{{" ++ key ++ "}}" in
  exists regex,
    RegExp_global (escape_pattern placeholder) = Normal regex
    /\ (forall after,
          match_sequence regex (placeholder ++ after) = Some (placeholder, after))
    /\ (forall s matched after,
          match_sequence regex s = Some (matched, after) ->
          matched = placeholder /\ s = placeholder ++ after).
Proof.
  intros placeholder.
  exists (map Ref.is_char (list_ascii_of_string placeholder)).
  split; [|split].
  - subst placeholder.
    change ("{{" ++ key ++ "}}") with (String "{" ("{" ++ key ++ "}}")).
    apply RegExp_global_escaped.
  - apply match_sequence_literal.
  - apply match_sequence_literal_inv.
Qed.

(** X19. The handler of [createSimplePrompt] fills every occurrence of
    the placeholder of an argument.  For a message content whose
    opening braces all belong to occurrences of [{{key}}] and an
    argument value without a dollar sign, the text of the message is
    the content with each occurrence replaced by the value; the role is
    the [role] option, [user] when there is none. *)
Theorem simple_prompt_fills_every_placeholder {RT : Runtime}
  (name description key v : string) (options : PromptOptions)
  (segments : list string) (last : string)
  (Hsegments : Forall (fun segment => occurs "{" segment = false) segments)
  (Hlast : occurs "{" last = false)
  (Hv : occurs "$" v = false) :
  let content := marked ("{{" ++ key ++ "}}") segments last in
  snd (createSimplePrompt name description content options) (VObj [(key, VStr v)])
  = Normal (VObj [("description", VStr description);
                  ("messages",
                   VArr [prompt_message (string_or (option_role options) "user")
                           (marked v segments last)])]).
Proof.
  intros content. cbn [createSimplePrompt snd].
  rewrite process_content_single. cbn [completion_bind].
  unfold String_replace.
  rewrite (replace_marked key v v segments last); auto.
  intros before after. now apply GetSubstitution_plain.
Qed.

Lemma simple_prompt_fills_every_placeholder_witness :
  snd (createSimplePrompt (RT := Ref.runtime) "greet" "Greeting"
         "Hello {{user.name}}, welcome back {{user.name}}!" no_prompt_options)
      (VObj [("user.name", VStr "Ada")])
  = Normal (VObj [("description", VStr "Greeting");
                  ("messages",
                   VArr [prompt_message "user" "Hello Ada, welcome back Ada!"])]).
Proof.
  apply (simple_prompt_fills_every_placeholder (RT := Ref.runtime)
           "greet" "Greeting" "user.name" "Ada" no_prompt_options
           ["Hello "; ", welcome back "] "!").
  - repeat constructor.
  - reflexivity.
  - reflexivity.
Defined.

(** X20. An argument value is a replacement text, not a literal: the
    dollar patterns of [String.prototype.replace] are honoured.  With
    the value [$&] the handler of [createSimplePrompt] returns every
    content unchanged, placeholders included; with the value [$$] each
    occurrence of the placeholder becomes a single dollar sign. *)
Theorem argument_values_are_replacement_patterns {RT : Runtime}
  (name description key : string) (options : PromptOptions) :
  (forall content,
     snd (createSimplePrompt name description content options)
         (VObj [(key, VStr "$&")])
     = Normal (VObj [("description", VStr description);
                     ("messages",
                      VArr [prompt_message (string_or (option_role options) "user")
                              content])]))
  /\ (forall segments last,
        Forall (fun segment => occurs "{" segment = false) segments ->
        occurs "{" last = false ->
        snd (createSimplePrompt name description
               (marked ("{{" ++ key ++ "}}") segments last) options)
            (VObj [(key, VStr "$$")])
        = Normal (VObj [("description", VStr description);
                        ("messages",
                         VArr [prompt_message (string_or (option_role options) "user")
                                 (marked "$" segments last)])])).
Proof.
  split.
  - intros content. cbn [createSimplePrompt snd].
    rewrite process_content_single. cbn [completion_bind].
    unfold String_replace. now rewrite replace_matches_itself.
  - intros segments last Hsegments Hlast. cbn [createSimplePrompt snd].
    rewrite process_content_single. cbn [completion_bind].
    unfold String_replace.
    rewrite (replace_marked key "$$" "$" segments last); auto.
Qed.

(** X21. The instructions given to [createAnalysisPrompt] never reach
    its result: the handler runs the placeholder loop over them and
    then builds its two messages without them, so two analysis prompts
    that differ in their instructions only have the same descriptor
    and handlers that behave alike on every argument. *)
Theorem analysis_prompt_ignores_its_instructions {RT : Runtime}
  (name description instructions1 instructions2 : string)
  (options : PromptOptions) (args : value) :
  fst (createAnalysisPrompt name description instructions1 options)
  = fst (createAnalysisPrompt name description instructions2 options)
  /\ snd (createAnalysisPrompt name description instructions1 options) args
     = snd (createAnalysisPrompt name description instructions2 options) args.
Proof.
  split; [reflexivity|]. cbn [createAnalysisPrompt snd].
  pose proof (process_content_settles args instructions1 instructions2) as H.
  destruct (process_content args instructions1),
           (process_content args instructions2); simpl; try contradiction.
  - reflexivity.
  - now subst.
Qed.

(** X22. The handler of [createMultiStepPrompt] answers with one
    message for each step, in the order of the steps and with the role
    of each step; every message is a text message, whatever the type of
    the step was.  Without arguments the texts are those of the steps,
    the empty text for a step that has none. *)
Theorem multi_step_prompt_keeps_its_steps {RT : Runtime}
  (name description : string) (steps : list MCPPromptMessage)
  (options : PromptOptions) :
  let handler := snd (createMultiStepPrompt name description steps options) in
  (forall args result,
     handler args = Normal result ->
     exists messages,
       result = VObj [("description", VStr description);
                      ("messages", VArr messages)]
       /\ Forall2 (fun step message =>
                     exists text,
                       message = prompt_message (message_role step) text)
                  steps messages)
  /\ handler (VObj [])
     = Normal (VObj [("description", VStr description);
                     ("messages",
                      VArr (map (fun step =>
                                   prompt_message (message_role step)
                                     (string_or (message_text step) EmptyString))
                                steps))]).
Proof.
  intros handler. subst handler. cbn [createMultiStepPrompt snd]. split.
  - intros args result.
    destruct (map_steps args steps) as [messages|t] eqn:E; simpl; [|discriminate].
    intros [= <-]. exists messages. split; [reflexivity|].
    now apply (map_steps_shape args).
  - now rewrite map_steps_no_arguments.
Qed.

Lemma processJsonRpcMethod_prompts_get {RT : Runtime} request :
  req_method request = "prompts/get" ->
  processJsonRpcMethod request = handlePromptGet (req_params request).
Proof. unfold processJsonRpcMethod. now intros ->. Qed.

(** X23. An analysis prompt made without an [arguments] option demands
    [data]: once it is registered, [prompts/get] for it without a
    truthy [data] argument is refused with the message
    [Required argument missing: data] before the handler is awaited;
    with the arguments [{data: d}] for a non-empty string [d] the
    handler is awaited once and the reply holds the fixed system
    message and the user message [Please analyze: d]. *)
Theorem analysis_prompt_demands_data {RT : Runtime}
  (name description instructions : string) (s : MCPServer)
  (body : string) (request : JsonRpcRequest)
  (Hdecode : decode body = Normal request)
  (Hmethod : req_method request = "prompts/get")
  (Hparams : is_nullish (req_params request) = false)
  (Hname : get_prop (req_params request) "name" = VStr name) :
  let made := createAnalysisPrompt name description instructions no_prompt_options in
  let s' := addPrompt (fst made) (snd made) s in
  let args := get_prop (req_params request) "arguments" in
  (truthy (optional_get args "data") = false ->
   handleJsonRpcRequest body s'
   = (error_envelope "Required argument missing: data", s', []))
  /\ (forall d,
        args = VObj [("data", VStr d)] ->
        d <> EmptyString ->
        handleJsonRpcRequest body s'
        = (success_envelope (nullish_coalesce (req_id request) VNull)
             (VObj [("description", VStr description);
                    ("messages",
                     VArr [prompt_message "system"
                             "You are an analytical expert. Provide thorough and insightful analysis.";
                           prompt_message "user" ("Please analyze: " ++ d)])]),
           s', [Invoked (snd made) args])).
Proof.
  intros made s' args.
  assert (Hprompt : Map_get name (prompts s') = Some (fst made))
    by (subst s' made; simpl; apply Map_get_set_same).
  assert (Hhandler : Map_get name (promptHandlers s') = Some (snd made))
    by (subst s' made; simpl; apply Map_get_set_same).
  pose proof (handlePromptGet_registered (req_params request) s' name
                (fst made) (snd made) Hparams Hname Hprompt Hhandler) as Hget.
  cbv zeta in Hget. fold args in Hget.
  rewrite (handleJsonRpcRequest_decoded _ _ _ Hdecode).
  rewrite (processJsonRpcMethod_prompts_get _ Hmethod).
  rewrite Hget. clear Hget.
  subst made. cbn [createAnalysisPrompt fst prompt_arguments no_prompt_options
                   option_arguments].
  cbn [defaultArguments check_required flagged_required arg_required arg_name
       andb negb].
  split.
  - intros Hdata. now rewrite Hdata.
  - intros d Hargs Hd. rewrite Hargs.
    assert (Ht : truthy (VStr d) = true) by (destruct d; [contradiction|reflexivity]).
    assert (Hdata : get_prop (VObj [("data", VStr d)]) "data" = VStr d)
      by reflexivity.
    unfold optional_get. cbn [is_nullish]. rewrite Hdata, Ht.
    cbn [negb truthy createAnalysisPrompt snd].
    rewrite process_content_single.
    cbn [completion_bind is_nullish]. rewrite Hdata.
    unfold value_or. rewrite Ht. reflexivity.
Qed.

Lemma analysis_prompt_demands_data_witness :
  let body :=
    json_text "{'jsonrpc':'2.0','id':9,'method':'prompts/get','params':{'name':'trend','arguments':{'format':'table'}}}" in
  let made := createAnalysisPrompt (RT := Ref.runtime) "trend" "Trend analysis"
                "Analyze {{data}} as {{format}}" no_prompt_options in
  let s' := addPrompt (fst made) (snd made) Sample.server in
  handleJsonRpcRequest (RT := Ref.runtime) body s'
  = (error_envelope "Required argument missing: data", s', []).
Proof.
  intros body made s'.
  apply (analysis_prompt_demands_data (RT := Ref.runtime)
           "trend" "Trend analysis" "Analyze {{data}} as {{format}}"
           Sample.server body
           {| req_jsonrpc := "2.0"; req_id := VNum (Decimal 9 0);
              req_method := "prompts/get";
              req_params :=
                VObj [("name", VStr "trend");
                      ("arguments", VObj [("format", VStr "table")])] |}
           eq_refl eq_refl eq_refl eq_refl).
  reflexivity.
Defined.

Lemma Object_entries_pair k1 v1 k2 v2 :
  index_of_key k1 = None -> index_of_key k2 = None -> k1 <> k2 ->
  Object_entries (VObj [(k1, v1); (k2, v2)]) = [(k1, v1); (k2, v2)].
Proof.
  intros H1 H2 Hne. unfold Object_entries, named_props. simpl.
  assert (E : (k2 =? k1) = false) by (apply String.eqb_neq; congruence).
  rewrite E. simpl. now rewrite H1, H2.
Qed.

(** The replacement of a content that is the placeholder and nothing
    else. *)
Lemma String_replace_placeholder key replacement :
  occurs "$" replacement = false ->
  String_replace ("{{" ++ key ++ "}}")
    (map Ref.is_char (list_ascii_of_string ("{{" ++ key ++ "}}"))) replacement
  = replacement.
Proof.
  intros Hr. unfold String_replace.
  pose proof (replace_marked key replacement replacement [EmptyString] EmptyString)
    as H.
  cbn [marked] in H. rewrite !append_empty_r in H.
  change (EmptyString ++ "{{" ++ key ++ "}}") with ("{{" ++ key ++ "}}") in H.
  change (EmptyString ++ replacement) with replacement in H.
  apply H; auto.
  intros before after. now apply GetSubstitution_plain.
Qed.

(** One step of the loop, for an argument whose value is a string. *)
Lemma fill_placeholders_string {RT : Runtime} key v rest content :
  fill_placeholders ((key, VStr v) :: rest) content
  = fill_placeholders rest
      (String_replace content
         (map Ref.is_char (list_ascii_of_string ("{{" ++ key ++ "}}"))) v).
Proof.
  cbn [fill_placeholders].
  change ("{{" ++ key ++ "}}") with (String "{" ("{" ++ key ++ "}}")).
  now rewrite RegExp_global_escaped.
Qed.

(** X24. The arguments are filled in one after the other, each over
    the result of the one before, so a value is itself subject to the
    arguments that follow it: when the value of a first argument is the
    placeholder of a second one, the handler of [createSimplePrompt]
    puts the value of the second argument where the first placeholder
    stood.  This is stated for two different names that are ordinary
    names, not array indices, so that they are visited in the order in
    which [args] lists them, and for a second name and a second value
    without a dollar sign, so that the value is put in as it is. *)
Theorem later_arguments_fill_earlier_values {RT : Runtime}
  (name description k1 k2 v2 : string) (options : PromptOptions)
  (Hk1 : index_of_key k1 = None)
  (Hk2 : index_of_key k2 = None)
  (Hne : k1 <> k2)
  (Hdollar : occurs "$" k2 = false)
  (Hv2 : occurs "$" v2 = false) :
  snd (createSimplePrompt name description ("{{" ++ k1 ++ "}}") options)
      (VObj [(k1, VStr ("{{" ++ k2 ++ "}}")); (k2, VStr v2)])
  = Normal (VObj [("description", VStr description);
                  ("messages",
                   VArr [prompt_message (string_or (option_role options) "user")
                           v2])]).
Proof.
  cbn [createSimplePrompt snd]. unfold process_content. simpl truthy. cbv iota.
  rewrite Object_entries_pair by assumption.
  rewrite !fill_placeholders_string. cbn [fill_placeholders completion_bind].
  rewrite String_replace_placeholder.
  - now rewrite String_replace_placeholder.
  - cbn [append occurs]. rewrite occurs_append, Hdollar. reflexivity.
Qed.

Lemma later_arguments_fill_earlier_values_witness :
  snd (createSimplePrompt (RT := Ref.runtime) "greet" "Greeting" "{{title}}"
         no_prompt_options)
      (VObj [("title", VStr "{{secret}}"); ("secret", VStr "swordfish")])
  = Normal (VObj [("description", VStr "Greeting");
                  ("messages", VArr [prompt_message "user" "swordfish"])]).
Proof.
  apply (later_arguments_fill_earlier_values (RT := Ref.runtime)
           "greet" "Greeting" "title" "secret" "swordfish" no_prompt_options);
    try reflexivity.
  discriminate.
Defined.

(* ================================================================== *)
(** ** Which handlers a request awaits *)
(* ================================================================== *)

Lemma Map_get_value_registered {V : Type} key (m : Map V) v :
  Map_get_value key m = Some v -> In v (Map_values m).
Proof.
  destruct key; try discriminate. simpl. intros H.
  apply Map_get_In in H. change v with (snd (s, v)). now apply in_map.
Qed.

Section Awaited.
Context {RT : Runtime}.

Lemma first_matching_registered uri entries h :
  first_matching uri entries = Normal (Some h) -> In h (Map_values entries).
Proof.
  induction entries as [|[k h'] rest IH]; simpl; [discriminate|].
  destruct (matchesTemplate uri k) as [[|]|t]; try discriminate; auto.
  intros [= ->]. now left.
Qed.

(** Case analysis on a scrutinee that holds no case analysis itself,
    keeping what it was equal to. *)
Ltac innermost_case_eqn :=
  match goal with
  | |- context [match ?x with _ => _ end] =>
      first [ match x with context [match _ with _ => _ end] => fail 2 end
            | destruct x eqn:?; simpl ]
  end.

Ltac awaited_steps :=
  intros s;
  unfold bind, object_coercible, this_server, lift, throw_Error, throw, ret,
    await_call, this_setLogLevel, calls_of;
  simpl;
  repeat innermost_case_eqn;
  auto;
  right; do 2 eexists; (split; [reflexivity|]); unfold registered;
  eauto 6 using @Map_get_value_registered, first_matching_registered.

Lemma awaits_registered_handleToolCall params :
  awaits_registered (handleToolCall params).
Proof. unfold handleToolCall. awaited_steps. Qed.

Lemma awaits_registered_handleResourceRead params :
  awaits_registered (handleResourceRead params).
Proof. unfold handleResourceRead. awaited_steps. Qed.

Lemma awaits_registered_handlePromptGet params :
  awaits_registered (handlePromptGet params).
Proof. unfold handlePromptGet. awaited_steps. Qed.

Lemma awaits_registered_handleSampling params :
  awaits_registered (handleSampling params).
Proof. unfold handleSampling. awaited_steps. Qed.

Lemma awaits_registered_processJsonRpcMethod request :
  awaits_registered (processJsonRpcMethod request).
Proof.
  unfold processJsonRpcMethod.
  repeat match goal with
         | |- awaits_registered (if ?b then _ else _) => destruct b
         end;
    auto using awaits_registered_handleToolCall,
      awaits_registered_handleResourceRead, awaits_registered_handlePromptGet,
      awaits_registered_handleSampling.
  all: unfold handleInitialize, handleResourcesList, handleResourceTemplatesList,
         handlePromptsList, handleSetLogLevel; awaited_steps.
Qed.

Lemma calls_of_handleJsonRpcRequest body s :
  calls_of (handleJsonRpcRequest body s)
  = match decode body with
    | Normal request => calls_of (processJsonRpcMethod request s)
    | Throw _ => []
    end.
Proof.
  destruct (decode body) as [request|t] eqn:Hd.
  - rewrite (handleJsonRpcRequest_decoded _ _ _ Hd). unfold calls_of.
    now destruct (processJsonRpcMethod request s) as [[[result|t] s'] calls].
  - now rewrite (handleJsonRpcRequest_undecoded _ _ _ Hd).
Qed.

End Awaited.

(** X25. A request makes the server await at most one handler, and
    only a handler that is registered: whatever the request, either no
    handler is awaited, or exactly one is, once, and it is a value of
    the tool, resource or prompt handler map or the sampling handler of
    the server. *)
Theorem a_request_awaits_at_most_one_registered_handler
  {RT : Runtime} {SZ : Serializer} (request : Request) (s : MCPServer) :
  calls_of (handleRequest request s) = []
  \/ exists h arg,
       calls_of (handleRequest request s) = [Invoked h arg] /\ registered h s.
Proof.
  unfold handleRequest.
  destruct (request_method request =? "OPTIONS"); [now left|].
  destruct (request_method request =? "GET").
  { unfold handleGetRequest.
    destruct (url_pathname (request_url request) =? "/tools/list").
    { unfold bind, this_server, lift, stringify. simpl.
      destruct (JSON_stringify_throws _); now left. }
    destruct (searchParams_has "sessionId" (request_url request)); now left. }
  destruct (request_method request =? "POST"); [|now left].
  pose proof (calls_of_handleJsonRpcRequest (request_text request) s) as Hc.
  unfold calls_of in *.
  destruct (handleJsonRpcRequest (request_text request) s) as [[r s'] c].
  simpl in *. subst c.
  destruct (decode (request_text request)) as [rpc|t]; [|now left].
  apply awaits_registered_processJsonRpcMethod.
Qed.

(* ================================================================== *)
(** ** The other test suites of the repository, replayed *)
(* ================================================================== *)

(** The cases of [handleRequest] in [__tests__/server.test.ts] and the
    cases of [resource.test.ts], [prompt.test.ts] and
    [sampling.test.ts], on the reference runtime. *)

Example replay_cors_preflight :
  outcome_of
    (handleRequest (RT := Ref.runtime) (SZ := plain_values)
       {| request_method := "OPTIONS";
          request_url := {| url_pathname := "/"; url_searchParams := [] |};
          request_text := EmptyString |} Fixture.server)
  = Normal createCorsResponse.
Proof. reflexivity. Qed.

Example replay_get_tools_list :
  let s := addTool Fixture.test_tool (Fixture.resolves VUndefined) Fixture.server in
  outcome_of
    (handleRequest (RT := Ref.runtime) (SZ := plain_values)
       {| request_method := "GET";
          request_url := {| url_pathname := "/tools/list"; url_searchParams := [] |};
          request_text := EmptyString |} s)
  = Normal
      {| http_body :=
           Body (JSON_stringify
                   (VObj [("tools", VArr [MCPTool_object Fixture.test_tool])]));
         http_status := 200;
         http_headers := [("Content-Type", "application/json");
                          ("Access-Control-Allow-Origin", "*")] |}.
Proof. reflexivity. Qed.

(** A tool whose schema holds a [BigInt]: the listing cannot be
    serialised and the request is rejected. *)
Example replay_get_tools_list_rejected :
  let error := ErrorObj "Do not know how to serialize a BigInt" in
  let runtime := {| JSON_stringify_throws := fun _ => Some error |} in
  let s := addTool Fixture.test_tool (Fixture.resolves VUndefined) Fixture.server in
  outcome_of
    (handleRequest (RT := Ref.runtime) (SZ := runtime)
       {| request_method := "GET";
          request_url := {| url_pathname := "/tools/list"; url_searchParams := [] |};
          request_text := EmptyString |} s)
  = Throw error.
Proof. reflexivity. Qed.

Example replay_get_session :
  outcome_of
    (handleRequest (RT := Ref.runtime) (SZ := plain_values)
       {| request_method := "GET";
          request_url := {| url_pathname := "/";
                            url_searchParams := [("sessionId", "123")] |};
          request_text := EmptyString |} Fixture.server)
  = Normal createSSEResponse.
Proof. reflexivity. Qed.

Example replay_get_unknown_path :
  outcome_of
    (handleRequest (RT := Ref.runtime) (SZ := plain_values)
       {| request_method := "GET";
          request_url := {| url_pathname := "/unknown"; url_searchParams := [] |};
          request_text := EmptyString |} Fixture.server)
  = Normal {| http_body := TextBody "Not found"; http_status := 404;
              http_headers := [] |}.
Proof. reflexivity. Qed.

Example replay_unsupported_method :
  outcome_of
    (handleRequest (RT := Ref.runtime) (SZ := plain_values)
       {| request_method := "DELETE";
          request_url := {| url_pathname := "/"; url_searchParams := [] |};
          request_text := EmptyString |} Fixture.server)
  = Normal {| http_body := TextBody "Method not allowed"; http_status := 405;
              http_headers := [] |}.
Proof. reflexivity. Qed.

Example replay_post_initialize :
  http_status
    (match outcome_of
             (handleRequest (RT := Ref.runtime) (SZ := plain_values)
                {| request_method := "POST";
                   request_url := {| url_pathname := "/"; url_searchParams := [] |};
                   request_text :=
                     json_text "{'jsonrpc':'2.0','id':1,'method':'initialize','params':{}}" |}
                Fixture.server) with
     | Normal response => response
     | Throw _ => createCorsResponse
     end)
  = 200%Z.
Proof. reflexivity. Qed.

Example replay_text_resource_minimal :
  fst (createTextResource "text://simple" "Simple Text" "Hello World"
         no_resource_options)
  = {| res_uri := "text://simple"; res_name := "Simple Text";
       res_description := None; res_mimeType := Some "text/plain" |}.
Proof. reflexivity. Qed.

Example replay_text_resource_custom :
  let made :=
    createTextResource "text://custom" "Custom Text" "Custom content"
      {| option_description := Some "Custom description";
         option_mimeType := Some "text/markdown" |} in
  fst made
  = {| res_uri := "text://custom"; res_name := "Custom Text";
       res_description := Some "Custom description";
       res_mimeType := Some "text/markdown" |}
  /\ snd made (VStr "text://custom")
     = Normal (VObj [("uri", VStr "text://custom");
                     ("mimeType", VStr "text/markdown");
                     ("text", VStr "Custom content")]).
Proof. split; reflexivity. Qed.

Example replay_binary_resource :
  let made :=
    createBinaryResource "binary://data" "Binary Data" "AQIDBAU="
      no_resource_options in
  fst made
  = {| res_uri := "binary://data"; res_name := "Binary Data";
       res_description := None;
       res_mimeType := Some "application/octet-stream" |}
  /\ snd made (VStr "binary://data")
     = Normal (VObj [("uri", VStr "binary://data");
                     ("mimeType", VStr "application/octet-stream");
                     ("blob", VStr "AQIDBAU=")]).
Proof. split; reflexivity. Qed.

Example replay_file_resource :
  as_MCPResource
    (fst (createFileResource (RT := Ref.runtime) "file:///test.txt" "Test File"
            "/path/to/test.txt" no_resource_options))
  = Some {| res_uri := "file:///test.txt"; res_name := "Test File";
            res_description := None; res_mimeType := Some "text/plain" |}.
Proof. reflexivity. Qed.

(** An extension that is the name of a member of [Object.prototype]
    finds that member in place of a MIME type; the extension is looked
    up in lower case. *)
Example replay_file_resource_inherited :
  map (fun filePath =>
         descriptor_mimeType
           (fst (createFileResource (RT := Ref.runtime) "file:///x" "X"
                   filePath no_resource_options)))
    ["/lib.constructor"; "/lib.__proto__"; "/lib.toString"; "/lib."; "/lib"]
  = [VNative "Object"; VObj []; VStr "application/octet-stream";
     VStr "application/octet-stream"; VStr "application/octet-stream"].
Proof. reflexivity. Qed.

Example replay_mime_types :
  map (detectMimeType (RT := Ref.runtime))
    ["/test.html"; "/test.css"; "/test.js"; "/test.json"; "/test.xml";
     "/test.png"; "/test.jpg"; "/test.pdf"; "/test.unknown"]
  = map VStr
      ["text/html"; "text/css"; "application/javascript"; "application/json";
       "application/xml"; "image/png"; "image/jpeg"; "application/pdf";
       "application/octet-stream"].
Proof. reflexivity. Qed.

Example replay_simple_prompt :
  let made :=
    createSimplePrompt (RT := Ref.runtime) "simple-test" "Simple test prompt"
      "This is a simple prompt template." no_prompt_options in
  fst made
  = {| prompt_name := "simple-test";
       prompt_description := Some "Simple test prompt";
       prompt_arguments := None |}
  /\ snd made (VObj [])
     = Normal (VObj [("description", VStr "Simple test prompt");
                     ("messages",
                      VArr [prompt_message "user"
                              "This is a simple prompt template."])]).
Proof. split; reflexivity. Qed.

Example replay_simple_prompt_variables :
  snd (createSimplePrompt (RT := Ref.runtime) "template-test"
         "Template test prompt" "Hello {{name}}, your age is {{age}}."
         no_prompt_options)
      (VObj [("name", VStr "Alice"); ("age", VStr "25")])
  = Normal (VObj [("description", VStr "Template test prompt");
                  ("messages",
                   VArr [prompt_message "user" "Hello Alice, your age is 25."])]).
Proof. reflexivity. Qed.

Example replay_simple_prompt_missing_variable :
  snd (createSimplePrompt (RT := Ref.runtime) "missing-vars"
         "Missing variables test" "Hello {{name}}, your role is {{role}}."
         no_prompt_options)
      (VObj [("name", VStr "Bob")])
  = Normal (VObj [("description", VStr "Missing variables test");
                  ("messages",
                   VArr [prompt_message "user"
                           "Hello Bob, your role is {{role}}."])]).
Proof. reflexivity. Qed.

Example replay_multi_step_prompt :
  let text_step role text :=
    {| message_role := role; message_type := "text";
       message_text := Some text; message_data := None;
       message_mimeType := None |} in
  snd (createMultiStepPrompt (RT := Ref.runtime) "multi-step-test"
         "Multi-step analysis prompt"
         [text_step "system" "You are a helpful assistant.";
          text_step "user" "Please analyze this: {{input}}"]
         no_prompt_options)
      (VObj [("input", VStr "test data")])
  = Normal (VObj [("description", VStr "Multi-step analysis prompt");
                  ("messages",
                   VArr [prompt_message "system" "You are a helpful assistant.";
                         prompt_message "user"
                           "Please analyze this: test data"])]).
Proof. reflexivity. Qed.

Example replay_analysis_prompt :
  let made :=
    createAnalysisPrompt (RT := Ref.runtime) "basic-analysis"
      "Basic analysis prompt" "data" no_prompt_options in
  option_map (map (fun a => (arg_name a, arg_required a)))
    (prompt_arguments (fst made))
  = Some [("data", Some true); ("analysis_type", Some false);
          ("format", Some false)]
  /\ snd made (VObj [("data", VStr "test data")])
     = Normal (VObj [("description", VStr "Basic analysis prompt");
                     ("messages",
                      VArr [prompt_message "system"
                              "You are an analytical expert. Provide thorough and insightful analysis.";
                            prompt_message "user"
                              "Please analyze: test data"])]).
Proof. split; reflexivity. Qed.

Example replay_simple_sampling_request :
  createSimpleSamplingRequest "What is the capital of France?"
    {| option_focusAreas := None; option_style := None;
       option_systemPrompt := Some "Be educational";
       option_temperature := Some (Decimal 3 (-1));
       option_maxTokens := Some (Decimal 500 0);
       option_modelPreferences := None;
       option_includeContext := None |}
  = VObj [("messages",
           VArr [text_message "user" "What is the capital of France?"]);
          ("systemPrompt", VStr "Be educational");
          ("temperature", VNum (Decimal 3 (-1)));
          ("maxTokens", VNum (Decimal 500 0));
          ("modelPreferences", VUndefined);
          ("includeContext", VStr "none")].
Proof. reflexivity. Qed.

Example replay_analysis_sampling_request :
  let request :=
    createAnalysisSamplingRequest "Analyze this data: [1,2,3,4,5]" None
      no_sampling_options in
  get_prop (RT := Ref.runtime) request "messages"
  = VArr [text_message "system"
            "You are an analytical expert. Provide thorough and insightful analysis.";
          text_message "user" "Analyze this data: [1,2,3,4,5]"]
  /\ get_prop (RT := Ref.runtime) request "temperature" = VNum (Decimal 3 (-1))
  /\ get_prop (RT := Ref.runtime) request "maxTokens" = VNum (Decimal 2000 0).
Proof. repeat split; reflexivity. Qed.

Example replay_conversation_sampling_request :
  let messages := [text_message "user" "Hello"; text_message "assistant" "Hi"] in
  let request := createConversationSamplingRequest messages no_sampling_options in
  get_prop (RT := Ref.runtime) request "messages" = VArr messages
  /\ get_prop (RT := Ref.runtime) request "includeContext" = VStr "thisSession".
Proof. split; reflexivity. Qed.


Example replay_create_prompt :
  let prompt :=
    {| prompt_name := "test-prompt"; prompt_description := Some "A test prompt";
       prompt_arguments := None |} in
  let handler :=
    Fixture.resolves (VObj [("description", VStr "Test result");
                            ("messages", VArr [])]) in
  createPrompt prompt handler = (prompt, handler).
Proof. reflexivity. Qed.

Example replay_create_resource :
  createResource Fixture.test_resource (Fixture.resolves Fixture.content)
  = (Fixture.test_resource, Fixture.resolves Fixture.content)
  /\ createResourceTemplate Fixture.test_template (Fixture.resolves Fixture.content)
     = (Fixture.test_template, Fixture.resolves Fixture.content).
Proof. split; reflexivity. Qed.

Example replay_code_review_sampling_request :
  let request :=
    createCodeReviewSamplingRequest "function add(a, b) { return a + b; }" None
      no_sampling_options in
  get_prop (RT := Ref.runtime) request "messages"
  = VArr [text_message "system"
            "You are a code review expert. Provide constructive feedback on code quality, security, performance, and maintainability.";
          text_message "user"
            ("Please review this code for best practices, potential bugs, and improvements:"
             ++ LF ++ LF ++ "```" ++ LF ++ "function add(a, b) { return a + b; }"
             ++ LF ++ "```")]
  /\ get_prop (RT := Ref.runtime) request "temperature" = VNum (Decimal 2 (-1)).
Proof. split; reflexivity. Qed.

Example replay_summarization_sampling_request :
  option_map (fun request =>
                (get_prop (RT := Ref.runtime) request "messages",
                 get_prop (RT := Ref.runtime) request "temperature",
                 get_prop (RT := Ref.runtime) request "maxTokens"))
    (match createSummarizationSamplingRequest (RT := Ref.runtime)
             "This is a long document that needs to be summarized..." None no_sampling_options with
     | Normal request => Some request
     | Throw _ => None
     end)
  = Some (VArr [text_message "system"
                  "You are a summarization expert. Create concise, accurate summaries that capture the key points.";
                text_message "user"
                  ("Please summarize the following content in paragraph form:"
                   ++ LF ++ LF ++ "This is a long document that needs to be summarized...")],
          VNum (Decimal 4 (-1)), VNum (Decimal 1000 0)).
Proof. reflexivity. Qed.
